(** * goldengate: a policy-driven signing proxy for AWS-style APIs

    A shallow embedding of the request pipeline ([goldengate/__init__.py]),
    the rule registry ([goldengate/rules/__init__.py]), the match, filter
    and modify rules ([goldengate/rules/match.py], [filter.py],
    [modify.py]), the AWS signature rules ([goldengate/rules/aws.py]), the
    stand-alone authenticator ([goldengate/auth/aws.py]), the policies and
    the time-lock policy ([goldengate/policy.py]) and the token generator
    ([goldengate/util.py]), with the properties the specification states
    about them and further properties of the code.

    Conventions.  A Python 2 [str] is a Rocq [string] (a sequence of bytes).
    A function that may raise returns [Result A]; the exceptions are the
    constructors of [exn].  A dict is a [gmap], or the list of its items
    where the order in which it lists them shows; the items of WebOb's
    multi-valued [params] are a list of pairs.  Library functions whose text
    is not part of the repository ([hmac], [time.strftime],
    [time.strptime], the upstream HTTP connection) are Section variables, so
    that every theorem holds for all their behaviours; what the clock reads
    and what the random generator draws are arguments of the functions that
    ask for them.  The first part of the file holds the embedding, the
    second the properties. *)

From Stdlib Require Import ZArith QArith Qround String Ascii List Lia Lqa.
From Stdlib Require Import Permutation Sorted DecimalString.
From stdpp Require Import gmap strings list fin_maps sorting.

Local Open Scope string_scope.
Local Open Scope list_scope.

(** ** Python: exceptions and results *)

Module Py.

Inductive exn : Type :=
| Exception (msg : string)
| KeyError (key : string)
| ValueError (msg : string)
| AttributeError (msg : string)
| RuleException (msg : string)
| UnauthenticatedException (msg : string)
| IndexError (msg : string)
| UnboundLocalError (msg : string)
| TypeError (msg : string)
| IOError (msg : string).

Inductive Result (A : Type) : Type :=
| Ok (a : A)
| Raise (e : exn).
Arguments Ok {A} a.
Arguments Raise {A} e.

Definition bind {A B : Type} (r : Result A) (k : A -> Result B) : Result B :=
  match r with
  | Ok a => k a
  | Raise e => Raise e
  end.

Definition raises {A : Type} (r : Result A) : Prop :=
  exists e, r = Raise e.

(** [x < y] on the clock's readings.  A reading of [time.time()] is a
    rational: the doubles near present-day epoch seconds, and their
    differences with a whole number of seconds, are exact. *)
Definition Qltb (x y : Q) : bool := negb (Qle_bool y x).

End Py.
Export Py.

Notation "'do' x <- r ; k" := (Py.bind r (fun x => k))
  (at level 10, x name, r at level 100, k at level 200).

(** ** Python: the [str] operations the program uses *)

Module Str.

Definition chr (n : nat) : ascii := ascii_of_nat n.
Definition ord (c : ascii) : nat := nat_of_ascii c.

Definition is_upper (c : ascii) : bool := (65 <=? ord c)%nat && (ord c <=? 90)%nat.
Definition is_lower (c : ascii) : bool := (97 <=? ord c)%nat && (ord c <=? 122)%nat.
Definition is_digit (c : ascii) : bool := (48 <=? ord c)%nat && (ord c <=? 57)%nat.

(** [s.lower()] on a byte string in the C locale: only A-Z change. *)
Definition lower_char (c : ascii) : ascii :=
  if is_upper c then chr (ord c + 32) else c.

Fixpoint lower (s : string) : string :=
  match s with
  | EmptyString => EmptyString
  | String c r => String (lower_char c) (lower r)
  end.

(** [s[:n]] and [s[n:]] for [0 <= n]. *)
Fixpoint take (n : nat) (s : string) : string :=
  match n, s with
  | S k, String c r => String c (take k r)
  | _, _ => EmptyString
  end.

Fixpoint drop (n : nat) (s : string) : string :=
  match n, s with
  | S k, String _ r => drop k r
  | _, _ => s
  end.

(** [s.startswith(p)] *)
Fixpoint startswith (s p : string) {struct p} : bool :=
  match p with
  | EmptyString => true
  | String a p' =>
      match s with
      | EmptyString => false
      | String b s' => Ascii.eqb a b && startswith s' p'
      end
  end.

Definition endswith (s p : string) : bool :=
  (String.length p <=? String.length s)%nat
  && String.eqb (drop (String.length s - String.length p) s) p.

(** [sep.join(l)] *)
Fixpoint join (sep : string) (l : list string) : string :=
  match l with
  | [] => EmptyString
  | [x] => x
  | x :: r => x ++ sep ++ join sep r
  end.

(** [s.split(c)] for a one-character separator: always at least one piece. *)
Fixpoint split (c : ascii) (s : string) : list string :=
  match s with
  | EmptyString => [EmptyString]
  | String a r =>
      if Ascii.eqb a c then EmptyString :: split c r
      else match split c r with
           | [] => [String a EmptyString]
           | p :: ps => String a p :: ps
           end
  end.

(** [s.split(c, 1)]: cut at the first [c] only. *)
Fixpoint split1 (c : ascii) (s : string) : list string :=
  match s with
  | EmptyString => [EmptyString]
  | String a r =>
      if Ascii.eqb a c then [EmptyString; r]
      else match split1 c r with
           | [] => [String a EmptyString]
           | p :: ps => String a p :: ps
           end
  end.

(** [s.replace(old, new)] for a non-empty [old]: a left-to-right scan that
    replaces each occurrence and resumes after it.  [skip] counts the
    characters of the current occurrence that are still to be dropped. *)
Fixpoint replace_from (skip : nat) (old new s : string) : string :=
  match s with
  | EmptyString => EmptyString
  | String a r =>
      match skip with
      | S k => replace_from k old new r
      | O =>
          if startswith s old
          then new ++ replace_from (String.length old - 1) old new r
          else String a (replace_from 0 old new r)
      end
  end.

Definition replace (s old new : string) : string := replace_from 0 old new s.

Definition contains_char (c : ascii) (s : string) : bool :=
  existsb (Ascii.eqb c) (list_ascii_of_string s).

End Str.

(** ** Python: [urllib.quote], [sorted], [base64.b64encode] *)

Module Urllib.

Definition hex_digit (n : nat) : ascii :=
  match String.get n "0123456789ABCDEF" with
  | Some c => c
  | None => "0"%char
  end.

(** ['%%%02X' % ord(c)] *)
Definition percent (c : ascii) : string :=
  String "%" (String (hex_digit (Str.ord c / 16))
             (String (hex_digit (Str.ord c mod 16)) EmptyString)).

(** [urllib.always_safe]: letters, digits and [_.-]. *)
Definition always_safe (c : ascii) : bool :=
  Str.is_upper c || Str.is_lower c || Str.is_digit c
  || Str.contains_char c "_.-".

Definition quote_char (safe : string) (c : ascii) : string :=
  if always_safe c || Str.contains_char c safe
  then String c EmptyString
  else percent c.

(** [urllib.quote(s, safe)] *)
Fixpoint quote (safe : string) (s : string) : string :=
  match s with
  | EmptyString => EmptyString
  | String c r => quote_char safe c ++ quote safe r
  end.

(** [urllib.quote_plus(s)], with its default [safe='']. *)
Definition quote_plus (s : string) : string :=
  if Str.contains_char " " s
  then Str.replace (quote " " s) " " "+"
  else quote "" s.

End Urllib.

Module Sorting.

(** The order of Python 2 on [(str, str)] tuples: bytewise on the first
    component, then on the second. *)
Definition pair_leb (a b : string * string) : bool :=
  match String.compare (fst a) (fst b) with
  | Lt => true
  | Gt => false
  | Eq => String.leb (snd a) (snd b)
  end.

Fixpoint insert_sorted (a : string * string) (l : list (string * string))
  : list (string * string) :=
  match l with
  | [] => [a]
  | b :: r => if pair_leb a b then a :: l else b :: insert_sorted a r
  end.

(** [sorted(l)] (and [l.sort()]) on a list of pairs. *)
Fixpoint sorted (l : list (string * string)) : list (string * string) :=
  match l with
  | [] => []
  | a :: r => insert_sorted a (sorted r)
  end.

End Sorting.

Module Base64.

Definition alphabet : string :=
  "ABCDEFGHIJKLMNOPQRSTUVWXYZabcdefghijklmnopqrstuvwxyz0123456789+/".

Definition sextet (n : N) : ascii :=
  match String.get (N.to_nat (n mod 64)) alphabet with
  | Some c => c
  | None => "="%char
  end.

Fixpoint encode_bytes (l : list N) : list ascii :=
  match l with
  | a :: b :: c :: r =>
      let n := (a * 65536 + b * 256 + c)%N in
      sextet (n / 262144) :: sextet (n / 4096) :: sextet (n / 64) :: sextet n
      :: encode_bytes r
  | [a; b] =>
      let n := (a * 65536 + b * 256)%N in
      [sextet (n / 262144); sextet (n / 4096); sextet (n / 64); "="%char]
  | [a] =>
      let n := (a * 65536)%N in
      [sextet (n / 262144); sextet (n / 4096); "="%char; "="%char]
  | [] => []
  end.

(** [base64.b64encode(s)] *)
Definition b64encode (s : string) : string :=
  string_of_list_ascii (encode_bytes (map N_of_ascii (list_ascii_of_string s))).

End Base64.

(** ** Python: [time.strftime] / [time.strptime] / [calendar.timegm]

    The program formats and parses timestamps with the library, in the
    format [%Y-%m-%dT%H:%M:%S].  The theorems below take the two library
    functions as parameters; this module gives the pair, on zero-padded
    timestamps of the years 0001-9999, that the examples run. *)

Module Clock.

Definition days_from_civil (y m d : Z) : Z :=
  let y := if (m <=? 2)%Z then (y - 1)%Z else y in
  let era := (y / 400)%Z in
  let yoe := (y - era * 400)%Z in
  let mp := if (m >? 2)%Z then (m - 3)%Z else (m + 9)%Z in
  let doy := ((153 * mp + 2) / 5 + d - 1)%Z in
  let doe := (yoe * 365 + yoe / 4 - yoe / 100 + doy)%Z in
  (era * 146097 + doe - 719468)%Z.

Definition civil_from_days (z : Z) : Z * Z * Z :=
  let z := (z + 719468)%Z in
  let era := (z / 146097)%Z in
  let doe := (z - era * 146097)%Z in
  let yoe := ((doe - doe / 1460 + doe / 36524 - doe / 146096) / 365)%Z in
  let y := (yoe + era * 400)%Z in
  let doy := (doe - (365 * yoe + yoe / 4 - yoe / 100))%Z in
  let mp := ((5 * doy + 2) / 153)%Z in
  let d := (doy - (153 * mp + 2) / 5 + 1)%Z in
  let m := if (mp <? 10)%Z then (mp + 3)%Z else (mp - 9)%Z in
  (if (m <=? 2)%Z then (y + 1)%Z else y, m, d).

Definition digit (n : Z) : ascii := Str.chr (48 + Z.to_nat (n mod 10)).

Definition two (n : Z) : string :=
  String (digit (n / 10)) (String (digit n) EmptyString).

Definition four (n : Z) : string := two (n / 100) ++ two (n mod 100).

(** [time.strftime(TIME_FORMAT, time.gmtime(t))] *)
Definition strftime (t : Z) : string :=
  let '(y, m, d) := civil_from_days (t / 86400) in
  let s := (t mod 86400)%Z in
  four y ++ "-" ++ two m ++ "-" ++ two d ++ "T"
  ++ two (s / 3600) ++ ":" ++ two (s mod 3600 / 60) ++ ":" ++ two (s mod 60).

Fixpoint number (acc : Z) (s : string) : option Z :=
  match s with
  | EmptyString => Some acc
  | String c r =>
      if Str.is_digit c
      then number (acc * 10 + Z.of_nat (Str.ord c - 48)) r
      else None
  end.

Definition field (s : string) (from len : nat) (lo hi : Z) : option Z :=
  match number 0 (String.substring from len s) with
  | Some n => if ((lo <=? n) && (n <=? hi))%Z then Some n else None
  | None => None
  end.

(** [calendar.timegm(time.strptime(s, TIME_FORMAT))]; [None] is
    [ValueError]. *)
Definition strptime (s : string) : option Z :=
  if negb (String.length s =? 19)%nat then None
  else if negb (String.eqb (String.substring 4 1 s) "-"
                && String.eqb (String.substring 7 1 s) "-"
                && String.eqb (String.substring 10 1 s) "T"
                && String.eqb (String.substring 13 1 s) ":"
                && String.eqb (String.substring 16 1 s) ":") then None
  else
    match field s 0 4 1 9999, field s 5 2 1 12, field s 8 2 1 31,
          field s 11 2 0 23, field s 14 2 0 59, field s 17 2 0 61 with
    | Some y, Some m, Some d, Some hh, Some mm, Some ss =>
        let days := days_from_civil y m d in
        if negb (let '(y', m', d') := civil_from_days days in
                 ((y' =? y) && (m' =? m) && (d' =? d))%Z) then None
        else Some (days * 86400 + hh * 3600 + mm * 60 + ss)%Z
    | _, _, _, _, _, _ => None
    end.

End Clock.

(** ** goldengate/auth/aws.py *)

Module AuthAws.

(** [random.randint(lo, hi)]: raises [ValueError] on an empty range, else
    returns the generator's draw [pick], which lies in [lo..hi]. *)
Definition randint (lo hi : Z) (pick : Z) : Result Z :=
  if (hi <? lo)%Z then Raise (ValueError "empty range for randrange()") else Ok pick.

(** [_are_equal(this, that)]; [pick] is what the random generator answers. *)
Definition _are_equal (pick : Z) (this that : string) : Result bool :=
  if negb (String.length this =? String.length that)%nat then Ok false
  else
    do rot <- randint 0 (Z.of_nat (String.length this) - 1) pick;
    let rot := Z.to_nat rot in
    Ok (String.eqb (Str.take rot this ++ Str.drop rot this)
                   (Str.take rot that ++ Str.drop rot that)).

(** Modelled from the spec: [goldengate/http.py] ([http.Request], its
    [url] object, [http.clone_url], [Request._clone]) is not among the
    sources.  The spec's data model gives a request a method, scheme, host,
    path and a query-parameter mapping; the code below uses the mapping
    through the [dict] interface ([copy], item assignment, [iteritems]). *)
Record Url : Type := {
  scheme : string;
  host : string;
  path : string;
  parameters : gmap string string
}.

Record Request : Type := {
  method : string;
  url : Url
}.

Definition clone_url (u : Url) (p : gmap string string) : Url :=
  {| scheme := scheme u; host := host u; path := path u; parameters := p |}.

Definition _clone (r : Request) (u : Url) : Request :=
  {| method := method r; url := u |}.

(** Modelled from the spec: [http.urlencode] is not among the sources; the
    spec has each pair percent-encoded with the safe set [-_~] and joined
    [k=v] with [&]. *)
Definition urlencode (l : list (string * string)) : string :=
  Str.join "&"
    (map (fun kv => (Urllib.quote "-_~" (fst kv) ++ "=" ++ Urllib.quote "-_~" (snd kv))%string) l).

Inductive SignatureMethod : Type :=
| SignatureMethod_HMAC_SHA1
| SignatureMethod_HMAC_SHA256.

Definition name (m : SignatureMethod) : string :=
  match m with
  | SignatureMethod_HMAC_SHA1 => "HmacSHA1"
  | SignatureMethod_HMAC_SHA256 => "HmacSHA256"
  end.

Definition version (m : SignatureMethod) : string := "2".

Definition get_normalized_parameters (r : Request) : string :=
  urlencode
    (List.filter (fun kv => negb (String.eqb (fst kv) "Signature"))
            (Sorting.sorted (map_to_list (parameters (url r))))).

Definition get_normalized_http_method (r : Request) : string := method r.

Definition get_normalized_http_host (r : Request) : string :=
  let host := Str.lower (host (url r)) in
  let scheme := Str.lower (scheme (url r)) in
  if String.eqb scheme "http" && Str.endswith host ":80"
     || String.eqb scheme "https" && Str.endswith host ":443"
  then Str.join "" (removelast (Str.split ":" host))
  else host.

Definition get_normalized_http_path (r : Request) : string :=
  if String.eqb (path (url r)) "" then "/" else path (url r).

Definition build_signature_base_string (r : Request) : string :=
  Str.join (String (Str.chr 10) EmptyString)
    [ get_normalized_http_method r;
      get_normalized_http_host r;
      get_normalized_http_path r;
      get_normalized_parameters r ].

(** Modelled from the spec: the credential store ([base.Authenticator]'s
    [credentials]) is not among the sources; the spec has it a read-only map
    from access key to (secret, entity) whose [for_key] returns the
    credential or null. *)
Record Credential : Type := {
  secret : string;
  entity : string
}.

Definition for_key (credentials : gmap string Credential) (k : string)
  : option Credential := credentials !! k.

Definition TIMESTAMP_THRESHOLD : Z := 300.

(** The test of [authenticate] on the parsed timestamp: in the future of
    the first reading of the clock, or older than the threshold at the
    second. *)
Definition bad_timestamp (now1 now2 : Q) (timestamp : Z) : bool :=
  Qltb now1 (inject_Z timestamp)
  || Qltb (inject_Z timestamp) (now2 - inject_Z TIMESTAMP_THRESHOLD).

Definition signature_methods : list SignatureMethod :=
  [SignatureMethod_HMAC_SHA1; SignatureMethod_HMAC_SHA256].

Definition get_signature_method (nm ver : string) : Result SignatureMethod :=
  match find (fun m => String.eqb (name m) nm && String.eqb (version m) ver)
             signature_methods with
  | Some m => Ok m
  | None => Raise (UnauthenticatedException
                     "invalid signature method or signature version")
  end.

Section Library.

(** [hmac.new(key, msg, hash).digest()], for the hash of the method. *)
Variable hmac_digest : SignatureMethod -> string -> string -> string.
(** [time.strftime(TIME_FORMAT, time.gmtime(t))] at whole second [t]. *)
Variable strftime : Z -> string.
(** [calendar.timegm(time.strptime(s, TIME_FORMAT))]; [None] is [ValueError]. *)
Variable strptime : string -> option Z.

Definition build_signature (m : SignatureMethod) (r : Request) (aws_secret : string)
  : string :=
  Base64.b64encode (hmac_digest m aws_secret (build_signature_base_string r)).

(** [generate_timestamp()] when the clock reads [now]. *)
Definition generate_timestamp (now : Q) : string := strftime (Qfloor now).

(** [Request.signed_request], the clock reading [now]. *)
Definition signed_request (now : Q) (self : Request) (signature_method : SignatureMethod)
    (aws_key aws_secret : string) : Request :=
  let parameters := parameters (url self) in
  let parameters := <["AWSAccessKeyId" := aws_key]> parameters in
  let parameters := <["SignatureVersion" := version signature_method]> parameters in
  let parameters := <["SignatureMethod" := name signature_method]> parameters in
  let parameters := <["Timestamp" := generate_timestamp now]> parameters in
  let prepared := _clone self (clone_url (url self) parameters) in
  let parameters :=
    <["Signature" := build_signature signature_method prepared aws_secret]> parameters in
  _clone self (clone_url (url prepared) parameters).

(** [Authenticator.authenticate]; [now1] and [now2] are the two readings of
    [time.time()] (the second is taken only when the first test fails) and
    [pick] the draw of the random generator in [_are_equal]. *)
Definition authenticate (credentials : gmap string Credential) (now1 now2 : Q)
    (pick : Z) (request : Request) : Result string :=
  let p := parameters (url request) in
  match p !! "AWSAccessKeyId", p !! "Signature", p !! "SignatureMethod",
        p !! "SignatureVersion", p !! "Timestamp" with
  | Some aws_key, Some signature, Some signature_method,
    Some signature_version, Some timestamp =>
      match strptime timestamp with
      | None => Raise (UnauthenticatedException "bad timestamp")
      | Some timestamp =>
          if bad_timestamp now1 now2 timestamp
          then Raise (UnauthenticatedException "bad timestamp")
          else
            match for_key credentials aws_key with
            | None => Raise (UnauthenticatedException "signature mismatch")
            | Some cred =>
                do signer <- get_signature_method signature_method signature_version;
                let expected_signature :=
                  build_signature signer (_clone request (url request)) (secret cred) in
                do same <- _are_equal pick signature expected_signature;
                if same then Ok (entity cred)
                else Raise (UnauthenticatedException "signature mismatch")
            end
      end
  | _, _, _, _, _ =>
      Raise (UnauthenticatedException "missing required signature parameters.")
  end.

End Library.

End AuthAws.

(** ** WebOb: the request and response objects the rules receive

    [request.headers] is case-insensitive: a header name is looked up by its
    CGI key.  [adhoc] holds the attributes set on the request that WebOb
    does not know ([environ['webob.adhoc_attrs']]): WebOb creates the dict
    when the first such attribute is set, so [None] is a request on which
    none was set yet; inside the dict a value [None] is Python's [None]. *)

Module Webob.

Definition upper_char (c : ascii) : ascii :=
  if Str.is_lower c then Str.chr (Str.ord c - 32) else c.

Fixpoint header_key (name : string) : string :=
  match name with
  | EmptyString => EmptyString
  | String c r =>
      String (if Ascii.eqb c "-" then "_"%char else upper_char c) (header_key r)
  end.

Record Request : Type := {
  method : string;
  url : string;
  path : string;
  headers : gmap string string;
  params : list (string * string);
  content_type : string;
  body : string;
  adhoc : option (gmap string (option string))
}.

Record Response : Type := {
  status : Z;
  response_headers : list (string * string);
  response_body : string
}.

Definition set_headers (h : gmap string string) (r : Request) : Request :=
  {| method := method r; url := url r; path := path r; headers := h;
     params := params r; content_type := content_type r; body := body r;
     adhoc := adhoc r |}.

Definition set_body (b : string) (r : Request) : Request :=
  {| method := method r; url := url r; path := path r; headers := headers r;
     params := params r; content_type := content_type r; body := b;
     adhoc := adhoc r |}.

Definition set_adhoc (a : option (gmap string (option string))) (r : Request)
  : Request :=
  {| method := method r; url := url r; path := path r; headers := headers r;
     params := params r; content_type := content_type r; body := body r;
     adhoc := a |}.

(** [getattr(request, name)] for an attribute WebOb does not know; [None]
    is [AttributeError] (and [hasattr] false). *)
Definition getattr (r : Request) (name : string) : option (option string) :=
  match adhoc r with
  | Some attrs => attrs !! name
  | None => None
  end.

(** [request.__setattr__(name, value)] for such an attribute. *)
Definition setattr (name : string) (value : option string) (r : Request) : Request :=
  set_adhoc (Some (<[name := value]> (match adhoc r with
                                      | Some attrs => attrs
                                      | None => ∅
                                      end))) r.

(** [request.params[k]] on the multi-valued mapping: the last value. *)
Definition params_get (l : list (string * string)) (k : string) : Result string :=
  match find (fun kv => String.eqb (fst kv) k) (rev l) with
  | Some kv => Ok (snd kv)
  | None => Raise (KeyError k)
  end.

(** [k in request.params] *)
Definition params_has (l : list (string * string)) (k : string) : bool :=
  existsb (fun kv => String.eqb (fst kv) k) l.

(** [dict(request.params)]: a later pair replaces an earlier one. *)
Definition params_dict (l : list (string * string)) : gmap string string :=
  fold_left (fun m kv => <[fst kv := snd kv]> m) l ∅.

End Webob.

(** ** goldengate/rules/aws.py *)

Module RulesAws.
Import Webob.

Definition str_of_Z (z : Z) : string := NilZero.string_of_int (Z.to_int z).

Definition escape (s : string) : string := Urllib.quote "-_~" s.

(** The dict built by [encode_request] and by [AWSSignModifyRule.__call__];
    [sr_params] is what [request['params'].items()] lists. *)
Record SignRequest : Type := {
  sr_params : list (string * string);
  sr_method : string;
  sr_headers : gmap string string;
  sr_path : string
}.

Definition encode_request (request : Request) : SignRequest :=
  {| sr_params := params request; sr_method := method request;
     sr_headers := headers request; sr_path := path request |}.

Inductive SignatureMethod : Type :=
| SignatureMethod_HMAC_SHA1
| SignatureMethod_HMAC_SHA256.

Definition name (m : SignatureMethod) : string :=
  match m with
  | SignatureMethod_HMAC_SHA1 => "HmacSHA1"
  | SignatureMethod_HMAC_SHA256 => "HmacSHA256"
  end.

Definition version (m : SignatureMethod) : string := "2".

Definition canonical_params (items : list (string * string)) : string :=
  Str.join "&"
    (map (fun kv => (escape (fst kv) ++ "=" ++ escape (snd kv))%string)
         (List.filter (fun kv => negb (String.eqb (fst kv) "Signature"))
                 (Sorting.sorted items))).

(** [SignatureMethod.build_signature_base_string]: the pair
    [(params, base)]. *)
Definition build_signature_base_string (request : SignRequest)
  : Result (string * string) :=
  let params := canonical_params (sr_params request) in
  match sr_headers request !! header_key "Host" with
  | None => Raise (KeyError "Host")
  | Some h =>
      Ok (params,
          Str.join (String (Str.chr 10) EmptyString)
            [ sr_method request;
              Str.lower h;
              if String.eqb (sr_path request) "" then "/" else sr_path request;
              params ])
  end.

Definition signature_methods : list SignatureMethod :=
  [SignatureMethod_HMAC_SHA1; SignatureMethod_HMAC_SHA256].

Definition get_signature_method (nm ver : string) : Result SignatureMethod :=
  match find (fun m => String.eqb (name m) nm && String.eqb (version m) ver)
             signature_methods with
  | Some m => Ok m
  | None => Raise (RuleException
      ("Invalid signature method or version: method=" ++ nm ++ " version=" ++ ver))
  end.

Record AWSSignatureFilterRule : Type := {
  max_signature_age : Z;
  creds : list (string * string)
}.

Record AWSSignModifyRule : Type := {
  signature_method : string;
  signature_version : string;
  key : string;
  secret : string;
  signer : SignatureMethod
}.

Section Library.

(** [hmac.new(key, msg, hash).digest()], for the hash of the method. *)
Variable hmac_digest : SignatureMethod -> string -> string -> string.
(** [time.strftime(TIME_FORMAT, time.gmtime(t))] at whole second [t]. *)
Variable strftime : Z -> string.
(** [calendar.timegm(time.strptime(s, TIME_FORMAT))]; [None] is [ValueError]. *)
Variable strptime : string -> option Z.

Definition parse_timestamp (timestamp : string) : Result Z :=
  match strptime timestamp with
  | Some t => Ok t
  | None => Raise (ValueError "time data does not match format")
  end.

Definition generate_timestamp (now : Q) : string := strftime (Qfloor now).

Definition build_signature (m : SignatureMethod) (request : SignRequest)
    (aws_secret : string) : Result (string * string) :=
  do pb <- build_signature_base_string request;
  Ok (fst pb, Base64.b64encode (hmac_digest m aws_secret (snd pb))).

(** [AWSSignatureFilterRule.validate_timestamp], the clock reading [now]. *)
Definition validate_timestamp (self : AWSSignatureFilterRule) (now : Q)
    (request : Request) : Result bool :=
  do t <- params_get (params request) "Timestamp";
  do ts <- parse_timestamp t;
  do _ <- (if params_has (params request) "Expires"
           then
             do e <- params_get (params request) "Expires";
             do expires <- parse_timestamp e;
             if Qltb (inject_Z expires) now
             then Raise (RuleException
                    ("Request Expires time is in the past: " ++ str_of_Z expires))
             else Ok tt
           else Ok tt);
  if Qltb now (inject_Z ts)
  then Raise (RuleException "Timestamp may not be in the future")
  else if negb (max_signature_age self =? 0)%Z
          && Qltb (inject_Z ts) (now - inject_Z (max_signature_age self))
  then Raise (RuleException "Timestamp may not be more than %s seconds ago")
  else Ok true.

Definition validate_signature (request : Request) (aws_secret : string)
  : Result bool :=
  do sm <- params_get (params request) "SignatureMethod";
  do sv <- params_get (params request) "SignatureVersion";
  do signer <- get_signature_method sm sv;
  do pe <- build_signature signer (encode_request request) aws_secret;
  do sig <- params_get (params request) "Signature";
  Ok (String.eqb sig (snd pe)).

Definition get_credentials (self : AWSSignatureFilterRule) (request : Request)
  : Result (string * string) :=
  do aws_key <- params_get (params request) "AWSAccessKeyId";
  match find (fun cred => String.eqb (fst cred) aws_key) (creds self) with
  | Some cred => Ok cred
  | None => Raise (RuleException
      ("Access key not found in credentials file: " ++ aws_key))
  end.

(** [AWSSignatureFilterRule.__call__] *)
Definition signature_filter (self : AWSSignatureFilterRule) (now : Q)
    (request : Request) : Result bool :=
  do _ <- validate_timestamp self now request;
  do ks <- get_credentials self request;
  validate_signature request (snd ks).

(** [AWSSignModifyRule.__call__], the clock reading [now]. *)
Definition sign (self : AWSSignModifyRule) (now : Q) (request : Request)
  : Result Request :=
  do url0 <- match getattr request "goldengate_url" with
             | Some (Some u) => Ok u
             | Some None =>
                 Raise (AttributeError "'NoneType' object has no attribute 'split'")
             | None => Ok (url request)
             end;
  do uq <- match Str.split1 "?" url0 with
           | [u; q] => Ok (u, q)
           | _ => Raise (ValueError "need more than 1 value to unpack")
           end;
  let url1 := fst uq in
  let headers1 := delete (header_key "Authorization") (headers request) in
  let request1 := set_headers headers1 request in
  let params0 := params_dict (params request1) in
  let params1 := <["AWSAccessKeyId" := key self]> params0 in
  let params2 := <["SignatureVersion" := signature_version self]> params1 in
  let params3 := <["SignatureMethod" := signature_method self]> params2 in
  let params4 := <["Timestamp" := generate_timestamp now]> params3 in
  let r := {| sr_params := map_to_list params4; sr_method := method request1;
              sr_path := path request1; sr_headers := headers request1 |} in
  do ps <- build_signature (signer self) r (secret self);
  let signature := Urllib.quote_plus (snd ps) in
  if String.eqb (content_type request1) "application/x-www-form-urlencoded"
  then Ok (set_body (fst ps ++ "&Signature=" ++ signature)%string request1)
  else Ok (setattr "goldengate_url"
             (Some (url1 ++ "?" ++ fst ps ++ "&Signature=" ++ signature)%string)
             request1).

End Library.

End RulesAws.

(** ** goldengate/rules/modify.py: the URL and method overlay *)

Module RulesModify.

(** A [URLModifyRule] compiled from [url set <value>] or
    [method set <value>]; [value] is [None] when the line gives none. *)
Record URLModifyRule : Type := {
  verb : string;
  value : option string
}.

(** [URLModifyRule.__call__] *)
Definition url_modify (self : URLModifyRule) (request : Webob.Request)
  : Result Webob.Request :=
  Ok (Webob.setattr ("goldengate_" ++ verb self) (value self) request).

End RulesModify.

(** ** goldengate/rules/__init__.py and the rule classes' registration *)

Module Rules.

(** The rule classes of [rules/match.py], [rules/filter.py],
    [rules/modify.py] and [rules/aws.py]. *)
Inductive RuleClass : Type :=
| AllMatchRule | NoneMatchRule | RequestMatchRule | HeaderMatchRule
| AllFilterRule | NoneFilterRule | RequestFilterRule | HeaderFilterRule
| HeaderModifyRule | URLModifyRule | RequestModifyRule
| AWSSignatureFilterRule | AWSSignModifyRule.

(** The class attribute [ruletype], inherited from [MatchRule],
    [FilterRule] or [ModifyRule] unless the class sets it. *)
Definition ruletype (c : RuleClass) : string :=
  match c with
  | AllMatchRule | NoneMatchRule | RequestMatchRule | HeaderMatchRule => "match"
  | AllFilterRule | NoneFilterRule | RequestFilterRule | HeaderFilterRule
  | AWSSignatureFilterRule => "filter"
  | HeaderModifyRule | URLModifyRule | RequestModifyRule | AWSSignModifyRule => "modify"
  end.

(** The class attribute [verbs]; the filter classes inherit it from the
    match class they extend. *)
Definition verbs (c : RuleClass) : list string :=
  match c with
  | AllMatchRule | AllFilterRule => ["all"]
  | NoneMatchRule | NoneFilterRule => ["none"]
  | RequestMatchRule | RequestFilterRule =>
      ["method"; "scheme"; "script_name"; "path_info"; "remote_user";
       "remote_addr"; "host"; "host_url"; "application_url"; "path_url";
       "url"; "path"; "path_qs"; "query_string"]
  | HeaderMatchRule | HeaderFilterRule | HeaderModifyRule => ["header"]
  | URLModifyRule => ["url"; "method"]
  | RequestModifyRule => ["content_type"; "charset"; "host"; "body"; "cache_control"]
  | AWSSignatureFilterRule => ["aws_signature"]
  | AWSSignModifyRule => ["aws_sign"]
  end.

(** [add_rule(rule)] on the global [all_rules]. *)
Definition add_rule (rule : RuleClass) (all_rules : gmap string (gmap string RuleClass))
  : gmap string (gmap string RuleClass) :=
  let all_rules :=
    match all_rules !! ruletype rule with
    | None => <[ruletype rule := ∅]> all_rules
    | Some _ => all_rules
    end in
  fold_left
    (fun all verb =>
       match all !! ruletype rule with
       | Some d => <[ruletype rule := <[verb := rule]> d]> all
       | None => all
       end)
    (verbs rule) all_rules.

(** [all_rules] once the package is imported: the [add_rule] calls of
    [match], [filter], [modify] and [aws], in import order. *)
Definition all_rules : gmap string (gmap string RuleClass) :=
  fold_left (fun all rule => add_rule rule all)
    [ AllMatchRule; NoneMatchRule; RequestMatchRule; HeaderMatchRule;
      AllFilterRule; NoneFilterRule; RequestFilterRule; HeaderFilterRule;
      HeaderModifyRule; URLModifyRule; RequestModifyRule;
      AWSSignatureFilterRule; AWSSignModifyRule ]
    ∅.

(** The stage category [find_rule] looks a rule type up under. *)
Definition category (ruletype : string) : string :=
  let ruletype := if Str.startswith ruletype "modify_" then "modify" else ruletype in
  if Str.startswith ruletype "audit_" then "audit" else ruletype.

(** [find_rule(ruletype, verb)] *)
Definition find_rule (all : gmap string (gmap string RuleClass))
    (ruletype verb : string) : Result RuleClass :=
  match all !! category ruletype with
  | None => Raise (KeyError (category ruletype))
  | Some d =>
      match d !! verb with
      | None => Raise (KeyError verb)
      | Some c => Ok c
      end
  end.

End Rules.

(** ** goldengate/__init__.py: [RuleEngine] *)

Module Engine.
Import Webob.

Definition NUL : string := String (Str.chr 0) EmptyString.

(** The tokens of a rule line: split on spaces, a backslash-space being a
    space inside a token. *)
Definition tokens (rule : string) : list string :=
  map (fun x => Str.replace x NUL " ") (Str.split " " (Str.replace rule "\ " NUL)).

Definition has_eq (x : string) : bool := Str.contains_char "=" x.

Definition kwarg (x : string) : string * string :=
  match Str.split1 "=" x with
  | [k; v] => (k, v)
  | _ => (x, EmptyString)
  end.

Section Compile.

(** A rule object, and the call of a rule class on the arguments of a
    line, which may raise [RuleException]. *)
Variable R : Type.
Variable construct : Rules.RuleClass -> list string -> gmap string string -> Result R.

(** The body of the loop of [RuleEngine.compile] for one line. *)
Definition compile_rule (ruletype rule : string) : Result (R * list string) :=
  let rule := tokens rule in
  let args := List.filter (fun x => negb (has_eq x)) rule in
  let kwargs := Webob.params_dict (map kwarg (List.filter has_eq rule)) in
  do va <- (if String.eqb ruletype "filter"
            then match nth_error rule 1 with
                 | Some verb => Ok (verb, tl args)
                 | None => Raise (IndexError "list index out of range")
                 end
            else match nth_error rule 0 with
                 | Some verb => Ok (verb, args)
                 | None => Raise (IndexError "list index out of range")
                 end);
  do cls <- Rules.find_rule Rules.all_rules ruletype (fst va);
  do obj <- construct cls (snd va) kwargs;
  Ok (obj, rule).

(** [RuleEngine.compile]: the lines in order, stopping at the first that
    raises. *)
Fixpoint compile (ruletype : string) (ruleset : list string)
  : Result (list (R * list string)) :=
  match ruleset with
  | [] => Ok []
  | rule :: rest =>
      do c <- compile_rule ruletype rule;
      do cs <- compile ruletype rest;
      Ok (c :: cs)
  end.

End Compile.

(** A compiled match or filter rule is called on the request and answers a
    boolean; a compiled modify rule answers the object it was given. *)
Definition TestRule : Type := Request -> Result bool.
Definition RequestRule : Type := Request -> Result Request.
Definition ResponseRule : Type := Response -> Result Response.

(** [RuleEngine.test_match] *)
Fixpoint test_match (compiled : list (TestRule * list string)) (request : Request)
  : Result bool :=
  match compiled with
  | [] => Ok true
  | (rule, text) :: rest =>
      do result <- rule request;
      if negb result then Ok false else test_match rest request
  end.

(** [RuleEngine.test_filter]; [Ok None] is the [None] a Python function
    returns when it ends without a [return]. *)
Fixpoint test_filter (compiled : list (TestRule * list string)) (request : Request)
  : Result (option bool) :=
  match compiled with
  | [] => Ok None
  | (rule, text) :: rest =>
      do result <- rule request;
      match text with
      | [] => Raise (IndexError "list index out of range")
      | action :: _ =>
          if String.eqb action "reject" then Ok (Some (negb result))
          else if String.eqb action "permit" then Ok (Some result)
          else test_filter rest request
      end
  end.

(** The truth value of what [test_filter] returned. *)
Definition truthy (o : option bool) : bool :=
  match o with Some b => b | None => false end.

(** [RuleEngine.modify_request] and [RuleEngine.modify_response] *)
Fixpoint modify {A : Type} (compiled : list ((A -> Result A) * list string)) (x : A)
  : Result A :=
  match compiled with
  | [] => Ok x
  | (rule, text) :: rest => do y <- rule x; modify rest y
  end.

(** [RuleEngine.audit_request] and [RuleEngine.audit_response] *)
Fixpoint audit {A : Type} (compiled : list ((A -> Result A) * list string)) (x : A)
  : Result A :=
  match compiled with
  | [] => Ok x
  | (rule, text) :: rest => do _ <- rule x; audit rest x
  end.

End Engine.

(** ** goldengate/__init__.py: [Application] *)

Module Application.
Import Webob.
Export Engine.

(** The engines of one ruleset, by section name; [None] is a section the
    configuration document does not have, whose lookup raises [KeyError]. *)
Record Ruleset : Type := {
  rs_match : option (list (TestRule * list string));
  rs_filter : option (list (TestRule * list string));
  rs_modify_request : option (list (RequestRule * list string));
  rs_modify_response : option (list (ResponseRule * list string))
}.

Definition section {A : Type} (name : string) (o : option A) : Result A :=
  match o with
  | Some e => Ok e
  | None => Raise (KeyError name)
  end.

(** What a run does, in order: the stage methods it enters, each with the
    index of its ruleset in [self.rules], and the requests it sends
    upstream. *)
Inductive Event : Type :=
| EvMatch (i : nat)
| EvFilter (i : nat)
| EvModifyRequest (i : nat)
| EvProxy (i : nat)
| EvModifyResponse (i : nat).

(** A computation that may raise, with the events it produced. *)
Definition Traced (A : Type) : Type := list Event * Result A.

Definition tret {A : Type} (a : A) : Traced A := ([], Ok a).

Definition tbind {A B : Type} (t : Traced A) (k : A -> Traced B) : Traced B :=
  match t with
  | (es, Ok a) => let '(es', r) := k a in (es ++ es', r)
  | (es, Raise e) => (es, Raise e)
  end.

(** Enter a stage: the event, then the stage's result. *)
Definition enter {A : Type} (ev : Event) (r : Result A) : Traced A := ([ev], r).

Definition lift {A : Type} (r : Result A) : Traced A := ([], r).

(** [try: t except Exception: h] *)
Definition catch {A : Type} (t : Traced A) (h : A) : Traced A :=
  match t with
  | (es, Ok a) => (es, Ok a)
  | (es, Raise _) => (es, Ok h)
  end.

Notation "'run' x <- t ; k" := (tbind t (fun x => k))
  (at level 10, x name, t at level 100, k at level 200).

Definition Verboten : Response :=
  {| status := 403; response_headers := []; response_body := "Verboten" ++ String (Str.chr 10) "" |}.
Definition InternalServerError : Response :=
  {| status := 500; response_headers := []; response_body := "Internal Server Error" |}.
Definition NotImplemented : Response :=
  {| status := 501; response_headers := [];
     response_body := "This shouldn't happen." ++ String (Str.chr 10) "" |}.

Section Upstream.

(** [urlparse(url)]: its scheme and network location. *)
Variable urlparse : string -> string * string.
(** The exchange with the upstream server over [httplib]: scheme, network
    location, method, URL, body and headers give the response read, or the
    exception raised on the way. *)
Variable upstream :
  string -> string -> string -> string -> string -> gmap string string -> Result Response.

(** [Application.proxy_request] *)
Definition proxy_request (request : Request) : Result Response :=
  do ct <- match headers request !! header_key "Content-Type" with
           | Some v => Ok v
           | None => Raise (KeyError "Content-Type")
           end;
  let h := if String.eqb ct "" then delete (header_key "Content-Type") (headers request)
           else headers request in
  let h := <[header_key "Content-Length" :=
               NilZero.string_of_uint (Nat.to_uint (String.length (body request)))]> h in
  let h := <[header_key "Connection" := "close"]> h in
  do attrs <- match adhoc request with
              | Some attrs => Ok attrs
              | None => Raise (KeyError "webob.adhoc_attrs")
              end;
  let adhoc_url := match attrs !! "goldengate_url" with
                   | Some v => v
                   | None => Some (url request)
                   end in
  let adhoc_method := match attrs !! "goldengate_method" with
                      | Some v => v
                      | None => Some (method request)
                      end in
  do u <- match adhoc_url with
          | Some u => Ok u
          | None => Raise (AttributeError "'NoneType' object has no attribute 'find'")
          end;
  let p := urlparse u in
  if negb (String.eqb (fst p) "http" || String.eqb (fst p) "https")
  then Raise (UnboundLocalError "local variable 'conn' referenced before assignment")
  else
    do m <- match adhoc_method with
            | Some m => Ok m
            | None => Raise (TypeError "method is None")
            end;
    upstream (fst p) (snd p) m u (body request) h.

(** The [try] block of the loop of [Application.__call__] for the ruleset
    at index [i]: [None] when it ends in [continue], the response when it
    runs to its end. *)
Definition attempt (i : nat) (ruleset : Ruleset) (request : Request)
  : Traced (option Response) :=
  run m <- lift (section "match" (rs_match ruleset));
  run matched <- enter (EvMatch i) (test_match m request);
  if negb matched then tret None
  else
    run f <- lift (section "filter" (rs_filter ruleset));
    run permitted <- enter (EvFilter i) (test_filter f request);
    if negb (truthy permitted) then tret (Some Verboten)
    else
      run mr <- lift (section "modify_request" (rs_modify_request ruleset));
      run request' <- enter (EvModifyRequest i) (modify mr request);
      run response <- enter (EvProxy i) (proxy_request request');
      run ms <- lift (section "modify_response" (rs_modify_response ruleset));
      run response' <- enter (EvModifyResponse i) (modify ms response);
      tret (Some response').

(** The body of the loop: the [try] block, its [except Exception] clause,
    and the [break] that follows both ([Some] stops the loop). *)
Definition process (i : nat) (ruleset : Ruleset) (request : Request)
  : Traced (option Response) :=
  catch (attempt i ruleset request) (Some InternalServerError).

(** The loop over [self.rules], from index [i]. *)
Fixpoint loop (i : nat) (rules : list Ruleset) (request : Request)
  : Traced (option Response) :=
  match rules with
  | [] => tret None
  | ruleset :: rest =>
      run r <- process i ruleset request;
      match r with
      | Some response => tret (Some response)
      | None => loop (S i) rest request
      end
  end.

(** [Application.__call__]: the response it hands to the server. *)
Definition call (rules : list Ruleset) (request : Request) : Traced Response :=
  run r <- loop 0 rules request;
  match r with
  | Some response => tret response
  | None => tret NotImplemented
  end.

End Upstream.

End Application.

(** ** goldengate/policy.py: the time-lock policy *)

Module Policy.

(** [render_template(template, context)]: one replacement for each entry
    of [context.iteritems()], in the order in which the dict lists its
    entries; [items] is that list. *)
Definition render_template (template : string) (items : list (string * string))
  : string :=
  fold_left
    (fun template kv => Str.replace template ("{{ " ++ fst kv ++ " }}") (snd kv))
    items template.

(** A [TimeLock] row of the key-value store: its id is its key. *)
Record TimeLock : Type := {
  cancelled : bool
}.

(** Modelled from the spec: [goldengate/notifications.py] is not among the
    sources; the spec has a notification carry the recipients and the
    message, and the broker take it by [send]. *)
Record Notification : Type := {
  recipients : list string;
  message : string
}.

(** The steps of a [grant] on what it shares with the rest of the
    process. *)
Inductive Step : Type :=
| StSave (request_uuid : string) (timelock : TimeLock)
| StSend (n : Notification)
| StSleep (seconds : Q)
| StRead (request_uuid : string).

(** What a [grant] shares with the rest of the process: the time-lock
    store, what the notification broker has accepted, how many times
    [uuid.uuid4()] was called, and the steps the grant that is followed has
    taken. *)
Record World : Type := {
  store : gmap string TimeLock;
  outbox : list Notification;
  issued : nat;
  trace : list Step
}.

(** The process when it starts. *)
Definition initial : World :=
  {| store := ∅; outbox := []; issued := 0; trace := [] |}.

(** A [TimeLockPolicy]; [notification_broker] is the [send] of its broker:
    it returns, or raises. *)
Record TimeLockPolicy : Type := {
  lock_duration : Q;
  notification_broker : Notification -> Result unit;
  notification_template : string;
  notification_recipients : list string
}.

(** A computation on the world that may raise; the world it leaves is that
    of the moment it returned or raised. *)
Definition Op (A : Type) : Type := World -> Result A * World.

Definition ret {A : Type} (a : A) : Op A := fun w => (Ok a, w).

Definition raise {A : Type} (e : exn) : Op A := fun w => (Raise e, w).

Definition and_then {A B : Type} (m : Op A) (k : A -> Op B) : Op B :=
  fun w =>
    match m w with
    | (Ok a, w') => k a w'
    | (Raise e, w') => (Raise e, w')
    end.

Notation "'exec' x <- m ; k" := (and_then m (fun x => k))
  (at level 10, x name, m at level 100, k at level 200).

Definition log (s : Step) (w : World) : World :=
  {| store := store w; outbox := outbox w; issued := issued w;
     trace := trace w ++ [s] |}.

(** [TimeLockPolicy.cancel(request_uuid)] *)
Definition cancel (request_uuid : string) (w : World) : Result World :=
  match store w !! request_uuid with
  | None => Raise (Exception ("Couldn't find request with uuid '" ++ request_uuid ++ "'"))
  | Some request =>
      Ok {| store := <[request_uuid := {| cancelled := true |}]> (store w);
            outbox := outbox w; issued := issued w; trace := trace w |}
  end.

(** [timelock.save()] for a [timelock] whose id is [request_uuid] *)
Definition save (request_uuid : string) (timelock : TimeLock) : Op unit :=
  fun w =>
    (Ok tt,
     log (StSave request_uuid timelock)
       {| store := <[request_uuid := timelock]> (store w);
          outbox := outbox w; issued := issued w; trace := trace w |}).

(** [self.notification_broker.send(n)] *)
Definition send (self : TimeLockPolicy) (n : Notification) : Op unit :=
  fun w =>
    match notification_broker self n with
    | Ok _ =>
        (Ok tt,
         log (StSend n)
           {| store := store w; outbox := outbox w ++ [n]; issued := issued w;
              trace := trace w |})
    | Raise e => (Raise e, w)
    end.

(** [TimeLock.get(request_uuid)] *)
Definition get (request_uuid : string) : Op (option TimeLock) :=
  fun w => (Ok (store w !! request_uuid), log (StRead request_uuid) w).

Section Library.

(** The request type and [AuditTrail.sanitize(json.dumps(request.to_dict(),
    indent=4))]. *)
Variable Request : Type.
Variable request_information : Request -> string.
(** [time.strftime('%a, %d %b %Y %H:%M:%S +0000', time.gmtime(t))] *)
Variable rfc1123 : Q -> string.
(** [str(d / 60.0)] *)
Variable minutes : Q -> string.
(** [uuid.uuid4().get_hex()]: what the call answers that [n] calls came
    before. *)
Variable uuid4 : nat -> string.
(** The entries of the dict that a display with these entries builds, in
    the order in which the dict lists them. *)
Variable iteritems : list (string * string) -> list (string * string).

Definition uuid4_get_hex : Op string :=
  fun w =>
    (Ok (uuid4 (issued w)),
     {| store := store w; outbox := outbox w; issued := S (issued w);
        trace := trace w |}).

(** What the other threads of the process do to the world: cancel a
    time-lock (the side channel); begin a grant of their own, which draws a
    UUID and saves a time-lock under it; have the broker accept the
    notification of a grant of their own. *)
Inductive Action : Type :=
| Cancel (request_uuid : string)
| Save
| Send (n : Notification).

(** One action of another thread; a [cancel] that raises does so in its
    own thread and leaves the world as it was. *)
Definition act (w : World) (a : Action) : World :=
  match a with
  | Cancel id => match cancel id w with Ok w' => w' | Raise _ => w end
  | Save =>
      {| store := <[uuid4 (issued w) := {| cancelled := false |}]> (store w);
         outbox := outbox w; issued := S (issued w); trace := trace w |}
  | Send n =>
      {| store := store w; outbox := outbox w ++ [n]; issued := issued w;
         trace := trace w |}
  end.

(** The other threads run. *)
Definition others (actions : list Action) : Op unit :=
  fun w => (Ok tt, fold_left act actions w).

(** [time.sleep(seconds)], the other threads running meanwhile; a negative
    length raises [IOError]. *)
Definition sleep (seconds : Q) (meanwhile : list Action) : Op unit :=
  fun w =>
    if Qltb seconds 0 then (Raise (IOError "[Errno 22] Invalid argument"), w)
    else (Ok tt, fold_left act meanwhile (log (StSleep seconds) w)).

(** What the other threads do between the steps of a grant. *)
Record Schedule : Type := {
  before_save : list Action;
  before_send : list Action;
  asleep : list Action;
  before_read : list Action
}.

(** The dict [grant] renders the template with. *)
Definition context (self : TimeLockPolicy) (now : Q) (request : Request)
    (request_uuid : string) : list (string * string) :=
  iteritems
    [ ("request_information", request_information request);
      ("request_execution_time", rfc1123 (now + lock_duration self));
      ("time_lock_duration", minutes (lock_duration self));
      ("request_uuid", request_uuid) ].

(** [TimeLockPolicy.grant(entity, request)]; [now] is what [time.time()]
    answers and [schedule] what the other threads do between the steps. *)
Definition grant (self : TimeLockPolicy) (schedule : Schedule) (now : Q)
    (entity : string) (request : Request) : Op bool :=
  exec request_uuid <- uuid4_get_hex;
  exec _ <- others (before_save schedule);
  exec _ <- save request_uuid {| cancelled := false |};
  let message :=
    render_template (notification_template self)
                    (context self now request request_uuid) in
  exec _ <- others (before_send schedule);
  exec _ <- send self {| recipients := notification_recipients self;
                         message := message |};
  exec _ <- sleep (lock_duration self) (asleep schedule);
  exec _ <- others (before_read schedule);
  exec timelock <- get request_uuid;
  match timelock with
  | Some t => ret (negb (cancelled t))
  | None => raise (AttributeError "'NoneType' object has no attribute 'cancelled'")
  end.

End Library.

End Policy.

(** ** goldengate/util.py *)

Module Util.

Definition RANDOM_TOKEN_STRING_LENGTH : Z := 16.

Definition RANDOM_TOKEN_ALPHABET : string :=
  ("abcdefghjklmnpqrstuvwxyz" ++ "ABCDEFGHJKLMNPQRSTUVWXYZ23456789")%string.

(** [random.choice(seq)], that is [seq[int(random() * len(seq))]], [u]
    being what [random()] answers: a number from 0 up to, not including,
    1. *)
Definition choice (seq : string) (u : Q) : Result ascii :=
  match String.get (Z.to_nat (Qfloor (u * inject_Z (Z.of_nat (String.length seq))))) seq with
  | Some c => Ok c
  | None => Raise (IndexError "string index out of range")
  end.

(** [''.join(random.choice(alphabet) for _ in xrange(n))]; [draw i] is
    what the [i]-th call of [random()] from now answers. *)
Fixpoint random_chars (n : nat) (alphabet : string) (draw : nat -> Q) : Result string :=
  match n with
  | O => Ok EmptyString
  | S k =>
      do c <- choice alphabet (draw O);
      do rest <- random_chars k alphabet (fun i => draw (S i));
      Ok (String c rest)
  end.

(** [random_token(length, alphabet)]; [xrange] of a negative length is
    empty. *)
Definition random_token (length : Z) (alphabet : string) (draw : nat -> Q)
  : Result string :=
  random_chars (Z.to_nat length) alphabet draw.

(** [generate_credentials()]: what it has written to the standard output
    when it ends, and how it ends.  [print 'key:', x] writes [key:] before
    it evaluates [x]. *)
Definition generate_credentials (draw : nat -> Q) : string * Result unit :=
  let LF := String (Str.chr 10) EmptyString in
  match random_token RANDOM_TOKEN_STRING_LENGTH RANDOM_TOKEN_ALPHABET draw with
  | Raise e => ("key:", Raise e)
  | Ok key =>
      match random_token 32 RANDOM_TOKEN_ALPHABET (fun i => draw (16 + i)%nat) with
      | Raise e => (("key: " ++ key ++ LF ++ "secret:")%string, Raise e)
      | Ok secret =>
          (("key: " ++ key ++ LF ++ "secret: " ++ secret ++ LF)%string, Ok tt)
      end
  end.

End Util.

(** ** goldengate/policy.py: matchers and policies *)

Module Matchers.

(** The requests the policies see: an [http.Request], or an [aws.Request],
    the subclass that has the property [aws_action]. *)
Inductive AnyRequest : Type :=
| HttpRequest (r : AuthAws.Request)
| AwsRequest (r : AuthAws.Request).

(** [aws.Request.aws_action] ([goldengate/auth/aws.py]) *)
Definition aws_action (r : AuthAws.Request) : Result string :=
  match AuthAws.parameters (AuthAws.url r) !! "Action" with
  | Some a => Ok a
  | None => Raise (KeyError "Action")
  end.

Local Unset Elimination Schemes.
Inductive Matcher : Type :=
| AllMatcher (matchers : list Matcher)
| AnyMatcher (matchers : list Matcher)
| NotMatcher (matcher : Matcher)
| EntityMatcher (entities : list string)
| AWSActionMatcher (action : string)
| AlwaysMatcher.
Local Set Elimination Schemes.

(** [matcher.matches(entity, request)].  [getattr(request, 'aws_action',
    None)] gives [None] for a request that has no such attribute, and lets
    through the [KeyError] of the property of one that has. *)
Fixpoint matches (self : Matcher) (entity : string) (request : AnyRequest)
  : Result bool :=
  match self with
  | AllMatcher matchers =>
      (fix all (l : list Matcher) : Result bool :=
         match l with
         | [] => Ok true
         | matcher :: rest =>
             do b <- matches matcher entity request;
             if negb b then Ok false else all rest
         end) matchers
  | AnyMatcher matchers =>
      (fix any (l : list Matcher) : Result bool :=
         match l with
         | [] => Ok false
         | matcher :: rest =>
             do b <- matches matcher entity request;
             if b then Ok true else any rest
         end) matchers
  | NotMatcher matcher =>
      do b <- matches matcher entity request; Ok (negb b)
  | EntityMatcher entities => Ok (existsb (String.eqb entity) entities)
  | AWSActionMatcher action =>
      match request with
      | HttpRequest _ => Ok false
      | AwsRequest r => do a <- aws_action r; Ok (String.eqb a action)
      end
  | AlwaysMatcher => Ok true
  end.

(** The policies: a [BooleanPolicy] ([AllowPolicy] and [DenyPolicy] are
    the two values of [allow]) and a [TimeLockPolicy], each a
    [MatcherPolicy] with its matcher. *)
Inductive PolicyObj : Type :=
| BooleanPolicy (allow : bool) (matcher : Matcher)
| TimeLocked (matcher : Matcher) (policy : Policy.TimeLockPolicy).

Definition AllowPolicy (matcher : Matcher) : PolicyObj := BooleanPolicy true matcher.
Definition DenyPolicy (matcher : Matcher) : PolicyObj := BooleanPolicy false matcher.

Definition matcher (p : PolicyObj) : Matcher :=
  match p with
  | BooleanPolicy _ m => m
  | TimeLocked m _ => m
  end.

(** [MatcherPolicy.applies_to] *)
Definition applies_to (p : PolicyObj) (entity : string) (request : AnyRequest)
  : Result bool :=
  matches (matcher p) entity request.

(** How [Policy.for_request] ends: with the policy it returns, with
    [MissingPolicyException], or with the exception a matcher raised. *)
Inductive Selection : Type :=
| Selected (p : PolicyObj)
| MissingPolicyException
| MatcherRaised (e : exn).

Fixpoint first_applicable (entity : string) (request : AnyRequest)
    (policies : list PolicyObj) : Selection :=
  match policies with
  | [] => MissingPolicyException
  | policy :: rest =>
      match applies_to policy entity request with
      | Ok true => Selected policy
      | Ok false => first_applicable entity request rest
      | Raise e => MatcherRaised e
      end
  end.

(** [Policy.for_request(entity, request, policies)]; [settings_policies]
    is [settings.policies], used when [policies] is [None]. *)
Definition for_request (settings_policies : list PolicyObj) (entity : string)
    (request : AnyRequest) (policies : option (list PolicyObj)) : Selection :=
  first_applicable entity request
    (match policies with Some l => l | None => settings_policies end).

(** The third argument of [action]: [True], [False], or a callable that
    takes the matcher and the keyword arguments. *)
Inductive Allow : Type :=
| AllowTrue
| AllowFalse
| AllowWith (make : Matcher -> list (string * string) -> Result PolicyObj).

(** [action(action, allow, entities, **kwargs)]; [AllowPolicy] and
    [DenyPolicy] take no keyword argument. *)
Definition action (action : string) (allow : Allow) (entities : option (list string))
    (kwargs : list (string * string)) : Result PolicyObj :=
  let matcher := AWSActionMatcher action in
  let matcher := match entities with
                 | Some es => AllMatcher [EntityMatcher es; matcher]
                 | None => matcher
                 end in
  match allow with
  | AllowTrue =>
      match kwargs with
      | [] => Ok (AllowPolicy matcher)
      | (k, _) :: _ =>
          Raise (TypeError
                   ("__init__() got an unexpected keyword argument '" ++ k ++ "'")%string)
      end
  | AllowFalse =>
      match kwargs with
      | [] => Ok (DenyPolicy matcher)
      | (k, _) :: _ =>
          Raise (TypeError
                   ("__init__() got an unexpected keyword argument '" ++ k ++ "'")%string)
      end
  | AllowWith make => make matcher kwargs
  end.

(** [allow()] and [deny()] *)
Definition allow : PolicyObj := AllowPolicy AlwaysMatcher.
Definition deny : PolicyObj := DenyPolicy AlwaysMatcher.

(** [BooleanPolicy.grant] *)
Definition boolean_grant (allow : bool) (entity : string) (request : AnyRequest) : bool :=
  allow.

End Matchers.

(** ** goldengate/rules/match.py *)

Module RulesMatch.
Import Webob.

(** A double quote, for the messages that have one. *)
Definition DQ : string := String (Str.chr 34) EmptyString.

(** A [RequestMatchRule] (or [RequestFilterRule]) once constructed. *)
Record RequestMatchRule : Type := {
  verb : string;
  matchtype : string;
  params : list string
}.

(** A [HeaderMatchRule] (or [HeaderFilterRule]) once constructed. *)
Record HeaderMatchRule : Type := {
  h_verb : string;
  h_key : string;
  h_matchtype : string;
  h_params : list string
}.

(** The [match_] methods of the class: what [hasattr(self, 'match_' +
    matchtype)] finds. *)
Definition match_types : list string := ["regex"; "subnet"; "is"; "in"].

(** [RequestMatchRule.__init__] on its positional arguments; [verbs] is the class attribute of
    the class constructed. *)
Definition request_match_init (verbs : list string) (args : list string)
  : Result RequestMatchRule :=
  match args with
  | verb :: matchtype :: p :: ps =>
      if negb (existsb (String.eqb verb) verbs)
      then Raise (RuleException ("Unknown verb: " ++ verb))
      else if negb (existsb (String.eqb matchtype) match_types)
      then Raise (RuleException ("Unknown match type: " ++ matchtype))
      else Ok {| verb := verb; matchtype := matchtype; params := p :: ps |}
  | _ =>
      Raise (RuleException
               ("RequestMatchRule requires at least a " ++ DQ ++ "verb" ++ DQ ++ " "
                ++ DQ ++ "type" ++ DQ ++ " and " ++ DQ ++ "match" ++ DQ))
  end.

(** [HeaderMatchRule.__init__] on its positional arguments *)
Definition header_match_init (verbs : list string) (args : list string)
  : Result HeaderMatchRule :=
  match args with
  | verb :: key :: matchtype :: ps =>
      if negb (existsb (String.eqb verb) verbs)
      then Raise (RuleException ("Unknown verb: " ++ verb))
      else if negb (existsb (String.eqb matchtype) match_types)
      then Raise (RuleException ("Unknown match type: " ++ matchtype))
      else Ok {| h_verb := verb; h_key := key; h_matchtype := matchtype;
                 h_params := ps |}
  | _ =>
      Raise (RuleException
               ("HeaderMatchRule requires at least a " ++ DQ ++ "key" ++ DQ ++ ", "
                ++ DQ ++ "type" ++ DQ ++ ", and " ++ DQ ++ "value" ++ DQ))
  end.

Section Library.

(** [re.match(pattern, value)], as the truth value of its result or the
    exception it raises (on a malformed pattern, on a value that is
    [None]). *)
Variable re_match : string -> option string -> Result bool.
(** [IPy.IP(x)] and [a in b] on its values. *)
Variable ip : Type.
Variable IP : option string -> Result ip.
Variable ip_in : ip -> ip -> bool.
(** The attributes of a WebOb request other than [method], [url] and
    [path]; [None] is Python's [None]. *)
Variable attribute : Request -> string -> option string.

(** [getattr(request, verb)] for a verb of [RequestMatchRule.verbs]. *)
Definition request_attribute (request : Request) (verb : string) : option string :=
  if String.eqb verb "method" then Some (method request)
  else if String.eqb verb "url" then Some (url request)
  else if String.eqb verb "path" then Some (path request)
  else attribute request verb.

(** The loop of [match_regex]: as many rounds as there are parameters,
    each of them a match against [self.params[0]]. *)
Fixpoint regex_loop (params remaining : list string) (value : option string)
  : Result bool :=
  match remaining with
  | [] => Ok false
  | pattern :: rest =>
      do first <- match params with
                  | p :: _ => Ok p
                  | [] => Raise (IndexError "tuple index out of range")
                  end;
      do found <- re_match first value;
      if found then Ok true else regex_loop params rest value
  end.

Definition match_regex (params : list string) (value : option string) : Result bool :=
  regex_loop params params value.

Fixpoint subnet_loop (value : ip) (remaining : list string) : Result bool :=
  match remaining with
  | [] => Ok false
  | subnet :: rest =>
      do net <- IP (Some subnet);
      if ip_in value net then Ok true else subnet_loop value rest
  end.

Definition match_subnet (params : list string) (value : option string) : Result bool :=
  do v <- IP value; subnet_loop v params.

Definition match_is (params : list string) (value : option string) : Result bool :=
  match params with
  | p :: _ => Ok (match value with Some v => String.eqb v p | None => false end)
  | [] => Raise (IndexError "tuple index out of range")
  end.

Definition match_in (params : list string) (value : option string) : Result bool :=
  Ok (match value with Some v => existsb (String.eqb v) params | None => false end).

(** [self.matchfunc], the method [__init__] looked up under ['match_' +
    matchtype]. *)
Definition matchfunc (matchtype : string) (params : list string)
    (value : option string) : Result bool :=
  if String.eqb matchtype "regex" then match_regex params value
  else if String.eqb matchtype "subnet" then match_subnet params value
  else if String.eqb matchtype "is" then match_is params value
  else if String.eqb matchtype "in" then match_in params value
  else Raise (AttributeError ("match_" ++ matchtype)).

(** [RequestMatchRule.__call__] *)
Definition request_match (self : RequestMatchRule) (request : Request) : Result bool :=
  matchfunc (matchtype self) (params self) (request_attribute request (verb self)).

(** [HeaderMatchRule.__call__] *)
Definition header_match (self : HeaderMatchRule) (request : Request) : Result bool :=
  match headers request !! header_key (h_key self) with
  | None => Ok false
  | Some value =>
      if String.eqb value "" then Ok false
      else matchfunc (h_matchtype self) (h_params self) (Some value)
  end.

End Library.

End RulesMatch.

(** ** goldengate/rules/modify.py: the constructors, [RequestModifyRule]
    and [HeaderModifyRule] *)

Module ModifyRules.
Import Webob.

Definition DQ : string := RulesMatch.DQ.

Definition only_set (action : string) : exn :=
  RuleException ("Request verbs can only be " ++ DQ ++ "set" ++ DQ ++ ", not "
                 ++ DQ ++ action ++ DQ).

(** [URLModifyRule.__init__] on its positional arguments *)
Definition url_modify_init (args : list string) : Result RulesModify.URLModifyRule :=
  match args with
  | verb :: action :: rest =>
      if negb (String.eqb action "set") then Raise (only_set action)
      else Ok {| RulesModify.verb := verb;
                 RulesModify.value := match rest with
                                      | v :: _ => Some v
                                      | [] => None
                                      end |}
  | _ =>
      Raise (RuleException ("URLModifyRule requires " ++ DQ ++ "verb" ++ DQ ++ " and "
                            ++ DQ ++ "action" ++ DQ))
  end.

Record RequestModifyRule : Type := {
  rm_verb : string;
  rm_value : string
}.

(** [RequestModifyRule.__init__] on its positional arguments *)
Definition request_modify_init (args : list string) : Result RequestModifyRule :=
  match args with
  | verb :: action :: rest =>
      if negb (String.eqb action "set") then Raise (only_set action)
      else Ok {| rm_verb := verb; rm_value := Str.join " " rest |}
  | _ =>
      Raise (RuleException ("RequestModifyRule requires " ++ DQ ++ "verb" ++ DQ
                            ++ " and " ++ DQ ++ "action" ++ DQ))
  end.

Record HeaderModifyRule : Type := {
  action : string;
  key : string;
  value : string
}.

(** The [header_] methods of the class. *)
Definition header_actions : list string := ["set"; "remove"].

(** [HeaderModifyRule.__init__] on its positional arguments *)
Definition header_modify_init (args : list string) : Result HeaderModifyRule :=
  match args with
  | verb :: action :: key :: rest =>
      if negb (existsb (String.eqb action) header_actions)
      then Raise (RuleException ("Unknown header action: " ++ action))
      else Ok {| action := action; key := key; value := Str.join " " rest |}
  | _ =>
      Raise (RuleException ("HeaderModifyRule requires " ++ DQ ++ "action" ++ DQ
                            ++ " and " ++ DQ ++ "key" ++ DQ))
  end.

(** The characters of [[a-z_]]. *)
Definition is_name_char (c : ascii) : bool := Str.is_lower c || Ascii.eqb c "_".

(** The longest prefix made of such characters. *)
Fixpoint name_prefix (s : string) : string :=
  match s with
  | EmptyString => EmptyString
  | String c r => if is_name_char c then String c (name_prefix r) else EmptyString
  end.

(** [re.finditer('\$([a-z_]+)', s)]: for each match its [span(0)] and its
    [group(0)], the dollar sign included; [pos] is where [s] starts in the
    string searched.  A match is a dollar sign followed by one name
    character or more, as many as there are; the search resumes after the
    match, and since no name character is a dollar sign, resuming after the
    dollar sign finds the same matches. *)
Fixpoint finditer (pos : nat) (s : string) : list (nat * nat * string) :=
  match s with
  | EmptyString => []
  | String c r =>
      if Ascii.eqb c "$" && negb (String.eqb (name_prefix r) "")
      then (pos, pos + 1 + String.length (name_prefix r), String c (name_prefix r))
             :: finditer (S pos) r
      else finditer (S pos) r
  end.

(** [s[:n]] for an integer [n] of either sign. *)
Definition slice_to (n : Z) (s : string) : string :=
  if (n <? 0)%Z then Str.take (String.length s - Z.to_nat (- n)) s
  else Str.take (Z.to_nat n) s.

Section Environ.

(** [request.environ.get(key, None)] for a value that is a string. *)
Variable environ_get : Request -> string -> option string.
(** [request.__setattr__(verb, value)] for an attribute WebOb knows
    ([content_type], [charset], [host], [body], [cache_control]): the work
    of WebOb's property. *)
Variable webob_setattr : string -> string -> Request -> Result Request.

(** [RequestModifyRule.__call__] *)
Definition request_modify (self : RequestModifyRule) (request : Request)
  : Result Request :=
  webob_setattr (rm_verb self) (rm_value self) request.

(** The two lookups of [template_value] for one key: the request's
    attribute, and the environment when there is none or it is [None]. *)
Definition template_lookup (request : Request) (key : string) : option string :=
  match getattr request key with
  | Some (Some v) => Some v
  | Some None | None => environ_get request key
  end.

(** The loop of [template_value] over the matches. *)
Fixpoint template_loop (matches : list (nat * nat * string)) (request : Request)
    (value : string) : Result string :=
  match matches with
  | [] => Ok value
  | (start, end_, key) :: rest =>
      match template_lookup request key with
      | None =>
          Raise (RuleException ("Unable to replace template variable " ++ key
                                ++ ": unknown request attribute."))
      | Some replace =>
          template_loop rest request
            (slice_to (Z.of_nat start - 1) value ++ replace ++ Str.drop end_ value)
      end
  end.

(** [HeaderModifyRule.template_value] *)
Definition template_value (self : HeaderModifyRule) (request : Request)
  : Result string :=
  template_loop (finditer 0 (value self)) request (value self).

(** [HeaderModifyRule.header_set] *)
Definition header_set (self : HeaderModifyRule) (request : Request) (value : string)
  : Result Request :=
  Ok (set_headers (<[header_key (key self) := value]> (headers request)) request).

(** [HeaderModifyRule.header_remove]: [del] raises [KeyError] on a header
    the request does not have. *)
Definition header_remove (self : HeaderModifyRule) (request : Request) (value : string)
  : Result Request :=
  match headers request !! header_key (key self) with
  | None => Raise (KeyError (header_key (key self)))
  | Some _ => Ok (set_headers (delete (header_key (key self)) (headers request)) request)
  end.

(** [HeaderModifyRule.__call__] *)
Definition header_modify (self : HeaderModifyRule) (request : Request)
  : Result Request :=
  do value <- template_value self request;
  if String.eqb (action self) "set" then header_set self request value
  else if String.eqb (action self) "remove" then header_remove self request value
  else Raise (AttributeError ("header_" ++ action self)).

End Environ.

End ModifyRules.

(** ** Python: calling a function on [*args, **kwargs], and [int] *)

Module PyCall.

(** The binding of the parameters [names] (after [self]) of a function
    called with the positional arguments [args] and the keyword arguments
    [kwargs]: the parameters that received a value.  The call raises
    [TypeError] when there are more positional arguments than parameters,
    when a keyword is not a parameter, and when a keyword names a parameter
    that a positional argument filled; which of these is reported when
    several hold is not modelled.  A parameter left without a value takes
    its default, or makes the call raise [TypeError], where it is read. *)
Definition bind_arguments (names args : list string) (kwargs : gmap string string)
  : Result (gmap string string) :=
  let keys := map fst (map_to_list kwargs) in
  if (length names <? length args)%nat
  then Raise (TypeError "__init__() takes fewer arguments than were given")
  else
    match find (fun k => negb (existsb (String.eqb k) names)) keys with
    | Some k =>
        Raise (TypeError ("__init__() got an unexpected keyword argument '" ++ k ++ "'"))
    | None =>
        match find (fun k => existsb (String.eqb k) (firstn (length args) names)) keys with
        | Some k =>
            Raise (TypeError
                     ("__init__() got multiple values for keyword argument '" ++ k ++ "'"))
        | None => Ok (kwargs ∪ list_to_map (zip names args))
        end
    end.

(** The white space [int] and [str.strip] skip. *)
Definition is_space (c : ascii) : bool :=
  (Str.ord c =? 32)%nat || ((9 <=? Str.ord c)%nat && (Str.ord c <=? 13)%nat).

Fixpoint lstrip (s : string) : string :=
  match s with
  | EmptyString => EmptyString
  | String c r => if is_space c then lstrip r else s
  end.

Definition strip (s : string) : string := String.rev (lstrip (String.rev (lstrip s))).

Fixpoint digits (acc : Z) (s : string) : option Z :=
  match s with
  | EmptyString => Some acc
  | String c r =>
      if Str.is_digit c then digits (acc * 10 + Z.of_nat (Str.ord c - 48)) r else None
  end.

(** [int(x)] for a [str]: white space around, an optional sign, and one
    decimal digit or more. *)
Definition int (x : string) : Result Z :=
  let invalid :=
    Raise (ValueError ("invalid literal for int() with base 10: '" ++ x ++ "'")) in
  let t := strip x in
  let '(negative, body) :=
    match t with
    | String c r =>
        if Ascii.eqb c "-" then (true, r)
        else if Ascii.eqb c "+" then (false, r)
        else (false, t)
    | EmptyString => (false, t)
    end in
  if String.eqb body "" then invalid
  else match digits 0 body with
       | Some n => Ok (if negative then (- n)%Z else n)
       | None => invalid
       end.

End PyCall.

(** ** goldengate/rules/aws.py: the constructors of the two rules *)

Module AwsInit.
Import RulesAws.

Section Files.

(** [list(yaml.load_all(open(filename, 'r')))] on a credentials file: its
    documents, each with its [key] and its [secret], or the text of the
    exception raised on the way. *)
Variable load_all : string -> string + list (string * string).

(** [AWSSignatureFilterRule.__init__(verb, creds, max_signature_age=300)] *)
Definition aws_signature_init (args : list string) (kwargs : gmap string string)
  : Result AWSSignatureFilterRule :=
  do bound <- PyCall.bind_arguments ["verb"; "creds"; "max_signature_age"] args kwargs;
  match bound !! "verb", bound !! "creds" with
  | Some verb, Some filename =>
      do age <- match bound !! "max_signature_age" with
                | Some x => PyCall.int x
                | None => Ok 300%Z
                end;
      match load_all filename with
      | inl err =>
          Raise (RuleException
                   ("Unable to load AWS credentials from " ++ filename ++ ": " ++ err))
      | inr docs => Ok {| max_signature_age := age; creds := docs |}
      end
  | _, _ => Raise (TypeError "__init__() takes at least 3 arguments")
  end.

Definition both_required : exn :=
  RuleException
    ("Both " ++ RulesMatch.DQ ++ "creds" ++ RulesMatch.DQ ++ " and " ++ RulesMatch.DQ
     ++ "key" ++ RulesMatch.DQ ++ " are required arguments for aws_sign").

(** [AWSSignModifyRule.__init__(verb, creds=None, key=None,
    signature_method='HmacSHA256', signature_version='2')] *)
Definition aws_sign_init (args : list string) (kwargs : gmap string string)
  : Result AWSSignModifyRule :=
  do bound <- PyCall.bind_arguments
                ["verb"; "creds"; "key"; "signature_method"; "signature_version"]
                args kwargs;
  match bound !! "verb" with
  | None => Raise (TypeError "__init__() takes at least 2 arguments")
  | Some verb =>
      let method := default "HmacSHA256" (bound !! "signature_method") in
      let version := default "2" (bound !! "signature_version") in
      match bound !! "creds", bound !! "key" with
      | Some filename, Some k =>
          if String.eqb filename "" || String.eqb k "" then Raise both_required
          else
            match load_all filename with
            | inl err =>
                Raise (RuleException
                         ("Unable to load signing credentials from " ++ filename
                          ++ ": " ++ err))
            | inr docs =>
                match List.filter (fun x => String.eqb (fst x) k) docs with
                | [] => Raise (RuleException
                                 ("Key " ++ k ++ " is missing from " ++ filename))
                | cred :: _ =>
                    do signer <- get_signature_method method version;
                    Ok {| signature_method := method; signature_version := version;
                          key := fst cred; secret := snd cred; signer := signer |}
                end
            end
      | _, _ => Raise both_required
      end
  end.

End Files.

End AwsInit.

(** ** The rule objects of a configuration: constructing and calling them *)

Module Construct.
Import Webob.

(** An instance of a match or filter class. *)
Inductive TestObj : Type :=
| All
| None_
| RequestMatch (rule : RulesMatch.RequestMatchRule)
| HeaderMatch (rule : RulesMatch.HeaderMatchRule)
| AWSSignatureFilter (rule : RulesAws.AWSSignatureFilterRule).

(** An instance of a modify class. *)
Inductive ModifyObj : Type :=
| HeaderModify (rule : ModifyRules.HeaderModifyRule)
| URLModify (rule : RulesModify.URLModifyRule)
| RequestModify (rule : ModifyRules.RequestModifyRule)
| AWSSign (rule : RulesAws.AWSSignModifyRule).

Inductive RuleObj : Type :=
| Test (rule : TestObj)
| Modifier (rule : ModifyObj).

Section Library.

Variable load_all : string -> string + list (string * string).

(** The call of the class on [*args, **kwargs] in [RuleEngine.compile].  The classes
    whose [__init__] takes [*args, **kwargs] ignore the keyword
    arguments; [AllMatchRule] and [NoneMatchRule] inherit [Rule.__init__],
    which keeps what it is given. *)
Definition construct (cls : Rules.RuleClass) (args : list string)
    (kwargs : gmap string string) : Result RuleObj :=
  match cls with
  | Rules.AllMatchRule | Rules.AllFilterRule => Ok (Test All)
  | Rules.NoneMatchRule | Rules.NoneFilterRule => Ok (Test None_)
  | Rules.RequestMatchRule | Rules.RequestFilterRule =>
      do rule <- RulesMatch.request_match_init (Rules.verbs cls) args;
      Ok (Test (RequestMatch rule))
  | Rules.HeaderMatchRule | Rules.HeaderFilterRule =>
      do rule <- RulesMatch.header_match_init (Rules.verbs cls) args;
      Ok (Test (HeaderMatch rule))
  | Rules.AWSSignatureFilterRule =>
      do rule <- AwsInit.aws_signature_init load_all args kwargs;
      Ok (Test (AWSSignatureFilter rule))
  | Rules.HeaderModifyRule =>
      do rule <- ModifyRules.header_modify_init args; Ok (Modifier (HeaderModify rule))
  | Rules.URLModifyRule =>
      do rule <- ModifyRules.url_modify_init args; Ok (Modifier (URLModify rule))
  | Rules.RequestModifyRule =>
      do rule <- ModifyRules.request_modify_init args; Ok (Modifier (RequestModify rule))
  | Rules.AWSSignModifyRule =>
      do rule <- AwsInit.aws_sign_init load_all args kwargs;
      Ok (Modifier (AWSSign rule))
  end.

(** [RuleEngine(ruletype, ruleset)]: a ruleset that is [None] (a section
    without lines) is the empty list. *)
Definition engine (ruletype : string) (ruleset : option (list string))
  : Result (list (RuleObj * list string)) :=
  Engine.compile RuleObj construct ruletype
    (match ruleset with Some lines => lines | None => [] end).

End Library.

End Construct.

(** ** Sample inputs for the examples *)

Module Samples.

(** The request of [tests.py]: [GET http://goldengate.example.com/foo/bar]
    sent by curl. *)
Definition request : Webob.Request :=
  {| Webob.method := "GET";
     Webob.url := "http://goldengate.example.com/foo/bar";
     Webob.path := "/foo/bar";
     Webob.headers :=
       <[Webob.header_key "Host" := "goldengate.example.com"]>
       (<[Webob.header_key "User-Agent" := "curl/7.19.7"]>
       (<[Webob.header_key "Accept" := "*/*"]>
       (<[Webob.header_key "Content-Type" := ""]> ∅)));
     Webob.params := [];
     Webob.content_type := "";
     Webob.body := "";
     Webob.adhoc := None |}.

(** [AllMatchRule.__call__] and [NoneMatchRule.__call__] (and the filter
    classes that extend them). *)
Definition all_rule : Engine.TestRule := fun _ => Ok true.
Definition none_rule : Engine.TestRule := fun _ => Ok false.

(** A rule that raises when called, as [remote_addr subnet] does on a
    parameter that is no address, or [regex] on a malformed pattern. *)
Definition raising_rule : Engine.TestRule :=
  fun _ => Raise (ValueError "invalid parameter").

(** An upstream that answers 200 to every request. *)
Definition urlparse (u : string) : string * string :=
  match Str.split1 ":" u with
  | [scheme; rest] => (scheme, rest)
  | _ => (EmptyString, u)
  end.

Definition ok_response : Webob.Response :=
  {| Webob.status := 200; Webob.response_headers := [];
     Webob.response_body := "ok" |}.

Definition upstream (scheme netloc method url body : string)
    (headers : gmap string string) : Result Webob.Response :=
  Ok ok_response.

(** Rulesets: one whose match stage declines, one whose match stage
    raises, one whose filter stage denies, one that lets the request
    through unchanged. *)
Definition declining : Application.Ruleset :=
  {| Application.rs_match := Some [(none_rule, ["none"])];
     Application.rs_filter := Some [(all_rule, ["permit"; "all"])];
     Application.rs_modify_request := Some [];
     Application.rs_modify_response := Some [] |}.

Definition raising : Application.Ruleset :=
  {| Application.rs_match :=
       Some [(raising_rule, ["remote_addr"; "subnet"; "nowhere"])];
     Application.rs_filter := Some [(all_rule, ["permit"; "all"])];
     Application.rs_modify_request := Some [];
     Application.rs_modify_response := Some [] |}.

Definition denying : Application.Ruleset :=
  {| Application.rs_match := Some [(all_rule, ["all"])];
     Application.rs_filter := Some [(all_rule, ["reject"; "all"])];
     Application.rs_modify_request := Some [];
     Application.rs_modify_response := Some [] |}.

Definition to_upstream : RulesModify.URLModifyRule :=
  {| RulesModify.verb := "url";
     RulesModify.value := Some "http://upstream.example.com/foo/bar" |}.

Definition permitting : Application.Ruleset :=
  {| Application.rs_match := Some [(all_rule, ["all"])];
     Application.rs_filter := Some [(all_rule, ["permit"; "all"])];
     Application.rs_modify_request :=
       Some [(RulesModify.url_modify to_upstream,
              ["url"; "set"; "http://upstream.example.com/foo/bar"])];
     Application.rs_modify_response := Some [] |}.

(** A two-second time-lock whose broker accepts every notification, and
    the library functions it formats its notification with. *)
Definition policy : Policy.TimeLockPolicy :=
  {| Policy.lock_duration := 2;
     Policy.notification_broker := fun _ => Ok tt;
     Policy.notification_template :=
       "Request {{ request_uuid }} runs at {{ request_execution_time }}.";
     Policy.notification_recipients := ["ops@example.com"] |}.

(** A generator of UUIDs that never repeats itself, and a dict that lists
    its entries from the last to the first. *)
Fixpoint uuid4 (n : nat) : string :=
  match n with
  | O => "0"
  | S n => String "f" (uuid4 n)
  end.

Definition iteritems (d : list (string * string)) : list (string * string) := rev d.

(** Other threads cancel the grant's UUID before the time-lock is saved,
    begin a grant of their own, and cancel again during the sleep. *)
Definition schedule : Policy.Schedule :=
  {| Policy.before_save := [Policy.Cancel "f0"];
     Policy.before_send := [Policy.Save];
     Policy.asleep := [Policy.Cancel "f0"];
     Policy.before_read := [] |}.

(** The sample request with a query string that carries a timestamp. *)
Definition stamped (params : list (string * string)) : Webob.Request :=
  {| Webob.method := "GET";
     Webob.url := "http://goldengate.example.com/?Action=ListUsers";
     Webob.path := "/";
     Webob.headers := Webob.headers request;
     Webob.params := params;
     Webob.content_type := "";
     Webob.body := "";
     Webob.adhoc := None |}.

(** The request of the specification's canonicalization scenario, sent to
    port 80 and already signed. *)
Definition iam_request : AuthAws.Request :=
  {| AuthAws.method := "GET";
     AuthAws.url :=
       {| AuthAws.scheme := "http";
          AuthAws.host := "IAM.amazonaws.com:80";
          AuthAws.path := "";
          AuthAws.parameters :=
            <["Action" := "ListUsers"]>
            (<["Version" := "2010-05-08"]>
            (<["AWSAccessKeyId" := "AKID"]>
            (<["SignatureMethod" := "HmacSHA256"]>
            (<["SignatureVersion" := "2"]>
            (<["Timestamp" := "2011-01-01T00:00:00"]>
            (<["Signature" := "c2lnbmF0dXJl"]> ∅)))))) |} |}.

(** The same request as the dict the rules sign. *)
Definition iam_dict : RulesAws.SignRequest :=
  {| RulesAws.sr_params :=
       [("Action", "ListUsers"); ("Version", "2010-05-08"); ("AWSAccessKeyId", "AKID")];
     RulesAws.sr_method := "GET";
     RulesAws.sr_headers := <[Webob.header_key "Host" := "IAM.amazonaws.com:80"]> ∅;
     RulesAws.sr_path := "" |}.

(** A request to an IPv6 literal on port 80. *)
Definition ipv6_request : AuthAws.Request :=
  {| AuthAws.method := "GET";
     AuthAws.url :=
       {| AuthAws.scheme := "http"; AuthAws.host := "[::1]:80";
          AuthAws.path := "/"; AuthAws.parameters := ∅ |} |}.

(** A form-encoded POST whose parameters travel in the body: its URL has
    no query string. *)
Definition form_post : Webob.Request :=
  {| Webob.method := "POST";
     Webob.url := "https://iam.amazonaws.com/";
     Webob.path := "/";
     Webob.headers :=
       <[Webob.header_key "Host" := "iam.amazonaws.com"]>
       (<[Webob.header_key "Authorization" := "AWS user:secret"]>
       (<[Webob.header_key "Content-Type" := "application/x-www-form-urlencoded"]> ∅));
     Webob.params := [("Action", "ListUsers"); ("Version", "2010-05-08")];
     Webob.content_type := "application/x-www-form-urlencoded";
     Webob.body := "Action=ListUsers&Version=2010-05-08";
     Webob.adhoc := None |}.

(** The same parameters sent in the query string of a GET. *)
Definition query_get : Webob.Request :=
  {| Webob.method := "GET";
     Webob.url := "https://iam.amazonaws.com/?Action=ListUsers&Version=2010-05-08";
     Webob.path := "/";
     Webob.headers :=
       <[Webob.header_key "Host" := "iam.amazonaws.com"]>
       (<[Webob.header_key "Authorization" := "AWS user:secret"]>
       (<[Webob.header_key "Content-Type" := ""]> ∅));
     Webob.params := [("Action", "ListUsers"); ("Version", "2010-05-08")];
     Webob.content_type := "";
     Webob.body := "";
     Webob.adhoc := None |}.

Definition signing_rule : RulesAws.AWSSignModifyRule :=
  {| RulesAws.signature_method := "HmacSHA256";
     RulesAws.signature_version := "2";
     RulesAws.key := "AKID";
     RulesAws.secret := "wJalrXUtnFEMI";
     RulesAws.signer := RulesAws.SignatureMethod_HMAC_SHA256 |}.

(** A keyed digest that stands in for [hmac] in the examples: the name of
    the hash, the key and the message, kept apart by a zero byte. *)
Definition toy_hmac (hash key msg : string) : string :=
  (hash ++ Engine.NUL ++ key ++ Engine.NUL ++ msg)%string.

(** The credential store of the examples. *)
Definition alice : AuthAws.Credential :=
  {| AuthAws.secret := "wJalrXUtnFEMI"; AuthAws.entity := "alice@example.com" |}.

Definition credentials : gmap string AuthAws.Credential := <["AKID" := alice]> ∅.

Definition auth_hmac (m : AuthAws.SignatureMethod) : string -> string -> string :=
  toy_hmac (AuthAws.name m).

(** The scenario request, signed on 2011-01-01 at 00:00:00. *)
Definition signed : AuthAws.Request :=
  AuthAws.signed_request auth_hmac Clock.strftime (inject_Z 1293840000) iam_request
    AuthAws.SignatureMethod_HMAC_SHA256 "AKID" "wJalrXUtnFEMI".

Definition request_information (r : Webob.Request) : string := Webob.url r.
Definition rfc1123 (t : Q) : string := Clock.strftime (Qfloor t).
Definition minutes (d : Q) : string := "0.0333333333333".

End Samples.

(** ** More examples *)

Module Scenarios.

(** Rulesets: one whose filter section is empty, one without a [match]
    section, and one that permits every request and modifies none. *)
Definition undecided : Application.Ruleset :=
  {| Application.rs_match := Some [(Samples.all_rule, ["all"])];
     Application.rs_filter := Some [];
     Application.rs_modify_request := Some [];
     Application.rs_modify_response := Some [] |}.

Definition matchless : Application.Ruleset :=
  {| Application.rs_match := None;
     Application.rs_filter := Some [(Samples.all_rule, ["permit"; "all"])];
     Application.rs_modify_request := Some [];
     Application.rs_modify_response := Some [] |}.

Definition unmodified : Application.Ruleset :=
  {| Application.rs_match := Some [(Samples.all_rule, ["all"])];
     Application.rs_filter := Some [(Samples.all_rule, ["permit"; "all"])];
     Application.rs_modify_request := Some [];
     Application.rs_modify_response := Some [] |}.

(** The sample request after [url set http://upstream.example.com/foo/bar]. *)
Definition marked : Webob.Request :=
  Webob.setattr "goldengate_url" (Some "http://upstream.example.com/foo/bar")
    Samples.request.

(** The request of the canonicalization scenario with its parameters in
    another order. *)
Definition iam_dict_reordered : RulesAws.SignRequest :=
  {| RulesAws.sr_params :=
       [("AWSAccessKeyId", "AKID"); ("Version", "2010-05-08"); ("Action", "ListUsers")];
     RulesAws.sr_method := "GET";
     RulesAws.sr_headers := <[Webob.header_key "Host" := "IAM.amazonaws.com:80"]> ∅;
     RulesAws.sr_path := "" |}.

Definition rules_hmac (m : RulesAws.SignatureMethod) : string -> string -> string :=
  Samples.toy_hmac (RulesAws.name m).

(** A generator that always answers one half. *)
Definition half (i : nat) : Q := 1 # 2.

(** A regular-expression library that knows literal patterns only. *)
Definition literal_match (pattern : string) (value : option string) : Result bool :=
  Ok (match value with Some v => Str.startswith v pattern | None => false end).

(** No credentials file can be read. *)
Definition no_files (filename : string) : string + list (string * string) :=
  inl "No such file or directory".

End Scenarios.

(** * Properties *)

(** ** Strings *)

Module StrFacts.

Lemma app_cons (c : ascii) (s t : string) :
  (String c s ++ t)%string = String c (s ++ t)%string.
Proof. reflexivity. Qed.

Lemma take_drop (n : nat) (s : string) : (Str.take n s ++ Str.drop n s)%string = s.
Proof.
  revert s. induction n as [|n IH]; intros [|c r]; simpl; try reflexivity.
  now rewrite app_cons, IH.
Qed.

End StrFacts.

(** ** Sorting ([sorted]) *)

Module SortingFacts.
Import Sorting.

Lemma compare_refl (s : string) : String.compare s s = Eq.
Proof.
  induction s as [|c s IH]; simpl; [reflexivity|].
  unfold Ascii.compare. now rewrite N.compare_refl.
Qed.

Lemma compare_eq (s t : string) : String.compare s t = Eq <-> s = t.
Proof. split; [apply String.compare_eq_iff|intros ->; apply compare_refl]. Qed.

Lemma compare_lt_trans (a b c : string) :
  String.compare a b = Lt -> String.compare b c = Lt -> String.compare a c = Lt.
Proof.
  revert b c. induction a as [|x a IH]; intros [|y b] [|z c]; simpl;
    try discriminate; auto.
  unfold Ascii.compare.
  destruct (N.compare_spec (N_of_ascii x) (N_of_ascii y)) as [Exy|Lxy|Gxy];
    try discriminate;
    destruct (N.compare_spec (N_of_ascii y) (N_of_ascii z)) as [Eyz|Lyz|Gyz];
    try discriminate; intros Hab Hbc.
  - rewrite Exy, Eyz, N.compare_refl. eauto.
  - now rewrite Exy, (proj2 (N.compare_lt_iff _ _) Lyz).
  - now rewrite <- Eyz, (proj2 (N.compare_lt_iff _ _) Lxy).
  - now rewrite (proj2 (N.compare_lt_iff _ _) (N.lt_trans _ _ _ Lxy Lyz)).
Qed.

Lemma leb_trans (a b c : string) :
  String.leb a b = true -> String.leb b c = true -> String.leb a c = true.
Proof.
  unfold String.leb.
  destruct (String.compare a b) eqn:Hab; try discriminate;
    destruct (String.compare b c) eqn:Hbc; try discriminate; intros _ _.
  - apply compare_eq in Hab, Hbc. subst. now rewrite compare_refl.
  - apply compare_eq in Hab. subst. now rewrite Hbc.
  - apply compare_eq in Hbc. subst. now rewrite Hab.
  - now rewrite (compare_lt_trans a b c Hab Hbc).
Qed.

Definition pair_le (a b : string * string) : Prop := pair_leb a b = true.

Lemma pair_leb_total (a b : string * string) :
  pair_leb a b = true \/ pair_leb b a = true.
Proof.
  unfold pair_leb. rewrite (String.compare_antisym (fst b) (fst a)).
  destruct (String.compare (fst a) (fst b)); simpl; auto.
  destruct (String.leb_total (snd a) (snd b)); auto.
Qed.

Lemma pair_leb_trans (a b c : string * string) :
  pair_le a b -> pair_le b c -> pair_le a c.
Proof.
  unfold pair_le, pair_leb.
  destruct (String.compare (fst a) (fst b)) eqn:Hab; try discriminate;
    destruct (String.compare (fst b) (fst c)) eqn:Hbc; try discriminate.
  - apply compare_eq in Hab, Hbc. rewrite Hab, Hbc, compare_refl. apply leb_trans.
  - apply compare_eq in Hab. now rewrite Hab, Hbc.
  - apply compare_eq in Hbc. now rewrite <- Hbc, Hab.
  - now rewrite (compare_lt_trans _ _ _ Hab Hbc).
Qed.

(** Pairs in order have their keys in order. *)
Lemma pair_le_key (a b : string * string) :
  pair_le a b -> String.leb (fst a) (fst b) = true.
Proof.
  unfold pair_le, pair_leb, String.leb.
  now destruct (String.compare (fst a) (fst b)).
Qed.

Lemma insert_sorted_perm (a : string * string) (l : list (string * string)) :
  Permutation (insert_sorted a l) (a :: l).
Proof.
  induction l as [|b l IH]; simpl; [reflexivity|].
  destruct (pair_leb a b); [reflexivity|].
  rewrite IH. apply perm_swap.
Qed.

Lemma sorted_perm (l : list (string * string)) : Permutation (sorted l) l.
Proof.
  induction l as [|a l IH]; simpl; [reflexivity|].
  now rewrite insert_sorted_perm, IH.
Qed.

Lemma insert_sorted_sorted (a : string * string) (l : list (string * string)) :
  StronglySorted pair_le l -> StronglySorted pair_le (insert_sorted a l).
Proof.
  induction 1 as [|b l Hl IH Hb]; simpl.
  - constructor; constructor.
  - destruct (pair_leb a b) eqn:Hab.
    + constructor; [now constructor|]. constructor; [exact Hab|].
      eapply List.Forall_impl; [|exact Hb]. intros c Hc.
      now apply (pair_leb_trans a b c).
    + constructor; [exact IH|].
      assert (Hba : pair_le b a)
        by (destruct (pair_leb_total a b) as [H|H]; [congruence|exact H]).
      apply (Permutation_Forall (Permutation_sym (insert_sorted_perm a l))).
      now constructor.
Qed.

Lemma sorted_sorted (l : list (string * string)) : StronglySorted pair_le (sorted l).
Proof.
  induction l as [|a l IH]; simpl; [constructor|].
  now apply insert_sorted_sorted.
Qed.

Lemma filter_sorted (p : string * string -> bool) (l : list (string * string)) :
  StronglySorted pair_le l -> StronglySorted pair_le (List.filter p l).
Proof.
  induction 1 as [|b l Hl IH Hb]; simpl; [constructor|].
  destruct (p b); [|exact IH]. constructor; [exact IH|].
  apply List.Forall_forall. intros c Hc. apply List.filter_In in Hc.
  rewrite List.Forall_forall in Hb. now apply Hb.
Qed.

(** A list in the order of the pairs is in the order of the keys. *)
Lemma sorted_by_key (l : list (string * string)) :
  StronglySorted pair_le l ->
  StronglySorted (fun a b => String.leb (fst a) (fst b) = true) l.
Proof.
  induction 1 as [|b l Hl IH Hb]; constructor; [exact IH|].
  eapply List.Forall_impl; [|exact Hb]. intros c. apply pair_le_key.
Qed.

End SortingFacts.

(** ** Comparing signatures ([_are_equal]) *)

Module AuthCompareFacts.
Import AuthAws.

(** Whenever [_are_equal] returns, it returns whether the two strings are
    equal, whatever the generator drew. *)
Lemma are_equal_returns (pick : Z) (this that : string) (b : bool) :
  _are_equal pick this that = Ok b -> b = String.eqb this that.
Proof.
  unfold _are_equal, randint.
  destruct (String.length this =? String.length that)%nat eqn:Hlen; simpl.
  - destruct (Z.of_nat (String.length this) - 1 <? 0)%Z; simpl; [discriminate|].
    rewrite !StrFacts.take_drop. congruence.
  - intros [= <-]. symmetry. apply String.eqb_neq. intros ->.
    rewrite Nat.eqb_refl in Hlen. discriminate.
Qed.

(** On strings that are not both empty the comparison returns, and does
    not depend on the draw. *)
Lemma are_equal_nonempty (pick : Z) (this that : string) :
  that <> EmptyString -> _are_equal pick this that = Ok (String.eqb this that).
Proof.
  intros Hne. unfold _are_equal, randint.
  destruct (String.length this =? String.length that)%nat eqn:Hlen; simpl.
  - apply Nat.eqb_eq in Hlen.
    destruct that as [|c r]; [congruence|]. simpl in Hlen.
    replace (Z.of_nat (String.length this) - 1 <? 0)%Z with false
      by (symmetry; apply Z.ltb_ge; lia).
    simpl. now rewrite !StrFacts.take_drop.
  - f_equal. symmetry. apply String.eqb_neq. intros ->.
    rewrite Nat.eqb_refl in Hlen. discriminate.
Qed.

(** On two empty strings the range of [random.randint(0, -1)] is empty:
    there is no rotation index, and the comparison raises [ValueError], for
    every state of the generator. *)
Lemma are_equal_empty (pick : Z) :
  _are_equal pick "" "" = Raise (ValueError "empty range for randrange()").
Proof. reflexivity. Qed.

(** What the generator draws has no part in what the comparison does. *)
Lemma are_equal_ignores_draw (pick pick' : Z) (this that : string) :
  _are_equal pick this that = _are_equal pick' this that.
Proof.
  destruct that as [|c r].
  - destruct this as [|c' r']; [now rewrite !are_equal_empty|].
    reflexivity.
  - now rewrite !are_equal_nonempty by discriminate.
Qed.

End AuthCompareFacts.

(** ** The filter stage ([RuleEngine.test_filter]) *)

Module EngineFacts.
Import Engine.

(** A rule that raises ends the stage with its exception. *)
Lemma test_filter_raises (rule : TestRule) (text : list string)
    (rest : list (TestRule * list string)) (request : Webob.Request) (e : exn) :
  rule request = Raise e ->
  test_filter ((rule, text) :: rest) request = Raise e.
Proof. intros H. simpl. now rewrite H. Qed.

(** No rule of the stage with a [reject] or [permit] action: every rule is
    called and the stage returns [None]. *)
Lemma test_filter_undecided (compiled : list (TestRule * list string))
    (request : Webob.Request) :
  Forall (fun rt => exists b a tl, fst rt request = Ok b /\ snd rt = a :: tl
                                   /\ a <> "reject" /\ a <> "permit") compiled ->
  test_filter compiled request = Ok None.
Proof.
  induction 1 as [|[rule text] rest (b & a & tl & Hr & Ht & Hrej & Hper) _ IH];
    simpl in *; [reflexivity|].
  rewrite Hr. simpl. subst text.
  apply String.eqb_neq in Hrej, Hper. now rewrite Hrej, Hper.
Qed.

(** The compiler takes any first token for the action of a filter line:
    [deny all] resolves to [AllFilterRule], called on the argument [all],
    and is kept with its tokens. *)
Lemma deny_line_compiles (R : Type)
    (construct : Rules.RuleClass -> list string -> gmap string string -> Result R) :
  compile_rule R construct "filter" "deny all"
  = (do obj <- construct Rules.AllFilterRule ["all"] ∅; Ok (obj, ["deny"; "all"])).
Proof. vm_compute. reflexivity. Qed.

(** C4, against the claim: when the first rule's action is neither [reject]
    nor [permit], the rules after it decide.  The two filter stages below
    differ only in their second rule and give different results. *)
Lemma test_filter_later_rule_decides :
  test_filter [(Samples.all_rule, ["deny"; "all"]); (Samples.all_rule, ["reject"; "all"])]
              Samples.request = Ok (Some false)
  /\ test_filter [(Samples.all_rule, ["deny"; "all"]); (Samples.all_rule, ["permit"; "all"])]
                 Samples.request = Ok (Some true).
Proof. split; reflexivity. Qed.

(** C4, amended: when the first rule of a non-empty filter stage returns
    [result] and its action is [reject], the stage returns [not result];
    when its action is [permit], the stage returns [result]; in both cases
    the rules after the first do not affect the result.  When its action is
    neither, the first rule decides nothing and the stage returns what the
    rules after it give. *)
Theorem test_filter_first_rule (rule : TestRule) (action : string) (tail : list string)
    (rest rest' : list (TestRule * list string)) (request : Webob.Request)
    (result : bool) :
  rule request = Ok result ->
  (action = "reject" ->
     test_filter ((rule, action :: tail) :: rest) request = Ok (Some (negb result)))
  /\ (action = "permit" ->
     test_filter ((rule, action :: tail) :: rest) request = Ok (Some result))
  /\ (action = "reject" \/ action = "permit" ->
     test_filter ((rule, action :: tail) :: rest) request
     = test_filter ((rule, action :: tail) :: rest') request)
  /\ (action <> "reject" -> action <> "permit" ->
     test_filter ((rule, action :: tail) :: rest) request = test_filter rest request).
Proof.
  intros Hr. simpl. rewrite Hr. simpl.
  repeat split.
  - intros ->. reflexivity.
  - intros ->. reflexivity.
  - intros [-> | ->]; reflexivity.
  - intros Hrej Hper. apply String.eqb_neq in Hrej, Hper. now rewrite Hrej, Hper.
Qed.

Lemma test_filter_first_rule_witness :
  test_filter [(Samples.all_rule, ["reject"; "all"]); (Samples.none_rule, ["permit"; "none"])]
              Samples.request = Ok (Some false).
Proof.
  exact (proj1 (test_filter_first_rule Samples.all_rule "reject" ["all"]
                  [(Samples.none_rule, ["permit"; "none"])] [] Samples.request true
                  eq_refl) eq_refl).
Defined.

End EngineFacts.

(** ** The rule registry ([find_rule], [RuleEngine.compile]) *)

Module RulesFacts.
Import Rules Engine.

Lemma split_nonempty (c : ascii) (s : string) : Str.split c s <> [].
Proof.
  destruct s as [|a r]; simpl; [discriminate|].
  destruct (Ascii.eqb a c); [discriminate|].
  destruct (Str.split c r); discriminate.
Qed.

Lemma tokens_nonempty (rule : string) : exists verb rest, tokens rule = verb :: rest.
Proof.
  unfold tokens.
  destruct (Str.split " " (Str.replace rule "\ " NUL)) as [|x l] eqn:H.
  - now apply split_nonempty in H.
  - simpl. eauto.
Qed.

Lemma category_audit (suffix : string) : category ("audit_" ++ suffix) = "audit".
Proof. reflexivity. Qed.

Lemma category_modify (suffix : string) : category ("modify_" ++ suffix) = "modify".
Proof. reflexivity. Qed.

(** No rule class registers under [audit]. *)
Lemma no_audit_registry : all_rules !! "audit" = None.
Proof. vm_compute. reflexivity. Qed.

(** The verbs of the modify registry and the classes they resolve to. *)
Lemma modify_registry :
  map (fun verb => find_rule all_rules "modify_request" verb)
      ["header"; "url"; "method"; "content_type"; "charset"; "host"; "body";
       "cache_control"; "aws_sign"]
  = map Ok [HeaderModifyRule; URLModifyRule; URLModifyRule; RequestModifyRule;
            RequestModifyRule; RequestModifyRule; RequestModifyRule;
            RequestModifyRule; AWSSignModifyRule].
Proof. vm_compute. reflexivity. Qed.

(** C8, against the claim: [header] resolves in a modify stage and raises
    [KeyError] in both audit stages. *)
Lemma audit_verb_unresolved :
  find_rule all_rules "modify_request" "header" = Ok HeaderModifyRule
  /\ find_rule all_rules "audit_request" "header" = Raise (KeyError "audit")
  /\ find_rule all_rules "audit_response" "header" = Raise (KeyError "audit").
Proof. vm_compute. repeat split; reflexivity. Qed.

(** C8, amended: a verb of an audit stage is resolved in a registry
    category of its own, [audit], into which no rule class registers (the
    modify registry is not shared).  So every verb, those valid for a modify
    stage included, raises [KeyError('audit')] in an [audit_request] or
    [audit_response] stage, and compiling an audit stage with at least one
    rule line raises it too, whatever the rule constructors do; only an
    empty audit stage compiles.  The [modify_request] and [modify_response]
    stages are the ones that resolve their verbs in the modify registry. *)
Theorem audit_stage_never_compiles :
  forall (R : Type) (construct : RuleClass -> list string -> gmap string string -> Result R)
         (suffix verb line : string) (rest : list string),
    find_rule all_rules ("audit_" ++ suffix) verb = Raise (KeyError "audit")
    /\ compile R construct ("audit_" ++ suffix) (line :: rest) = Raise (KeyError "audit")
    /\ compile R construct ("audit_" ++ suffix) [] = Ok []
    /\ find_rule all_rules ("modify_" ++ suffix) verb = find_rule all_rules "modify" verb.
Proof.
  intros R construct suffix verb line rest.
  assert (Hfind : forall v, find_rule all_rules ("audit_" ++ suffix) v
                            = Raise (KeyError "audit")).
  { intros v. unfold find_rule. rewrite category_audit, no_audit_registry.
    reflexivity. }
  split; [apply Hfind|]. split; [|split; [reflexivity|]].
  2:{ unfold find_rule. now rewrite category_modify. }
  cbn [compile]. unfold compile_rule.
  destruct (tokens_nonempty line) as (v & tl & ->).
  replace (String.eqb ("audit_" ++ suffix) "filter") with false by reflexivity.
  cbn [nth_error bind fst]. rewrite Hfind. reflexivity.
Qed.

End RulesFacts.

(** ** The pipeline ([Application.__call__]) *)

Module ApplicationFacts.
Import Webob Application.

(** The ruleset a post-match event belongs to. *)
Definition post_match (ev : Event) : option nat :=
  match ev with
  | EvMatch _ => None
  | EvFilter i | EvModifyRequest i | EvProxy i | EvModifyResponse i => Some i
  end.

Definition index (ev : Event) : nat :=
  match ev with
  | EvMatch i | EvFilter i | EvModifyRequest i | EvProxy i | EvModifyResponse i => i
  end.

(** The match stage of the ruleset returns false. *)
Definition declines (request : Request) (rs : Ruleset) : Prop :=
  exists m, rs_match rs = Some m /\ test_match m request = Ok false.

(** The match stage returns true and the filter stage a false value. *)
Definition denies (request : Request) (rs : Ruleset) : Prop :=
  exists m f o, rs_match rs = Some m /\ test_match m request = Ok true
                /\ rs_filter rs = Some f /\ test_filter f request = Ok o
                /\ truthy o = false.

Lemma tbind_lift_ok {A B : Type} (a : A) (k : A -> Traced B) :
  tbind (lift (Ok a)) k = k a.
Proof. unfold tbind, lift. now destruct (k a). Qed.

Lemma tbind_lift_raise {A B : Type} (e : exn) (k : A -> Traced B) :
  tbind (lift (Raise e)) k = ([], Raise e).
Proof. reflexivity. Qed.

Lemma tbind_enter_ok {A B : Type} (ev : Event) (a : A) (k : A -> Traced B) :
  tbind (enter ev (Ok a)) k = (ev :: fst (k a), snd (k a)).
Proof. unfold tbind, enter. now destruct (k a). Qed.

Lemma tbind_enter_raise {A B : Type} (ev : Event) (e : exn) (k : A -> Traced B) :
  tbind (enter ev (Raise e)) k = ([ev], Raise e).
Proof. reflexivity. Qed.

(** Run the [try] block one stage at a time, by cases on what each stage
    gives. *)
Ltac run_stage :=
  cbn [section];
  rewrite ?tbind_lift_ok, ?tbind_lift_raise, ?tbind_enter_ok, ?tbind_enter_raise;
  cbn beta iota delta [fst snd tret].

Ltac crank :=
  repeat (run_stage;
          match goal with
          | |- context [tbind (lift (section _ ?x)) _] => destruct x
          | |- context [tbind (enter _ ?x) _] => destruct x as [?|?]
          | |- context [if negb ?b then _ else _] => destruct b; cbn [negb]
          end);
  run_stage.

Section Upstream.

Variable urlparse : string -> string * string.
Variable upstream :
  string -> string -> string -> string -> string -> gmap string string -> Result Response.

Abbreviation attempt := (Application.attempt urlparse upstream).
Abbreviation process := (Application.process urlparse upstream).
Abbreviation loop := (Application.loop urlparse upstream).
Abbreviation call := (Application.call urlparse upstream).

(** The [try] block and its handler never let an exception out. *)
Lemma process_total (i : nat) (rs : Ruleset) (request : Request) :
  exists o, snd (process i rs request) = Ok o.
Proof.
  unfold Application.process, catch.
  destruct (attempt i rs request) as [es [o|e]]; simpl; eauto.
Qed.

Lemma process_declines (i : nat) (rs : Ruleset) (request : Request) :
  declines request rs -> process i rs request = ([EvMatch i], Ok None).
Proof.
  intros (m & Hm & Ht). unfold Application.process, Application.attempt.
  rewrite Hm. simpl. rewrite Ht. reflexivity.
Qed.

Lemma process_denies (i : nat) (rs : Ruleset) (request : Request) :
  denies request rs ->
  process i rs request = ([EvMatch i; EvFilter i], Ok (Some Verboten)).
Proof.
  intros (m & f & o & Hm & Ht & Hf & Hd & Ho).
  unfold Application.process, Application.attempt.
  rewrite Hm. simpl. rewrite Ht. simpl. rewrite Hf. simpl. rewrite Hd. simpl.
  rewrite Ho. reflexivity.
Qed.

(** What the [try] block returns does not depend on the position of the
    ruleset. *)
Lemma attempt_index (i j : nat) (rs : Ruleset) (request : Request) :
  snd (attempt i rs request) = snd (attempt j rs request).
Proof.
  unfold Application.attempt. crank; reflexivity.
Qed.

Lemma process_raises (i : nat) (rs : Ruleset) (request : Request) (e : exn) :
  snd (attempt i rs request) = Raise e ->
  snd (process i rs request) = Ok (Some InternalServerError).
Proof.
  unfold Application.process, catch.
  destruct (attempt i rs request) as [es [o|e']]; simpl; [discriminate|reflexivity].
Qed.

Lemma process_returns (i : nat) (rs : Ruleset) (request : Request)
    (o : option Response) :
  snd (attempt i rs request) = Ok o -> snd (process i rs request) = Ok o.
Proof.
  unfold Application.process, catch.
  destruct (attempt i rs request) as [es [o'|e']]; simpl; congruence.
Qed.

(** Every event of the body of the loop carries the index of its ruleset,
    and a body that ends in [continue] has run no post-match stage. *)
Lemma process_events (i : nat) (rs : Ruleset) (request : Request) :
  Forall (fun ev => index ev = i) (fst (process i rs request))
  /\ (snd (process i rs request) = Ok None ->
      Forall (fun ev => post_match ev = None) (fst (process i rs request))).
Proof.
  unfold Application.process, Application.attempt.
  crank; cbn [catch fst snd]; split; intros; try discriminate;
    repeat (constructor; try reflexivity).
Qed.

(** Rulesets whose match stage declines are passed over. *)
Lemma loop_declines (i : nat) (before rest : list Ruleset) (request : Request) :
  Forall (declines request) before ->
  loop i (before ++ rest) request
  = (map EvMatch (seq i (length before)) ++ fst (loop (i + length before) rest request),
     snd (loop (i + length before) rest request)).
Proof.
  intros H. revert i. induction H as [|rs before Hrs _ IH]; intros i.
  - simpl. rewrite Nat.add_0_r. now destruct (loop i rest request).
  - simpl. rewrite (process_declines i rs request Hrs). unfold tbind.
    rewrite IH. replace (S i + length before) with (i + S (length before)) by lia.
    reflexivity.
Qed.

Lemma loop_stops (i : nat) (rs : Ruleset) (rest : list Ruleset) (request : Request)
    (response : Response) :
  snd (process i rs request) = Ok (Some response) ->
  loop i (rs :: rest) request = (fst (process i rs request), Ok (Some response)).
Proof.
  simpl. destruct (process i rs request) as [es r]. simpl. intros ->.
  simpl. now rewrite app_nil_r.
Qed.

Lemma call_loop (rules : list Ruleset) (request : Request) :
  fst (call rules request) = fst (loop 0 rules request)
  /\ (forall response, snd (loop 0 rules request) = Ok (Some response) ->
        snd (call rules request) = Ok response)
  /\ (snd (loop 0 rules request) = Ok None ->
        snd (call rules request) = Ok NotImplemented).
Proof.
  unfold Application.call, tbind, tret.
  destruct (loop 0 rules request) as [es [[r|]|e]]; simpl;
    rewrite ?app_nil_r; repeat split; congruence.
Qed.

(** At most one ruleset contributes post-match events. *)
Lemma loop_exclusive (rules : list Ruleset) (request : Request) (i : nat) :
  exists k, Forall (fun ev => forall j, post_match ev = Some j -> j = k)
                   (fst (loop i rules request)).
Proof.
  revert i. induction rules as [|rs rest IH]; intros i.
  - exists 0. constructor.
  - simpl.
    destruct (process_events i rs request) as [Hidx Hnone].
    destruct (process_total i rs request) as [o Ho].
    destruct (process i rs request) as [es r]. simpl in *. subst r.
    destruct o as [response|]; simpl.
    + exists i. rewrite app_nil_r.
      eapply Forall_impl; [exact Hidx|]. intros ev Hev j Hj.
      destruct ev; simpl in *; congruence.
    + destruct (IH (S i)) as [k Hk]. exists k.
      destruct (loop (S i) rest request) as [es' r']. simpl in *.
      apply Forall_app. split; [|exact Hk].
      eapply Forall_impl; [exact (Hnone eq_refl)|]. intros ev Hev j Hj. congruence.
Qed.

(** The ruleset that is selected: the first whose match stage does not
    decline.  What the pipeline answers is what the body of the loop gives
    for it. *)
Lemma call_selected (before after : list Ruleset) (rs : Ruleset) (request : Request)
    (response : Response) :
  Forall (declines request) before ->
  snd (process (length before) rs request) = Ok (Some response) ->
  call (before ++ rs :: after) request
  = (map EvMatch (seq 0 (length before)) ++ fst (process (length before) rs request),
     Ok response).
Proof.
  intros Hb Hp. unfold Application.call.
  rewrite (loop_declines 0 before (rs :: after) request Hb). simpl plus.
  rewrite (loop_stops _ rs after request response Hp). simpl.
  now rewrite app_nil_r.
Qed.

(** C5, amended: the selected ruleset is the first whose match stage does
    not decline, that is, returns true or raises.  The response is 501 when
    the match stage of every ruleset declines; 403 when the match stage of
    the selected ruleset accepts and its filter stage denies; 500 when an
    exception is raised while the selected ruleset is processed, its match
    stage included; and otherwise what the upstream returned, after
    [modify_response]. *)
Theorem pipeline_response (before after : list Ruleset) (rs : Ruleset)
    (request : Request) :
  Forall (declines request) before ->
  snd (call before request) = Ok NotImplemented
  /\ (denies request rs ->
      snd (call (before ++ rs :: after) request) = Ok Verboten)
  /\ (forall e, snd (attempt 0 rs request) = Raise e ->
      snd (call (before ++ rs :: after) request) = Ok InternalServerError)
  /\ (forall m f o mr request' response ms response',
      rs_match rs = Some m -> test_match m request = Ok true ->
      rs_filter rs = Some f -> test_filter f request = Ok o -> truthy o = true ->
      rs_modify_request rs = Some mr -> modify mr request = Ok request' ->
      proxy_request urlparse upstream request' = Ok response ->
      rs_modify_response rs = Some ms -> modify ms response = Ok response' ->
      snd (call (before ++ rs :: after) request) = Ok response').
Proof.
  intros Hb. repeat split.
  - unfold Application.call.
    rewrite <- (app_nil_r before) at 1.
    rewrite (loop_declines 0 before [] request Hb). reflexivity.
  - intros Hd. erewrite call_selected; [reflexivity|exact Hb|].
    now rewrite (process_denies _ rs request Hd).
  - intros e He. erewrite call_selected; [reflexivity|exact Hb|].
    eapply process_raises. rewrite (attempt_index _ 0). exact He.
  - intros m f o mr request' response ms response' Hm Ht Hf Hp Ho Hmr Hq Hu Hms Hr.
    erewrite call_selected; [reflexivity|exact Hb|].
    apply process_returns. unfold Application.attempt.
    rewrite Hm. run_stage. rewrite Ht. run_stage. cbn [negb].
    rewrite Hf. run_stage. rewrite Hp. run_stage. rewrite Ho. cbn [negb].
    rewrite Hmr. run_stage. rewrite Hq. run_stage. rewrite Hu. run_stage.
    rewrite Hms. run_stage. rewrite Hr. run_stage. reflexivity.
Qed.

(** C6: when the filter stage of the selected ruleset denies, the run
    enters neither a [modify_request] stage nor the upstream proxy; and in
    every run at most one ruleset has its post-match stages (filter,
    modify, proxy) entered. *)
Theorem post_match_logic (rules : list Ruleset) (request : Request) :
  (forall before rs after,
      rules = before ++ rs :: after ->
      Forall (declines request) before -> denies request rs ->
      forall ev i, In ev (fst (call rules request)) ->
                   ev <> EvModifyRequest i /\ ev <> EvProxy i)
  /\ (forall e1 e2 i j,
      In e1 (fst (call rules request)) -> In e2 (fst (call rules request)) ->
      post_match e1 = Some i -> post_match e2 = Some j -> i = j).
Proof.
  split.
  - intros before rs after -> Hb Hd ev i Hin.
    rewrite (call_selected before after rs request Verboten Hb) in Hin
      by now rewrite (process_denies _ rs request Hd).
    rewrite (process_denies _ rs request Hd) in Hin. simpl in Hin.
    apply in_app_or in Hin. destruct Hin as [Hin|[<-|[<-|[]]]];
      try (split; discriminate).
    apply in_map_iff in Hin. destruct Hin as (k & <- & _). split; discriminate.
  - intros e1 e2 i j H1 H2 Hi Hj.
    destruct (call_loop rules request) as [-> _] in H1, H2.
    destruct (loop_exclusive rules request 0) as [k Hk].
    rewrite Forall_forall in Hk.
    apply list_elem_of_In in H1, H2.
    rewrite (Hk e1 H1 i Hi), (Hk e2 H2 j Hj). reflexivity.
Qed.

End Upstream.

Lemma sample_declines : declines Samples.request Samples.declining.
Proof. exists [(Samples.none_rule, ["none"])]. split; reflexivity. Qed.

Lemma sample_denies : denies Samples.request Samples.denying.
Proof.
  exists [(Samples.all_rule, ["all"])], [(Samples.all_rule, ["reject"; "all"])],
    (Some false).
  repeat split; reflexivity.
Qed.

(** C5, against the claim: the match stage of the first ruleset raises and
    the second ruleset is the first whose match stage accepts; its filter
    stage denies, yet the response is 500, not 403. *)
Lemma pipeline_match_raises :
  snd (Application.attempt Samples.urlparse Samples.upstream 0 Samples.raising
         Samples.request) = Raise (ValueError "invalid parameter")
  /\ denies Samples.request Samples.denying
  /\ snd (Application.call Samples.urlparse Samples.upstream
            [Samples.raising; Samples.denying] Samples.request)
     = Ok Application.InternalServerError
  /\ Application.InternalServerError <> Application.Verboten.
Proof.
  split; [reflexivity|]. split; [exact sample_denies|].
  split; [reflexivity|discriminate].
Qed.

Lemma pipeline_response_witness :
  snd (Application.call Samples.urlparse Samples.upstream
         [Samples.declining; Samples.permitting; Samples.denying] Samples.request)
  = Ok Samples.ok_response.
Proof.
  refine (proj2 (proj2 (proj2
            (pipeline_response Samples.urlparse Samples.upstream
               [Samples.declining] [Samples.denying] Samples.permitting
               Samples.request _)))
            [(Samples.all_rule, ["all"])] [(Samples.all_rule, ["permit"; "all"])]
            (Some true) _
            (Webob.setattr "goldengate_url" (Some "http://upstream.example.com/foo/bar")
               Samples.request)
            Samples.ok_response [] Samples.ok_response
            eq_refl eq_refl eq_refl eq_refl eq_refl eq_refl eq_refl _ eq_refl eq_refl).
  - constructor; [exact sample_declines|constructor].
  - vm_compute. reflexivity.
Defined.

Lemma post_match_logic_witness :
  ~ In (Application.EvProxy 1)
       (fst (Application.call Samples.urlparse Samples.upstream
               [Samples.declining; Samples.denying; Samples.permitting]
               Samples.request)).
Proof.
  intros H.
  refine (proj2 (proj1 (post_match_logic Samples.urlparse Samples.upstream
                          [Samples.declining; Samples.denying; Samples.permitting]
                          Samples.request)
                   [Samples.declining] Samples.denying [Samples.permitting]
                   eq_refl _ sample_denies (Application.EvProxy 1) 1 H) eq_refl).
  constructor; [exact sample_declines|constructor].
Defined.

End ApplicationFacts.

(** ** Timestamp validation *)

Module TimestampFacts.
Import Webob.
Local Open Scope Q_scope.

Lemma Qltb_lt (x y : Q) : Qltb x y = true <-> x < y.
Proof.
  unfold Qltb. rewrite negb_true_iff, <- not_true_iff_false, Qle_bool_iff.
  split; [apply Qnot_le_lt|apply Qlt_not_le].
Qed.

Lemma Qltb_ge (x y : Q) : Qltb x y = false <-> y <= x.
Proof. unfold Qltb. now rewrite negb_false_iff, Qle_bool_iff. Qed.

Lemma inject_Z_minus_plus (a b : Z) : inject_Z (a + b) - inject_Z b == inject_Z a.
Proof. rewrite inject_Z_plus. ring. Qed.

Definition future : exn := RuleException "Timestamp may not be in the future".
Definition too_old : exn :=
  RuleException "Timestamp may not be more than %s seconds ago".
Definition expired (expires : Z) : exn :=
  RuleException ("Request Expires time is in the past: " ++ RulesAws.str_of_Z expires).
Definition bad_timestamp_error : exn := UnauthenticatedException "bad timestamp".

Section Library.

Variable hmac_digest : AuthAws.SignatureMethod -> string -> string -> string.
Variable strptime : string -> option Z.

Abbreviation validate_timestamp := (RulesAws.validate_timestamp strptime).
Abbreviation authenticate := (AuthAws.authenticate hmac_digest strptime).

(** The request passes the test on [Expires]: it has no such parameter, or
    one that does not lie in the past. *)
Definition unexpired (request : Request) (now : Q) : Prop :=
  params_has (params request) "Expires" = false
  \/ exists e ex, params_get (params request) "Expires" = Ok e
                  /\ strptime e = Some ex /\ now <= inject_Z ex.

(** The request carries the five signature parameters, [t] as its
    timestamp. *)
Definition signature_parameters (r : AuthAws.Request) (t : string) : Prop :=
  let p := AuthAws.parameters (AuthAws.url r) in
  is_Some (p !! "AWSAccessKeyId") /\ is_Some (p !! "Signature")
  /\ is_Some (p !! "SignatureMethod") /\ is_Some (p !! "SignatureVersion")
  /\ p !! "Timestamp" = Some t.

Lemma validate_unexpired (self : RulesAws.AWSSignatureFilterRule) (now : Q)
    (request : Request) (t : string) (ts : Z) :
  params_get (params request) "Timestamp" = Ok t -> strptime t = Some ts ->
  unexpired request now ->
  validate_timestamp self now request
  = if Qltb now (inject_Z ts) then Raise future
    else if negb (RulesAws.max_signature_age self =? 0)%Z
            && Qltb (inject_Z ts) (now - inject_Z (RulesAws.max_signature_age self))
    then Raise too_old else Ok true.
Proof.
  intros Ht Hts Hex. unfold RulesAws.validate_timestamp, RulesAws.parse_timestamp.
  rewrite Ht. cbn [bind]. rewrite Hts. cbn [bind].
  destruct Hex as [-> | (e & ex & He & Hp & Hle)]; [reflexivity|].
  destruct (params_has (params request) "Expires"); [|reflexivity].
  rewrite He. cbn [bind]. rewrite Hp. cbn [bind].
  apply Qltb_ge in Hle. rewrite Hle. reflexivity.
Qed.

Lemma validate_expired (self : RulesAws.AWSSignatureFilterRule) (now : Q)
    (request : Request) (t e : string) (ts ex : Z) :
  params_get (params request) "Timestamp" = Ok t -> strptime t = Some ts ->
  params_has (params request) "Expires" = true ->
  params_get (params request) "Expires" = Ok e -> strptime e = Some ex ->
  inject_Z ex < now ->
  validate_timestamp self now request = Raise (expired ex).
Proof.
  intros Ht Hts Hhas He Hp Hlt.
  unfold RulesAws.validate_timestamp, RulesAws.parse_timestamp.
  rewrite Ht. cbn [bind]. rewrite Hts. cbn [bind]. rewrite Hhas, He. cbn [bind].
  rewrite Hp. cbn [bind]. apply Qltb_lt in Hlt. rewrite Hlt. reflexivity.
Qed.

Lemma bad_timestamp_iff (now1 now2 : Q) (ts : Z) :
  AuthAws.bad_timestamp now1 now2 ts = true
  <-> now1 < inject_Z ts \/ inject_Z ts < now2 - inject_Z AuthAws.TIMESTAMP_THRESHOLD.
Proof. unfold AuthAws.bad_timestamp. now rewrite orb_true_iff, !Qltb_lt. Qed.

Lemma authenticate_timestamp (credentials : gmap string AuthAws.Credential)
    (now1 now2 : Q) (pick : Z) (r : AuthAws.Request) (t : string) (ts : Z) :
  signature_parameters r t -> strptime t = Some ts ->
  if AuthAws.bad_timestamp now1 now2 ts
  then authenticate credentials now1 now2 pick r = Raise bad_timestamp_error
  else authenticate credentials now1 now2 pick r <> Raise bad_timestamp_error.
Proof.
  intros ([k Hk] & [sg Hsg] & [sm Hsm] & [sv Hsv] & Ht) Hts.
  unfold AuthAws.authenticate. rewrite Hk, Hsg, Hsm, Hsv, Ht, Hts.
  destruct (AuthAws.bad_timestamp now1 now2 ts); [reflexivity|].
  destruct (AuthAws.for_key credentials k) as [cred|]; [|discriminate].
  unfold AuthAws.get_signature_method.
  destruct (find _ AuthAws.signature_methods) as [m|]; cbn [bind]; [|discriminate].
  destruct (AuthAws._are_equal pick sg _) as [[|]|e] eqn:Heq; cbn [bind];
    try discriminate.
  unfold AuthAws._are_equal, AuthAws.randint in Heq.
  destruct (negb _); [discriminate|]. destruct (_ <? _)%Z; [|discriminate].
  cbn [bind] in Heq. injection Heq as <-. discriminate.
Qed.

(** C3, amended.  For a request whose [Timestamp] parses to [ts]:

    - the filter rule ([validate_timestamp], threshold [max_signature_age],
      300 by default), on a request that passes the [Expires] test, accepts
      [ts = now] and [ts = now - threshold] for a threshold that is not
      negative, rejects every [ts > now], and rejects every [ts] older than
      [now - threshold] when the threshold is not zero; a threshold of zero
      switches the age test off, and every [ts <= now] is accepted;
    - the filter rule rejects a request whose [Expires] parameter lies
      before [now];
    - the authenticator ([authenticate], threshold 300) accepts the
      timestamp when [ts = now] and when [ts = now - 300], and rejects it
      with ['bad timestamp'] exactly when [ts] is after the first reading of
      the clock or more than 300 seconds before the second; it makes no
      test on [Expires]. *)
Theorem timestamp_window (self : RulesAws.AWSSignatureFilterRule) (request : Request)
    (t : string) (ts : Z) :
  params_get (params request) "Timestamp" = Ok t -> strptime t = Some ts ->
  let age := RulesAws.max_signature_age self in
  ((0 <= age)%Z -> unexpired request (inject_Z ts) ->
     validate_timestamp self (inject_Z ts) request = Ok true)
  /\ ((0 <= age)%Z -> unexpired request (inject_Z (ts + age)) ->
     validate_timestamp self (inject_Z (ts + age)) request = Ok true)
  /\ (forall now, unexpired request now -> now < inject_Z ts ->
     validate_timestamp self now request = Raise future)
  /\ (forall now, unexpired request now -> age <> 0%Z ->
     inject_Z ts <= now -> inject_Z ts < now - inject_Z age ->
     validate_timestamp self now request = Raise too_old)
  /\ (forall now, unexpired request now -> age = 0%Z -> inject_Z ts <= now ->
     validate_timestamp self now request = Ok true)
  /\ (forall now e ex,
     params_has (params request) "Expires" = true ->
     params_get (params request) "Expires" = Ok e -> strptime e = Some ex ->
     inject_Z ex < now ->
     validate_timestamp self now request = Raise (expired ex))
  /\ AuthAws.bad_timestamp (inject_Z ts) (inject_Z ts) ts = false
  /\ AuthAws.bad_timestamp (inject_Z (ts + 300)) (inject_Z (ts + 300)) ts = false
  /\ (forall credentials now1 now2 pick r,
     signature_parameters r t ->
     (now1 < inject_Z ts \/ inject_Z ts < now2 - 300 ->
      authenticate credentials now1 now2 pick r = Raise bad_timestamp_error)
     /\ (inject_Z ts <= now1 -> now2 - 300 <= inject_Z ts ->
      authenticate credentials now1 now2 pick r <> Raise bad_timestamp_error)).
Proof.
  intros Ht Hts age. subst age.
  assert (Hle : forall a b : Z, (a <= b)%Z -> inject_Z a <= inject_Z b)
    by (intros a b; now rewrite <- Zle_Qle).
  assert (H300 : inject_Z AuthAws.TIMESTAMP_THRESHOLD == 300) by reflexivity.
  repeat match goal with |- _ /\ _ => split end.
  - intros Hage Hex. rewrite (validate_unexpired self _ request t ts Ht Hts Hex).
    replace (Qltb (inject_Z ts) (inject_Z ts)) with false
      by (symmetry; apply Qltb_ge; apply Qle_refl).
    replace (Qltb (inject_Z ts) (inject_Z ts - inject_Z (RulesAws.max_signature_age self))) with false;
      [now rewrite andb_false_r|].
    symmetry. apply Qltb_ge. apply Hle in Hage.
    change (inject_Z 0) with 0 in Hage. lra.
  - intros Hage Hex. rewrite (validate_unexpired self _ request t ts Ht Hts Hex).
    replace (Qltb (inject_Z (ts + RulesAws.max_signature_age self)) (inject_Z ts)) with false
      by (symmetry; apply Qltb_ge; apply Hle; lia).
    replace (Qltb (inject_Z ts) (inject_Z (ts + RulesAws.max_signature_age self) - inject_Z (RulesAws.max_signature_age self))) with false;
      [now rewrite andb_false_r|].
    symmetry. apply Qltb_ge. rewrite inject_Z_minus_plus. apply Qle_refl.
  - intros now Hex Hlt. rewrite (validate_unexpired self _ request t ts Ht Hts Hex).
    apply Qltb_lt in Hlt. now rewrite Hlt.
  - intros now Hex Hage Hle' Hlt.
    rewrite (validate_unexpired self _ request t ts Ht Hts Hex).
    apply Qltb_ge in Hle'. apply Qltb_lt in Hlt. rewrite Hle'.
    apply Z.eqb_neq in Hage. now rewrite Hage, Hlt.
  - intros now Hex Hage Hle'.
    rewrite (validate_unexpired self _ request t ts Ht Hts Hex).
    apply Qltb_ge in Hle'. rewrite Hle'. now rewrite Hage.
  - intros now e ex Hh He Hp Hlt.
    exact (validate_expired self now request t e ts ex Ht Hts Hh He Hp Hlt).
  - apply not_true_iff_false. rewrite bad_timestamp_iff. lra.
  - apply not_true_iff_false. rewrite bad_timestamp_iff.
    pose proof (inject_Z_minus_plus ts 300) as E.
    pose proof (Hle ts (ts + 300)%Z ltac:(lia)) as L.
    change (inject_Z 300) with 300 in E. lra.
  - intros credentials now1 now2 pick r H.
    pose proof (authenticate_timestamp credentials now1 now2 pick r t ts H Hts) as A.
    split.
    + intros Hbad.
      replace (AuthAws.bad_timestamp now1 now2 ts) with true in A; [exact A|].
      symmetry. apply bad_timestamp_iff. lra.
    + intros H1 H2.
      replace (AuthAws.bad_timestamp now1 now2 ts) with false in A; [exact A|].
      symmetry. apply not_true_iff_false. rewrite bad_timestamp_iff. lra.
Qed.

End Library.

(** C3, against the claim: with [max_signature_age=0] the filter rule
    accepts a timestamp that is an hour old, which is strictly older than
    [now] minus the threshold; with the default threshold it rejects it. *)
Lemma zero_age_accepts_old :
  Clock.strptime "2011-01-01T00:00:00" = Some 1293840000%Z
  /\ inject_Z 1293840000 < inject_Z 1293843600 - inject_Z 0
  /\ RulesAws.validate_timestamp Clock.strptime
       {| RulesAws.max_signature_age := 0; RulesAws.creds := [] |}
       (inject_Z 1293843600)
       (Samples.stamped [("Timestamp", "2011-01-01T00:00:00")]) = Ok true
  /\ RulesAws.validate_timestamp Clock.strptime
       {| RulesAws.max_signature_age := 300; RulesAws.creds := [] |}
       (inject_Z 1293843600)
       (Samples.stamped [("Timestamp", "2011-01-01T00:00:00")]) = Raise too_old.
Proof.
  split; [vm_compute; reflexivity|]. split; [reflexivity|].
  split; vm_compute; reflexivity.
Qed.

Lemma timestamp_window_witness :
  RulesAws.validate_timestamp Clock.strptime
    {| RulesAws.max_signature_age := 300; RulesAws.creds := [] |}
    (inject_Z (1293840000 + 300))
    (Samples.stamped [("Timestamp", "2011-01-01T00:00:00")]) = Ok true.
Proof.
  refine (proj1 (proj2
            (timestamp_window
               (fun m => Samples.toy_hmac (AuthAws.name m)) Clock.strptime
               {| RulesAws.max_signature_age := 300; RulesAws.creds := [] |}
               (Samples.stamped [("Timestamp", "2011-01-01T00:00:00")])
               "2011-01-01T00:00:00" 1293840000 _ _)) _ _).
  - reflexivity.
  - vm_compute. reflexivity.
  - simpl. lia.
  - left. reflexivity.
Defined.

End TimestampFacts.

(** ** The signature base string *)

Module CanonicalFacts.

Definition LF : string := String (Str.chr 10) EmptyString.

Definition not_signature (kv : string * string) : bool :=
  negb (String.eqb (fst kv) "Signature").

Definition encode_pair (kv : string * string) : string :=
  (Urllib.quote "-_~" (fst kv) ++ "=" ++ Urllib.quote "-_~" (snd kv))%string.

(** The query line as the specification words it: the parameters other
    than [Signature], in the order of their keys, each percent-encoded with
    the safe set [-_~] and written [k=v], joined with [&]. *)
Definition canonical_query (params : list (string * string)) (q : string) : Prop :=
  exists l,
    Permutation l (List.filter not_signature params)
    /\ StronglySorted (fun a b => String.leb (fst a) (fst b) = true) l
    /\ q = Str.join "&" (map encode_pair l).

(** The host line as the specification words it: the host in lower case,
    without its port when the scheme is http and the host ends with [:80],
    or the scheme is https and the host ends with [:443]. *)
Definition default_port (scheme host : string) : bool :=
  String.eqb (Str.lower scheme) "http" && Str.endswith (Str.lower host) ":80"
  || String.eqb (Str.lower scheme) "https" && Str.endswith (Str.lower host) ":443".

Definition strip_port (scheme host : string) : string :=
  let h := Str.lower host in
  if String.eqb (Str.lower scheme) "http" && Str.endswith h ":80"
  then Str.take (String.length h - 3) h
  else if String.eqb (Str.lower scheme) "https" && Str.endswith h ":443"
  then Str.take (String.length h - 4) h
  else h.

Definition or_slash (path : string) : string :=
  if String.eqb path "" then "/" else path.

(** The base string as the specification words it, for a given query line. *)
Definition four_lines (method scheme host path q : string) : string :=
  Str.join LF [method; strip_port scheme host; or_slash path; q].

Lemma endswith_take (h sfx : string) :
  Str.endswith h sfx = true ->
  h = (Str.take (String.length h - String.length sfx) h ++ sfx)%string.
Proof.
  unfold Str.endswith. intros H. apply andb_prop in H as [_ H].
  apply String.eqb_eq in H.
  remember (String.length h - String.length sfx) as n eqn:Hn. clear Hn.
  rewrite <- H. symmetry. apply StrFacts.take_drop.
Qed.

Lemma split_no_sep (c : ascii) (p q : string) :
  Str.contains_char c p = false ->
  Str.split c (p ++ String c q) = p :: Str.split c q.
Proof.
  unfold Str.contains_char.
  induction p as [|a p IH]; intros H.
  - simpl. now rewrite Ascii.eqb_refl.
  - simpl in H. apply orb_false_elim in H as [Hac H].
    rewrite StrFacts.app_cons. cbn [Str.split].
    rewrite Ascii.eqb_sym, Hac. now rewrite (IH H).
Qed.

Lemma strip_suffix (h sfx port : string) (c : ascii) :
  sfx = String c port -> Str.contains_char c port = false ->
  Str.endswith h sfx = true ->
  Str.contains_char c (Str.take (String.length h - String.length sfx) h) = false ->
  Str.join "" (removelast (Str.split c h))
  = Str.take (String.length h - String.length sfx) h.
Proof.
  intros -> Hport Hend Hp.
  rewrite (endswith_take h _ Hend) at 1.
  rewrite (split_no_sep c _ port Hp).
  replace (Str.split c port) with [port]; [reflexivity|].
  clear -Hport. unfold Str.contains_char in Hport.
  induction port as [|a r IH]; [reflexivity|].
  simpl in Hport. apply orb_false_elim in Hport as [Hca Hr].
  cbn [Str.split]. rewrite Ascii.eqb_sym, Hca. now rewrite <- (IH Hr).
Qed.

(** [get_normalized_http_host] strips the port as the specification says
    when the port's colon is the only one of the host. *)
Lemma normalized_host (r : AuthAws.Request) :
  let scheme := AuthAws.scheme (AuthAws.url r) in
  let host := AuthAws.host (AuthAws.url r) in
  (default_port scheme host = true ->
   Str.contains_char ":" (strip_port scheme host) = false) ->
  AuthAws.get_normalized_http_host r = strip_port scheme host.
Proof.
  intros scheme host. unfold AuthAws.get_normalized_http_host, default_port, strip_port.
  fold scheme host.
  destruct (String.eqb (Str.lower scheme) "http" && Str.endswith (Str.lower host) ":80")
    eqn:H80.
  - intros Hc. specialize (Hc eq_refl). cbn [orb].
    apply andb_prop in H80 as [_ H80].
    exact (strip_suffix (Str.lower host) ":80" "80" ":" eq_refl eq_refl H80 Hc).
  - cbn [orb].
    destruct (String.eqb (Str.lower scheme) "https"
              && Str.endswith (Str.lower host) ":443") eqn:H443; [|reflexivity].
    intros Hc. specialize (Hc eq_refl).
    apply andb_prop in H443 as [_ H443].
    exact (strip_suffix (Str.lower host) ":443" "443" ":" eq_refl eq_refl H443 Hc).
Qed.

Lemma filter_perm (p : string * string -> bool) (l l' : list (string * string)) :
  Permutation l l' -> Permutation (List.filter p l) (List.filter p l').
Proof.
  induction 1 as [|x l l' _ IH|x y l|l l' l'' _ IH1 _ IH2]; simpl.
  - constructor.
  - destruct (p x); [now constructor|exact IH].
  - destruct (p x), (p y); try reflexivity. apply perm_swap.
  - now rewrite IH1.
Qed.

(** What the code emits as the query line is the canonical query. *)
Lemma sorted_query (items : list (string * string)) :
  canonical_query items
    (Str.join "&" (map encode_pair (List.filter not_signature (Sorting.sorted items)))).
Proof.
  exists (List.filter not_signature (Sorting.sorted items)). split; [|split].
  - apply filter_perm, SortingFacts.sorted_perm.
  - apply SortingFacts.sorted_by_key, SortingFacts.filter_sorted,
      SortingFacts.sorted_sorted.
  - reflexivity.
Qed.

(** C2, against the claim: [rules/aws.py] keeps the port 80 of a request
    sent over http, where the claim has it stripped; and [auth/aws.py], on
    a host with more than one colon, removes every colon with the port. *)
Lemma port_not_stripped :
  RulesAws.build_signature_base_string Samples.iam_dict
  = Ok ("AWSAccessKeyId=AKID&Action=ListUsers&Version=2010-05-08",
        ("GET" ++ LF ++ "iam.amazonaws.com:80" ++ LF ++ "/" ++ LF
         ++ "AWSAccessKeyId=AKID&Action=ListUsers&Version=2010-05-08")%string)
  /\ four_lines "GET" "http" "IAM.amazonaws.com:80" ""
       "AWSAccessKeyId=AKID&Action=ListUsers&Version=2010-05-08"
     = ("GET" ++ LF ++ "iam.amazonaws.com" ++ LF ++ "/" ++ LF
        ++ "AWSAccessKeyId=AKID&Action=ListUsers&Version=2010-05-08")%string
  /\ AuthAws.get_normalized_http_host Samples.ipv6_request = "[1]"
  /\ strip_port "http" "[::1]:80" = "[::1]".
Proof. repeat split; vm_compute; reflexivity. Qed.

(** C2, amended: the base string is four fields joined by a line feed: the
    HTTP method; the host; the path, or [/] when the path is empty; and the
    query parameters other than [Signature], in the order of their keys,
    percent-encoded with the safe set [-_~] and joined as [k=v] with [&].
    In [auth/aws.py] the host field is the host in lower case, without its
    port when the scheme is http and the host ends with [:80] or the scheme
    is https and the host ends with [:443] (for a host whose only colon is
    the port's).  In [rules/aws.py] the base string is returned with the
    query line, and its host field is the [Host] header in lower case, the
    port kept. *)
Theorem base_string_layout :
  (forall r : AuthAws.Request,
      let scheme := AuthAws.scheme (AuthAws.url r) in
      let host := AuthAws.host (AuthAws.url r) in
      let q := AuthAws.get_normalized_parameters r in
      canonical_query (map_to_list (AuthAws.parameters (AuthAws.url r))) q
      /\ ((default_port scheme host = true ->
           Str.contains_char ":" (strip_port scheme host) = false) ->
          AuthAws.build_signature_base_string r
          = four_lines (AuthAws.method r) scheme host (AuthAws.path (AuthAws.url r)) q))
  /\ (forall (sr : RulesAws.SignRequest) (h : string),
      RulesAws.sr_headers sr !! Webob.header_key "Host" = Some h ->
      exists q,
        canonical_query (RulesAws.sr_params sr) q
        /\ RulesAws.build_signature_base_string sr
           = Ok (q, Str.join LF [RulesAws.sr_method sr; Str.lower h;
                                 or_slash (RulesAws.sr_path sr); q])).
Proof.
  split.
  - intros r scheme host q. split; [apply sorted_query|].
    intros Hc. unfold AuthAws.build_signature_base_string, four_lines.
    now rewrite (normalized_host r Hc).
  - intros sr h Hh. exists (RulesAws.canonical_params (RulesAws.sr_params sr)).
    split; [apply sorted_query|].
    unfold RulesAws.build_signature_base_string. now rewrite Hh.
Qed.

Lemma base_string_layout_witness :
  AuthAws.build_signature_base_string Samples.iam_request
  = ("GET" ++ LF ++ "iam.amazonaws.com" ++ LF ++ "/" ++ LF
     ++ "AWSAccessKeyId=AKID&Action=ListUsers&SignatureMethod=HmacSHA256"
     ++ "&SignatureVersion=2&Timestamp=2011-01-01T00%3A00%3A00&Version=2010-05-08")%string.
Proof.
  rewrite (proj2 (proj1 base_string_layout Samples.iam_request)).
  - vm_compute. reflexivity.
  - intros _. vm_compute. reflexivity.
Defined.

End CanonicalFacts.

(** ** Re-signing a request ([AWSSignModifyRule.__call__]) *)

Module SignFacts.
Import Webob.

Definition FORM : string := "application/x-www-form-urlencoded".

Section Library.

Variable hmac_digest : RulesAws.SignatureMethod -> string -> string -> string.
Variable strftime : Z -> string.

Abbreviation sign := (RulesAws.sign hmac_digest strftime).

(** The parameters the rule signs: those of the request, with the four it
    sets. *)
Definition signed_params (self : RulesAws.AWSSignModifyRule) (now : Q)
    (request : Request) : gmap string string :=
  <["Timestamp" := RulesAws.generate_timestamp strftime now]>
  (<["SignatureMethod" := RulesAws.signature_method self]>
  (<["SignatureVersion" := RulesAws.signature_version self]>
  (<["AWSAccessKeyId" := RulesAws.key self]> (params_dict (params request))))).

Lemma signed_params_set (self : RulesAws.AWSSignModifyRule) (now : Q) (request : Request) :
  signed_params self now request !! "AWSAccessKeyId" = Some (RulesAws.key self)
  /\ signed_params self now request !! "SignatureVersion"
     = Some (RulesAws.signature_version self)
  /\ signed_params self now request !! "SignatureMethod"
     = Some (RulesAws.signature_method self)
  /\ signed_params self now request !! "Timestamp"
     = Some (RulesAws.generate_timestamp strftime now).
Proof.
  unfold signed_params. repeat split;
    repeat (rewrite lookup_insert_ne by discriminate); apply lookup_insert_eq.
Qed.

(** The URL the rule starts from: the override if a rule set one, else the
    request's own. *)
Definition start_url (request : Request) : option string :=
  match getattr request "goldengate_url" with
  | Some v => v
  | None => Some (url request)
  end.

(** On a request whose URL has a query string and that has a [Host]
    header, the rule does what the specification says: it removes the
    [Authorization] header and writes the canonical parameters and the
    signature into the body of a form-encoded request, and into the
    override URL, in place of the query string, otherwise. *)
Lemma sign_with_query (self : RulesAws.AWSSignModifyRule) (now : Q) (request : Request)
    (u0 u q h : string) :
  start_url request = Some u0 -> Str.split1 "?" u0 = [u; q] ->
  headers request !! header_key "Host" = Some h ->
  let stripped := set_headers (delete (header_key "Authorization") (headers request))
                              request in
  let canonical := RulesAws.canonical_params
                     (map_to_list (signed_params self now request)) in
  let base := Str.join CanonicalFacts.LF
                [method request; Str.lower h; CanonicalFacts.or_slash (path request);
                 canonical] in
  let signed :=
    (canonical ++ "&Signature="
     ++ Urllib.quote_plus
          (Base64.b64encode
             (hmac_digest (RulesAws.signer self) (RulesAws.secret self) base)))%string in
  headers stripped !! header_key "Authorization" = None
  /\ sign self now request
     = Ok (if String.eqb (content_type request) FORM
           then set_body signed stripped
           else setattr "goldengate_url" (Some (u ++ "?" ++ signed)%string) stripped).
Proof.
  intros Hu Hsplit Hh stripped canonical base signed.
  split; [apply lookup_delete_eq|].
  assert (Hh' : delete (header_key "Authorization") (headers request)
                !! header_key "Host" = Some h)
    by (rewrite lookup_delete_ne by discriminate; exact Hh).
  unfold RulesAws.sign. unfold start_url in Hu.
  destruct (getattr request "goldengate_url") as [[v|]|]; try discriminate;
    injection Hu as ->; cbn [bind]; rewrite Hsplit; cbn [bind fst snd];
    unfold RulesAws.build_signature, RulesAws.build_signature_base_string;
    cbn [set_headers headers params method path content_type adhoc
         RulesAws.sr_headers RulesAws.sr_params RulesAws.sr_method RulesAws.sr_path];
    rewrite Hh'; cbn [bind fst snd];
    fold (signed_params self now request); fold canonical;
    destruct (String.eqb (content_type request) FORM) eqn:Hct;
    unfold FORM in Hct; rewrite Hct; reflexivity.
Qed.

(** C7, at the input where the code departs from it: a request whose URL
    has no query string.  [url.split('?', 1)] gives one piece, the
    unpacking into [url, query] raises [ValueError], and the request is
    neither re-signed nor written to. *)
Theorem sign_without_query_raises :
  forall (self : RulesAws.AWSSignModifyRule) (now : Q),
    Str.split1 "?" (url Samples.form_post) = [url Samples.form_post]
    /\ sign self now Samples.form_post
       = Raise (ValueError "need more than 1 value to unpack").
Proof. intros self now. split; reflexivity. Qed.

(** The failure is that of every request whose URL has no [?]. *)
Lemma sign_needs_query (self : RulesAws.AWSSignModifyRule) (now : Q) (request : Request)
    (u0 : string) :
  start_url request = Some u0 -> Str.contains_char "?" u0 = false ->
  sign self now request = Raise (ValueError "need more than 1 value to unpack").
Proof.
  intros Hu Hq.
  assert (Hsplit : Str.split1 "?" u0 = [u0]).
  { clear Hu. unfold Str.contains_char in Hq.
    induction u0 as [|a r IH]; [reflexivity|].
    cbn [existsb list_ascii_of_string] in Hq. apply orb_false_elim in Hq as [Ha Hr].
    cbn [Str.split1]. rewrite Ascii.eqb_sym, Ha. now rewrite (IH Hr). }
  unfold RulesAws.sign. unfold start_url in Hu.
  destruct (getattr request "goldengate_url") as [[v|]|]; try discriminate;
    injection Hu as ->; cbn [bind]; now rewrite Hsplit.
Qed.

End Library.

Example sign_get :
  RulesAws.sign (fun m => Samples.toy_hmac (RulesAws.name m)) Clock.strftime
    Samples.signing_rule (inject_Z 1293840000) Samples.query_get
  = Ok (setattr "goldengate_url"
             (Some ("https://iam.amazonaws.com/?AWSAccessKeyId=AKID&Action=ListUsers"
                    ++ "&SignatureMethod=HmacSHA256&SignatureVersion=2"
                    ++ "&Timestamp=2011-01-01T00%3A00%3A00&Version=2010-05-08&Signature="
                    ++ Urllib.quote_plus
                         (Base64.b64encode
                            (Samples.toy_hmac "HmacSHA256" "wJalrXUtnFEMI"
                               ("GET" ++ CanonicalFacts.LF ++ "iam.amazonaws.com"
                                ++ CanonicalFacts.LF ++ "/" ++ CanonicalFacts.LF
                                ++ "AWSAccessKeyId=AKID&Action=ListUsers"
                                ++ "&SignatureMethod=HmacSHA256&SignatureVersion=2"
                                ++ "&Timestamp=2011-01-01T00%3A00%3A00"
                                ++ "&Version=2010-05-08"))))%string)
          (set_headers (delete (header_key "Authorization")
                          (headers Samples.query_get)) Samples.query_get)).
Proof. vm_compute. reflexivity. Qed.

End SignFacts.

(** ** The percent-encoding loses nothing *)

Module EncodingFacts.

Definition SAFE : string := "-_~".

Lemma contains_char_app (c : ascii) (a b : string) :
  Str.contains_char c (a ++ b)
  = Str.contains_char c a || Str.contains_char c b.
Proof.
  unfold Str.contains_char. induction a as [|x a IH]; [reflexivity|].
  rewrite StrFacts.app_cons. cbn [list_ascii_of_string existsb].
  now rewrite IH, orb_assoc.
Qed.

Lemma split_sep_free (c : ascii) (s : string) :
  Str.contains_char c s = false -> Str.split c s = [s].
Proof.
  unfold Str.contains_char. induction s as [|a r IH]; [reflexivity|].
  cbn [list_ascii_of_string existsb]. intros H.
  apply orb_false_elim in H as [Ha Hr].
  cbn [Str.split]. rewrite Ascii.eqb_sym, Ha. now rewrite (IH Hr).
Qed.

Lemma app_inv_head (a x y : string) : (a ++ x = a ++ y)%string -> x = y.
Proof.
  induction a as [|c a IH]; [trivial|].
  rewrite !StrFacts.app_cons. intros [= H]. auto.
Qed.

(** The inverse of [quote]: a percent sign and two hexadecimal digits
    stand for one byte. *)
Definition hex_value (c : ascii) : nat :=
  match String.index 0 (String c EmptyString) "0123456789ABCDEF" with
  | Some n => n
  | None => 0
  end.

Fixpoint unquote (s : string) : string :=
  match s with
  | EmptyString => EmptyString
  | String c r =>
      if Ascii.eqb c "%"
      then match r with
           | String h1 (String h2 r') =>
               String (Str.chr (16 * hex_value h1 + hex_value h2)) (unquote r')
           | _ => s
           end
      else String c (unquote r)
  end.

Lemma unquote_quote_char (c : ascii) (r : string) :
  unquote (Urllib.quote_char SAFE c ++ r) = String c (unquote r).
Proof. destruct c as [[] [] [] [] [] [] [] []]; reflexivity. Qed.

Lemma unquote_quote (s : string) : unquote (Urllib.quote SAFE s) = s.
Proof.
  induction s as [|c s IH]; [reflexivity|].
  cbn [Urllib.quote]. now rewrite unquote_quote_char, IH.
Qed.

Lemma quote_inj (s t : string) :
  Urllib.quote SAFE s = Urllib.quote SAFE t -> s = t.
Proof. intros H. now rewrite <- (unquote_quote s), H, unquote_quote. Qed.

(** Neither separator of the query line occurs in an encoded string. *)
Lemma quote_char_no_amp (c : ascii) :
  Str.contains_char "&" (Urllib.quote_char SAFE c) = false.
Proof. destruct c as [[] [] [] [] [] [] [] []]; reflexivity. Qed.

Lemma quote_char_no_eq (c : ascii) :
  Str.contains_char "=" (Urllib.quote_char SAFE c) = false.
Proof. destruct c as [[] [] [] [] [] [] [] []]; reflexivity. Qed.

Lemma quote_no_amp (s : string) : Str.contains_char "&" (Urllib.quote SAFE s) = false.
Proof.
  induction s as [|c s IH]; [reflexivity|].
  cbn [Urllib.quote]. now rewrite contains_char_app, quote_char_no_amp, IH.
Qed.

Lemma quote_no_eq (s : string) : Str.contains_char "=" (Urllib.quote SAFE s) = false.
Proof.
  induction s as [|c s IH]; [reflexivity|].
  cbn [Urllib.quote]. now rewrite contains_char_app, quote_char_no_eq, IH.
Qed.

Lemma encode_pair_no_amp (kv : string * string) :
  Str.contains_char "&" (CanonicalFacts.encode_pair kv) = false.
Proof.
  unfold CanonicalFacts.encode_pair. fold SAFE.
  now rewrite !contains_char_app, !quote_no_amp.
Qed.

Lemma encode_pair_split (kv : string * string) :
  Str.split "=" (CanonicalFacts.encode_pair kv)
  = [Urllib.quote SAFE (fst kv); Urllib.quote SAFE (snd kv)].
Proof.
  unfold CanonicalFacts.encode_pair. fold SAFE.
  change ("=" ++ Urllib.quote SAFE (snd kv))%string
    with (String "=" (Urllib.quote SAFE (snd kv))).
  rewrite (CanonicalFacts.split_no_sep "=" _ _ (quote_no_eq (fst kv))).
  now rewrite (split_sep_free "=" _ (quote_no_eq (snd kv))).
Qed.

Lemma encode_pair_inj (a b : string * string) :
  CanonicalFacts.encode_pair a = CanonicalFacts.encode_pair b -> a = b.
Proof.
  intros H. apply (f_equal (Str.split "=")) in H.
  rewrite !encode_pair_split in H. injection H as Hk Hv.
  apply quote_inj in Hk, Hv. destruct a, b; simpl in *. now subst.
Qed.

Lemma encode_pair_nonempty (kv : string * string) :
  CanonicalFacts.encode_pair kv <> EmptyString.
Proof.
  intros H. apply (f_equal (Str.split "=")) in H.
  rewrite encode_pair_split in H. discriminate.
Qed.

Lemma split_join (c : ascii) (pieces : list string) :
  pieces <> [] ->
  List.Forall (fun p => Str.contains_char c p = false) pieces ->
  Str.split c (Str.join (String c EmptyString) pieces) = pieces.
Proof.
  intros Hne H. induction H as [|p rest Hp Hrest IH]; [contradiction|].
  destruct rest as [|q rest].
  - exact (split_sep_free c p Hp).
  - change (Str.join (String c EmptyString) (p :: q :: rest))
      with (p ++ String c (Str.join (String c EmptyString) (q :: rest)))%string.
    rewrite (CanonicalFacts.split_no_sep c _ _ Hp). f_equal. now apply IH.
Qed.

Lemma map_encode_inj (l l' : list (string * string)) :
  map CanonicalFacts.encode_pair l = map CanonicalFacts.encode_pair l' -> l = l'.
Proof.
  revert l'. induction l as [|a l IH]; intros [|b l']; simpl; try discriminate;
    [reflexivity|].
  intros [= Ha Hl]. f_equal; [now apply encode_pair_inj|now apply IH].
Qed.

(** Different lists of pairs have different query lines. *)
Lemma urlencode_inj (l l' : list (string * string)) :
  AuthAws.urlencode l = AuthAws.urlencode l' -> l = l'.
Proof.
  unfold AuthAws.urlencode.
  change (fun kv : string * string =>
            (Urllib.quote "-_~" (fst kv) ++ "=" ++ Urllib.quote "-_~" (snd kv))%string)
    with CanonicalFacts.encode_pair.
  intros H. apply map_encode_inj.
  assert (Hfree : forall l0, List.Forall (fun p => Str.contains_char "&" p = false)
                               (map CanonicalFacts.encode_pair l0)).
  { intros l0. apply List.Forall_forall. intros p Hin.
    apply List.in_map_iff in Hin as (kv & <- & _). apply encode_pair_no_amp. }
  apply (f_equal (Str.split "&")) in H.
  destruct l as [|a l], l' as [|b l']; [reflexivity| | |].
  - rewrite (split_join "&" (map _ (b :: l'))) in H by (discriminate || apply Hfree).
    simpl in H. injection H as H _. symmetry in H.
    now apply encode_pair_nonempty in H.
  - rewrite (split_join "&" (map _ (a :: l))) in H by (discriminate || apply Hfree).
    simpl in H. injection H as H _. now apply encode_pair_nonempty in H.
  - rewrite !split_join in H by (discriminate || apply Hfree). exact H.
Qed.

End EncodingFacts.

(** ** Strings of bounded length are finitely many *)

Module FiniteFacts.

Definition all_ascii : list ascii := map ascii_of_nat (seq 0 256).

Lemma all_ascii_complete (c : ascii) : In c all_ascii.
Proof.
  rewrite <- (ascii_nat_embedding c). apply List.in_map, List.in_seq.
  pose proof (nat_ascii_bounded c). lia.
Qed.

(** Every string of length at most [n]. *)
Fixpoint all_strings (n : nat) : list string :=
  match n with
  | O => [EmptyString]
  | S k =>
      EmptyString
      :: flat_map (fun s => map (fun c => String c s) all_ascii) (all_strings k)
  end.

Lemma all_strings_complete (n : nat) (s : string) :
  (String.length s <= n)%nat -> In s (all_strings n).
Proof.
  revert s. induction n as [|n IH]; intros [|c r] Hlen;
    cbn [String.length] in Hlen; try (now left); try lia.
  right. apply List.in_flat_map. exists r. split; [apply IH; lia|].
  apply (List.in_map (fun c => String c r)), all_ascii_complete.
Qed.

(** More values than there are strings of bounded length cannot all have
    different images of bounded length. *)
Lemma no_injection (f : nat -> string) (g : string -> string) (bound : nat) :
  (forall n, exists d, (String.length d <= bound)%nat /\ f n = g d) ->
  ~ (forall x y, f x = f y -> x = y).
Proof.
  intros Himg Hinj.
  set (codomain := map g (all_strings bound)).
  set (inputs := seq 0 (S (length codomain))).
  assert (Hnodup : List.NoDup (map f inputs)).
  { apply List.NoDup_map_NoDup_ForallPairs; [|apply List.seq_NoDup].
    intros x y _ _. apply Hinj. }
  assert (Hincl : incl (map f inputs) codomain).
  { intros v Hv. apply List.in_map_iff in Hv as (n & <- & _).
    destruct (Himg n) as (d & Hd & ->).
    apply List.in_map. now apply all_strings_complete. }
  pose proof (List.NoDup_incl_length Hnodup Hincl) as Hlen.
  unfold inputs in Hlen. rewrite List.length_map, List.length_seq in Hlen. lia.
Qed.

End FiniteFacts.

(** ** Signing and verifying ([signed_request], [authenticate]) *)

Module AuthFacts.
Import AuthAws.

Lemma b64encode_nonempty (d : string) :
  d <> EmptyString -> Base64.b64encode d <> EmptyString.
Proof.
  intros Hd. unfold Base64.b64encode. destruct d as [|c r]; [contradiction|].
  cbn [list_ascii_of_string map].
  destruct (map N_of_ascii (list_ascii_of_string r)) as [|b [|e l]];
    cbn [Base64.encode_bytes string_of_list_ascii]; discriminate.
Qed.

Lemma pair_le_antisym (a b : string * string) :
  SortingFacts.pair_le a b -> SortingFacts.pair_le b a -> a = b.
Proof.
  unfold SortingFacts.pair_le, Sorting.pair_leb.
  rewrite (String.compare_antisym (fst b) (fst a)).
  destruct (String.compare (fst a) (fst b)) eqn:Hk; simpl; try discriminate.
  apply SortingFacts.compare_eq in Hk. intros H1 H2.
  destruct a, b; simpl in *. subst. f_equal. now apply String.leb_antisym.
Qed.

(** Two lists with the same elements have the same [sorted]. *)
Lemma sorted_unique (l l' : list (string * string)) :
  Permutation l l' -> Sorting.sorted l = Sorting.sorted l'.
Proof.
  intros Hp.
  apply (StronglySorted_unique_strong SortingFacts.pair_le).
  - intros a b _ _. apply pair_le_antisym.
  - apply SortingFacts.sorted_sorted.
  - apply SortingFacts.sorted_sorted.
  - transitivity l; [apply SortingFacts.sorted_perm|].
    transitivity l'; [exact Hp|]. symmetry. apply SortingFacts.sorted_perm.
Qed.

Lemma filter_id (p : string * string -> bool) (l : list (string * string)) :
  List.Forall (fun x => p x = true) l -> List.filter p l = l.
Proof.
  induction 1 as [|x l Hx _ IH]; simpl; [reflexivity|]. now rewrite Hx, IH.
Qed.

Lemma filter_sorted_commute (p : string * string -> bool) (l : list (string * string)) :
  List.filter p (Sorting.sorted l) = Sorting.sorted (List.filter p l).
Proof.
  apply (StronglySorted_unique_strong SortingFacts.pair_le).
  - intros a b _ _. apply pair_le_antisym.
  - apply SortingFacts.filter_sorted, SortingFacts.sorted_sorted.
  - apply SortingFacts.sorted_sorted.
  - transitivity (List.filter p l).
    + apply CanonicalFacts.filter_perm, SortingFacts.sorted_perm.
    + symmetry. apply SortingFacts.sorted_perm.
Qed.

(** The entries of a dict other than [Signature] are those of the dict
    without it. *)
Lemma items_without_signature (m : gmap string string) :
  Permutation (List.filter CanonicalFacts.not_signature (map_to_list m))
              (map_to_list (delete "Signature" m)).
Proof.
  assert (Hall : List.Forall (fun x => CanonicalFacts.not_signature x = true)
                   (map_to_list (delete "Signature" m))).
  { apply List.Forall_forall. intros [k v] Hin.
    apply list_elem_of_In, elem_of_map_to_list in Hin.
    unfold CanonicalFacts.not_signature. simpl.
    apply negb_true_iff, String.eqb_neq. intros ->.
    now rewrite lookup_delete_eq in Hin. }
  destruct (m !! "Signature") as [v|] eqn:Hs.
  - rewrite (CanonicalFacts.filter_perm _ _ _
               (Permutation_sym (map_to_list_delete m "Signature" v Hs))).
    simpl. now rewrite (filter_id _ _ Hall).
  - rewrite (delete_id m "Signature" Hs) in *. now rewrite (filter_id _ _ Hall).
Qed.

(** The query line is that of the parameters without [Signature]. *)
Lemma normalized_parameters_delete (r : Request) :
  get_normalized_parameters r
  = urlencode (Sorting.sorted (map_to_list (delete "Signature" (parameters (url r))))).
Proof.
  unfold get_normalized_parameters. f_equal.
  change (fun kv : string * string => negb (String.eqb (fst kv) "Signature"))
    with CanonicalFacts.not_signature.
  rewrite filter_sorted_commute. apply sorted_unique, items_without_signature.
Qed.

(** Requests that differ in their [Signature] only have the same base
    string. *)
Lemma base_string_ignores_signature (r : Request) (sig : string) :
  build_signature_base_string
    (_clone r (clone_url (url r) (<["Signature" := sig]> (parameters (url r)))))
  = build_signature_base_string r.
Proof.
  unfold build_signature_base_string. rewrite !normalized_parameters_delete.
  cbn [url _clone clone_url parameters]. rewrite delete_insert_eq.
  reflexivity.
Qed.

(** Requests that differ in their parameters only and have the same base
    string have the same parameters, [Signature] apart. *)
Lemma base_string_inj (r : Request) (p : gmap string string) :
  build_signature_base_string (_clone r (clone_url (url r) p))
  = build_signature_base_string r ->
  delete "Signature" p = delete "Signature" (parameters (url r)).
Proof.
  unfold build_signature_base_string, get_normalized_http_method,
    get_normalized_http_host, get_normalized_http_path.
  cbn [url _clone clone_url method host scheme path].
  cbn [Str.join]. intros H.
  repeat apply EncodingFacts.app_inv_head in H.
  rewrite !normalized_parameters_delete in H.
  cbn [url parameters _clone clone_url] in H.
  apply EncodingFacts.urlencode_inj in H.
  apply map_to_list_inj.
  transitivity (Sorting.sorted (map_to_list (delete "Signature" p)));
    [symmetry; apply SortingFacts.sorted_perm|].
  rewrite H. apply SortingFacts.sorted_perm.
Qed.

Lemma same_signature_same_rest (p q : gmap string string) :
  p !! "Signature" = q !! "Signature" ->
  delete "Signature" p = delete "Signature" q -> p = q.
Proof.
  intros Hs Hd. apply map_eq. intros i.
  destruct (decide (i = "Signature")) as [->|Hne]; [exact Hs|].
  rewrite <- (lookup_delete_ne p "Signature" i), <- (lookup_delete_ne q "Signature" i)
    by congruence.
  now rewrite Hd.
Qed.

Lemma get_signature_method_found (m : SignatureMethod) :
  get_signature_method (name m) (version m) = Ok m.
Proof. destruct m; reflexivity. Qed.

Section Library.

Variable hmac_digest : SignatureMethod -> string -> string -> string.
Variable strftime : Z -> string.
Variable strptime : string -> option Z.

Abbreviation build_signature := (AuthAws.build_signature hmac_digest).
Abbreviation signed_request := (AuthAws.signed_request hmac_digest strftime).
Abbreviation authenticate := (AuthAws.authenticate hmac_digest strptime).

(** The parameters [signed_request] signs. *)
Definition prepared_parameters (now : Q) (r : Request) (m : SignatureMethod)
    (aws_key : string) : gmap string string :=
  <["Timestamp" := generate_timestamp strftime now]>
  (<["SignatureMethod" := name m]>
  (<["SignatureVersion" := version m]>
  (<["AWSAccessKeyId" := aws_key]> (parameters (url r))))).

Definition prepared (now : Q) (r : Request) (m : SignatureMethod) (aws_key : string)
  : Request :=
  _clone r (clone_url (url r) (prepared_parameters now r m aws_key)).

Lemma signed_request_eq (now : Q) (r : Request) (m : SignatureMethod)
    (aws_key aws_secret : string) :
  signed_request now r m aws_key aws_secret
  = _clone (prepared now r m aws_key)
      (clone_url (url (prepared now r m aws_key))
         (<["Signature" := build_signature m (prepared now r m aws_key) aws_secret]>
            (parameters (url (prepared now r m aws_key))))).
Proof. reflexivity. Qed.

(** The signature a signed request carries is the signature of the
    request itself. *)
Lemma signed_request_signature (now : Q) (r : Request) (m : SignatureMethod)
    (aws_key aws_secret : string) :
  parameters (url (signed_request now r m aws_key aws_secret)) !! "Signature"
  = Some (build_signature m (signed_request now r m aws_key aws_secret) aws_secret).
Proof.
  rewrite signed_request_eq at 1. cbn [url _clone clone_url parameters].
  rewrite lookup_insert_eq. f_equal. unfold AuthAws.build_signature.
  rewrite signed_request_eq. now rewrite base_string_ignores_signature.
Qed.

Lemma signed_request_parameters (now : Q) (r : Request) (m : SignatureMethod)
    (aws_key aws_secret : string) :
  let p := parameters (url (signed_request now r m aws_key aws_secret)) in
  p !! "AWSAccessKeyId" = Some aws_key
  /\ p !! "SignatureMethod" = Some (name m)
  /\ p !! "SignatureVersion" = Some (version m)
  /\ p !! "Timestamp" = Some (strftime (Qfloor now)).
Proof.
  cbn [url _clone clone_url parameters AuthAws.signed_request]. repeat split;
    repeat (rewrite lookup_insert_ne by discriminate); apply lookup_insert_eq.
Qed.

(** Round trip: a request signed at [now] with a credential of the store
    is authenticated as the credential's entity, as long as the clock has
    not gone back behind the timestamp and not more than the threshold
    beyond it. *)
Lemma round_trip (credentials : gmap string Credential) (cred : Credential)
    (r : Request) (m : SignatureMethod) (aws_key : string) (now now1 now2 : Q)
    (pick : Z) :
  for_key credentials aws_key = Some cred ->
  strptime (strftime (Qfloor now)) = Some (Qfloor now) ->
  (forall msg, hmac_digest m (secret cred) msg <> EmptyString) ->
  (inject_Z (Qfloor now) <= now1)%Q ->
  (now2 - 300 <= inject_Z (Qfloor now))%Q ->
  authenticate credentials now1 now2 pick (signed_request now r m aws_key (secret cred))
  = Ok (entity cred).
Proof.
  intros Hcred Hparse Hdigest Hnow1 Hnow2.
  destruct (signed_request_parameters now r m aws_key (secret cred))
    as (Hk & Hm & Hv & Ht).
  pose proof (signed_request_signature now r m aws_key (secret cred)) as Hs.
  unfold AuthAws.authenticate. rewrite Hk, Hs, Hm, Hv, Ht, Hparse.
  replace (bad_timestamp now1 now2 (Qfloor now)) with false.
  2:{ symmetry. apply not_true_iff_false.
      rewrite TimestampFacts.bad_timestamp_iff.
      change (inject_Z TIMESTAMP_THRESHOLD) with 300%Q. lra. }
  rewrite Hcred, get_signature_method_found. cbn [bind].
  replace (_clone (signed_request now r m aws_key (secret cred))
             (url (signed_request now r m aws_key (secret cred))))
    with (signed_request now r m aws_key (secret cred)) by reflexivity.
  rewrite AuthCompareFacts.are_equal_nonempty.
  - cbn [bind]. now rewrite String.eqb_refl.
  - apply b64encode_nonempty, Hdigest.
Qed.

(** A request whose parameters were altered, [Signature] apart, has
    another base string; it is rejected as long as the signature function
    does not give the two base strings the same signature. *)
Lemma tampered (r : Request) (p' : gmap string string) (sig : string) :
  parameters (url r) !! "Signature" = Some sig ->
  p' !! "Signature" = Some sig ->
  p' <> parameters (url r) ->
  let t := _clone r (clone_url (url r) p') in
  build_signature_base_string t <> build_signature_base_string r
  /\ ((forall m' s', build_signature m' t s' = sig ->
                     build_signature_base_string t = build_signature_base_string r) ->
      forall credentials now1 now2 pick,
        raises (authenticate credentials now1 now2 pick t)).
Proof.
  intros Hr Hp Hne t.
  assert (Hbase : build_signature_base_string t <> build_signature_base_string r).
  { intros Hb. apply Hne. apply same_signature_same_rest; [congruence|].
    now apply base_string_inj. }
  split; [exact Hbase|].
  intros Hsig credentials now1 now2 pick.
  unfold AuthAws.authenticate, raises. subst t.
  cbn [url _clone clone_url parameters]. rewrite Hp.
  repeat match goal with
         | |- context [match ?x with _ => _ end] =>
             match type of x with
             | option _ => destruct x
             | bool => destruct x
             end
         end; eauto.
  destruct (get_signature_method _ _) as [signer|e0]; cbn [bind]; [|eauto].
  match goal with
  | |- context [_are_equal pick sig ?e] =>
      destruct (_are_equal pick sig e) as [[|]|] eqn:Heq; cbn [bind]; eauto
  end.
  apply AuthCompareFacts.are_equal_returns in Heq.
  symmetry in Heq. apply String.eqb_eq in Heq.
  exfalso. apply Hbase. eapply Hsig. symmetry. exact Heq.
Qed.

(** C1, amended: a request signed by [signed_request], with either
    signature method and a credential of the store, is authenticated as the
    credential's entity when it is verified while its timestamp is neither
    in the future nor more than 300 seconds old.  Altering (changing, adding
    or removing) any query parameter other than [Signature] in the signed
    request changes the signature base string, and verification then fails
    for every credential store, clock and random draw, as long as the
    signature function (the base64 form of the HMAC) does not give the
    altered base string the signature of the original one. *)
Theorem sign_then_verify (credentials : gmap string Credential) (cred : Credential)
    (r : Request) (m : SignatureMethod) (aws_key : string) (now : Q) :
  for_key credentials aws_key = Some cred ->
  strptime (strftime (Qfloor now)) = Some (Qfloor now) ->
  (forall msg, hmac_digest m (secret cred) msg <> EmptyString) ->
  let signed := signed_request now r m aws_key (secret cred) in
  (forall now1 now2 pick,
      (inject_Z (Qfloor now) <= now1)%Q -> (now2 - 300 <= inject_Z (Qfloor now))%Q ->
      authenticate credentials now1 now2 pick signed = Ok (entity cred))
  /\ (forall p',
      p' !! "Signature" = parameters (url signed) !! "Signature" ->
      p' <> parameters (url signed) ->
      let altered := _clone signed (clone_url (url signed) p') in
      build_signature_base_string altered <> build_signature_base_string signed
      /\ ((forall m' s',
              build_signature m' altered s' = build_signature m signed (secret cred) ->
              build_signature_base_string altered = build_signature_base_string signed) ->
          forall credentials' now1 now2 pick,
            raises (authenticate credentials' now1 now2 pick altered))).
Proof.
  intros Hcred Hparse Hdigest signed. split.
  - intros now1 now2 pick H1 H2. now apply round_trip.
  - intros p' Hp Hne.
    pose proof (signed_request_signature now r m aws_key (secret cred)) as Hs.
    fold signed in Hs. rewrite Hs in Hp.
    exact (tampered signed p' _ Hs Hp Hne).
Qed.

(** What the random generator draws in [_are_equal] has no part in the
    verdict of the authenticator. *)
Lemma authenticate_ignores_draw (credentials : gmap string Credential)
    (now1 now2 : Q) (pick pick' : Z) (r : Request) :
  authenticate credentials now1 now2 pick r
  = authenticate credentials now1 now2 pick' r.
Proof.
  unfold AuthAws.authenticate.
  repeat match goal with
         | |- context [match ?x with _ => _ end] =>
             match type of x with
             | option _ => destruct x
             | bool => destruct x
             end
         end; try reflexivity.
  destruct (get_signature_method _ _) as [signer|e0]; cbn [bind]; [|reflexivity].
  now rewrite (AuthCompareFacts.are_equal_ignores_draw pick pick').
Qed.

(** C10: the signature comparison is string equality, and the random
    rotation has no part in it.  For every value the rotation index may
    take, that is, for every index from 0 to the length of [a] minus 1,
    [_are_equal(a, b)] returns true if and only if [a] equals [b]; more
    than that, on every pair of strings that are not both empty it returns
    [a == b] whatever number the generator answers, and on every pair of
    strings two draws give the same outcome.  (Two empty strings leave the
    index no value to take; the authenticator never compares two empty
    strings, the expected signature being the base64 form of a digest that
    is not empty.)  Hence the comparison the authenticator makes is the
    equality of the request's signature with the expected one, and the
    verdict of [authenticate] is the same for every draw: a function of the
    request, the credential store and the clock alone. *)
Theorem comparison_is_equality :
  (forall (a b : string) (pick : Z),
      (0 <= pick <= Z.of_nat (String.length a) - 1)%Z ->
      (_are_equal pick a b = Ok true <-> a = b)
      /\ (_are_equal pick a b = Ok false <-> a <> b))
  /\ (forall (a b : string) (pick : Z),
        a <> EmptyString \/ b <> EmptyString ->
        _are_equal pick a b = Ok (String.eqb a b))
  /\ (forall (a b : string) (pick pick' : Z),
        _are_equal pick a b = _are_equal pick' a b)
  /\ ((forall m k msg, hmac_digest m k msg <> EmptyString) ->
      forall (signature : string) (signer : SignatureMethod) (r : Request)
             (aws_secret : string) (pick : Z),
        _are_equal pick signature (build_signature signer r aws_secret)
        = Ok (String.eqb signature (build_signature signer r aws_secret)))
  /\ (forall (credentials : gmap string Credential) (now1 now2 : Q) (pick pick' : Z)
             (r : Request),
        authenticate credentials now1 now2 pick r
        = authenticate credentials now1 now2 pick' r).
Proof.
  assert (Hne : forall (a b : string) (pick : Z),
             a <> EmptyString \/ b <> EmptyString ->
             _are_equal pick a b = Ok (String.eqb a b)).
  { intros a b pick [Ha|Hb]; [|now apply AuthCompareFacts.are_equal_nonempty].
    destruct b as [|c r];
      [|apply AuthCompareFacts.are_equal_nonempty; discriminate].
    destruct a as [|c r]; [contradiction|reflexivity]. }
  split; [|split; [exact Hne|split; [|split]]].
  - intros a b pick Hpick.
    assert (Ha : a <> EmptyString) by (intros ->; simpl in Hpick; lia).
    rewrite (Hne a b pick (or_introl Ha)).
    destruct (String.eqb_spec a b) as [Heq|Hneq]; split; split;
      congruence.
  - intros a b pick pick'. apply AuthCompareFacts.are_equal_ignores_draw.
  - intros Hdigest signature signer r aws_secret pick.
    apply AuthCompareFacts.are_equal_nonempty, b64encode_nonempty, Hdigest.
  - intros. apply authenticate_ignores_draw.
Qed.

(** The second sentence of the claim as it stands: whatever parameter
    other than [Signature] is altered in a signed request, verification
    fails. *)
Definition detects_every_mutation : Prop :=
  forall (credentials : gmap string Credential) (cred : Credential) (r : Request)
         (m : SignatureMethod) (aws_key : string) (now now1 now2 : Q) (pick : Z)
         (p' : gmap string string),
    for_key credentials aws_key = Some cred ->
    let signed := signed_request now r m aws_key (secret cred) in
    p' !! "Signature" = parameters (url signed) !! "Signature" ->
    p' <> parameters (url signed) ->
    raises (authenticate credentials now1 now2 pick
              (_clone signed (clone_url (url signed) p'))).

Fixpoint letters (n : nat) : string :=
  match n with
  | O => EmptyString
  | S k => String "a" (letters k)
  end.

Lemma letters_length (n : nat) : String.length (letters n) = n.
Proof. induction n as [|n IH]; simpl; [reflexivity|now rewrite IH]. Qed.

(** No keyed digest of bounded length detects every mutation: among the
    requests [Action=a], [Action=aa], ... two have the same signature, and
    turning one into the other leaves a request that verifies. *)
Lemma bounded_mac_misses_a_mutation (bound : nat) (now : Q) :
  (forall m k msg, (String.length (hmac_digest m k msg) <= bound)%nat) ->
  (forall m k msg, hmac_digest m k msg <> EmptyString) ->
  strptime (strftime (Qfloor now)) = Some (Qfloor now) ->
  ~ detects_every_mutation.
Proof.
  intros Hbound Hnonempty Hparse Hdetects.
  set (cred := {| secret := "s"; entity := "e" |}).
  set (credentials := <["k" := cred]> (∅ : gmap string Credential)).
  set (R := fun n => {| method := "GET";
                        url := {| scheme := "http"; host := "h"; path := "/";
                                  parameters := <["Action" := letters n]> ∅ |} |}).
  set (signed := fun n => signed_request now (R n) SignatureMethod_HMAC_SHA256 "k" "s").
  set (f := fun n => build_signature SignatureMethod_HMAC_SHA256 (signed n) "s").
  assert (Hfor : for_key credentials "k" = Some cred) by apply lookup_insert_eq.
  assert (Haction : forall n, parameters (url (signed n)) !! "Action" = Some (letters n)).
  { intros n. unfold signed, AuthAws.signed_request.
    cbn [url _clone clone_url parameters R].
    repeat (rewrite lookup_insert_ne by discriminate). apply lookup_insert_eq. }
  apply (FiniteFacts.no_injection f Base64.b64encode bound).
  - intros n. eexists. split; [apply Hbound|reflexivity].
  - intros x y Hxy. destruct (Nat.eq_dec x y) as [|Hne]; [assumption|]. exfalso.
    pose proof (Hdetects credentials cred (R x) SignatureMethod_HMAC_SHA256 "k" now
                  (inject_Z (Qfloor now)) (inject_Z (Qfloor now)) 0%Z
                  (parameters (url (signed y))) Hfor) as H.
    cbv zeta in H.
    change (signed_request now (R x) SignatureMethod_HMAC_SHA256 "k" (secret cred))
      with (signed x) in H.
    assert (H1 : parameters (url (signed y)) !! "Signature"
                 = parameters (url (signed x)) !! "Signature").
    { unfold signed. rewrite !signed_request_signature. f_equal. symmetry. exact Hxy. }
    assert (H2 : parameters (url (signed y)) <> parameters (url (signed x))).
    { intros E. apply (f_equal (fun p => p !! "Action")) in E.
      rewrite !Haction in E. injection E as E.
      apply (f_equal String.length) in E. rewrite !letters_length in E. congruence. }
    destruct (H H1 H2) as [e He].
    change (_clone (signed x) (clone_url (url (signed x)) (parameters (url (signed y)))))
      with (signed y) in He.
    unfold signed in He.
    rewrite (round_trip credentials cred (R y) SignatureMethod_HMAC_SHA256 "k" now)
      in He; [discriminate|exact Hfor|exact Hparse|intros msg; apply Hnonempty| |].
    + apply Qle_refl.
    + lra.
Qed.

End Library.

(** The signed request is authenticated five minutes after it was signed
    and rejected one second later, under the same secret. *)
Lemma stale_signature :
  authenticate Samples.auth_hmac Clock.strptime Samples.credentials
    (inject_Z (1293840000 + 300)) (inject_Z (1293840000 + 300)) 0%Z Samples.signed
  = Ok "alice@example.com"
  /\ authenticate Samples.auth_hmac Clock.strptime Samples.credentials
       (inject_Z (1293840000 + 301)) (inject_Z (1293840000 + 301)) 0%Z Samples.signed
     = Raise (UnauthenticatedException "bad timestamp").
Proof. split; vm_compute; reflexivity. Qed.

(** C1, against the claim.  First, the round trip depends on the clock: a
    request signed by [signed_request] is authenticated 300 seconds later
    and rejected with ['bad timestamp'] 301 seconds later, under the same
    secret.  Second, no keyed digest whose values have a bounded length (20
    bytes for HMAC-SHA1, 32 for HMAC-SHA256) makes verification fail for
    every mutation of a parameter other than [Signature]. *)
Lemma round_trip_limits :
  (authenticate Samples.auth_hmac Clock.strptime Samples.credentials
     (inject_Z (1293840000 + 300)) (inject_Z (1293840000 + 300)) 0%Z Samples.signed
   = Ok "alice@example.com"
   /\ authenticate Samples.auth_hmac Clock.strptime Samples.credentials
        (inject_Z (1293840000 + 301)) (inject_Z (1293840000 + 301)) 0%Z Samples.signed
      = Raise (UnauthenticatedException "bad timestamp"))
  /\ ~ (exists (hmac_digest : SignatureMethod -> string -> string -> string)
               (strftime : Z -> string) (strptime : string -> option Z)
               (bound : nat) (now : Q),
           (forall m k msg, (String.length (hmac_digest m k msg) <= bound)%nat)
           /\ (forall m k msg, hmac_digest m k msg <> EmptyString)
           /\ strptime (strftime (Qfloor now)) = Some (Qfloor now)
           /\ detects_every_mutation hmac_digest strftime strptime).
Proof.
  split; [exact stale_signature|].
  intros (hmac_digest & strftime & strptime & bound & now & Hb & Hn & Hp & Hd).
  exact (bounded_mac_misses_a_mutation hmac_digest strftime strptime bound now
           Hb Hn Hp Hd).
Qed.

Lemma sign_then_verify_witness :
  authenticate Samples.auth_hmac Clock.strptime Samples.credentials
    (inject_Z (1293840000 + 300)) (inject_Z (1293840000 + 300)) 7%Z Samples.signed
  = Ok "alice@example.com".
Proof.
  refine (proj1 (sign_then_verify Samples.auth_hmac Clock.strftime Clock.strptime
                   Samples.credentials Samples.alice Samples.iam_request
                   SignatureMethod_HMAC_SHA256 "AKID" (inject_Z 1293840000) _ _ _)
            (inject_Z (1293840000 + 300)) (inject_Z (1293840000 + 300)) 7%Z _ _).
  - reflexivity.
  - vm_compute. reflexivity.
  - intros msg. discriminate.
  - apply Qle_bool_iff. vm_compute. reflexivity.
  - apply Qle_bool_iff. vm_compute. reflexivity.
Defined.

Lemma comparison_is_equality_witness :
  _are_equal 7 "c2lnbmF0dXJl" "c2lnbmF0dXJl" = Ok true
  /\ _are_equal 7 "c2lnbmF0dXJl" "c2lnbmF0dXJm" = Ok false.
Proof.
  pose proof (comparison_is_equality Samples.auth_hmac Clock.strptime) as [H _].
  split.
  - apply (proj1 (H "c2lnbmF0dXJl" "c2lnbmF0dXJl" 7%Z ltac:(simpl; lia))).
    reflexivity.
  - apply (proj2 (H "c2lnbmF0dXJl" "c2lnbmF0dXJm" 7%Z ltac:(simpl; lia))).
    discriminate.
Defined.

(** A mutation of the signed request: [Action] changed to [DeleteUser],
    the signature kept.  It is rejected. *)
Example altered_action_rejected :
  authenticate Samples.auth_hmac Clock.strptime Samples.credentials
    (inject_Z 1293840000) (inject_Z 1293840000) 0%Z
    (_clone Samples.signed
       (clone_url (url Samples.signed)
          (<["Action" := "DeleteUser"]> (parameters (url Samples.signed)))))
  = Raise (UnauthenticatedException "signature mismatch").
Proof. vm_compute. reflexivity. Qed.

End AuthFacts.

(** ** Templates ([render_template]) *)

Module TemplateFacts.
Import Policy.

(** The specification's reading of a template: literal text with
    [{{ name }}] tokens, each token standing for the value of the variable
    it names.  A template is given by its pieces; [template_of] is the
    string it is written as, and [substitute] the message the
    specification has rendered from it: every token whose variable has a
    value is replaced by the value, and everything else is kept. *)
Inductive Piece : Type :=
| Text (s : string)
| Var (name : string).

Definition token (name : string) : string := "{{ " ++ name ++ " }}".

Definition source (p : Piece) : string :=
  match p with
  | Text s => s
  | Var name => token name
  end.

Fixpoint template_of (pieces : list Piece) : string :=
  match pieces with
  | [] => EmptyString
  | p :: rest => source p ++ template_of rest
  end.

Fixpoint value (items : list (string * string)) (name : string) : option string :=
  match items with
  | [] => None
  | (k, v) :: rest => if String.eqb k name then Some v else value rest name
  end.

Definition fill (items : list (string * string)) (p : Piece) : string :=
  match p with
  | Text s => s
  | Var name => match value items name with
                | Some v => v
                | None => token name
                end
  end.

Fixpoint substitute (items : list (string * string)) (pieces : list Piece) : string :=
  match pieces with
  | [] => EmptyString
  | p :: rest => fill items p ++ substitute items rest
  end.

(** A text that cannot be taken for a token, or for the beginning of one:
    it has no two opening braces in a row and does not end with an opening
    brace. *)
Fixpoint quiet (s : string) : bool :=
  match s with
  | EmptyString => true
  | String c r =>
      match r with
      | EmptyString => negb (Ascii.eqb c "{")
      | String d _ => negb (Ascii.eqb c "{" && Ascii.eqb d "{") && quiet r
      end
  end.

(** The name of a variable: no space and no opening brace. *)
Definition is_name (k : string) : bool :=
  negb (Str.contains_char " " k) && negb (Str.contains_char "{" k).

Definition well_formed (p : Piece) : bool :=
  match p with
  | Text s => quiet s
  | Var name => is_name name
  end.

(** One replacement, on the pieces. *)
Definition replace_var (k v : string) (p : Piece) : Piece :=
  match p with
  | Text s => Text s
  | Var name => if String.eqb name k then Text v else Var name
  end.

Lemma append_assoc (a b c : string) : (a ++ b ++ c)%string = ((a ++ b) ++ c)%string.
Proof.
  induction a as [|x a IH]; [reflexivity|]. rewrite !StrFacts.app_cons. now rewrite IH.
Qed.

Lemma replace_skip (old new x rest : string) :
  Str.replace_from (String.length x) old new (x ++ rest)
  = Str.replace_from 0 old new rest.
Proof.
  induction x as [|a x IH]; [reflexivity|].
  rewrite StrFacts.app_cons. cbn [String.length Str.replace_from]. exact IH.
Qed.

Lemma startswith_app (p rest : string) : Str.startswith (p ++ rest) p = true.
Proof.
  induction p as [|a p IH]; [reflexivity|].
  rewrite StrFacts.app_cons. cbn [Str.startswith]. now rewrite Ascii.eqb_refl.
Qed.

Lemma replace_hit (c : ascii) (old' new rest : string) :
  Str.replace_from 0 (String c old') new (String c old' ++ rest)
  = (new ++ Str.replace_from 0 (String c old') new rest)%string.
Proof.
  pose proof (startswith_app (String c old') rest) as H.
  rewrite StrFacts.app_cons in *. cbn [Str.replace_from]. rewrite H.
  replace (String.length (String c old') - 1) with (String.length old')
    by (cbn [String.length]; lia).
  now rewrite replace_skip.
Qed.

Lemma token_eq (k : string) :
  token k = String "{" (String "{" (String " " (k ++ " }}"))).
Proof. reflexivity. Qed.

Lemma replace_miss_quiet (k v s rest : string) :
  quiet s = true ->
  Str.replace_from 0 (token k) v (s ++ rest)
  = (s ++ Str.replace_from 0 (token k) v rest)%string.
Proof.
  induction s as [|a r IH]; [reflexivity|]. intros Hq.
  rewrite !StrFacts.app_cons. rewrite token_eq in *.
  cbn [Str.replace_from].
  assert (Hr : quiet r = true /\
               Str.startswith (String a (r ++ rest))
                 (String "{" (String "{" (String " " (k ++ " }}")))) = false).
  { cbn [quiet] in Hq. destruct r as [|d r'].
    - split; [reflexivity|]. cbn [Str.startswith].
      apply negb_true_iff in Hq. now rewrite Ascii.eqb_sym, Hq.
    - apply andb_prop in Hq as [Hcd Hq]. split; [exact Hq|].
      rewrite StrFacts.app_cons. cbn [Str.startswith].
      apply negb_true_iff in Hcd.
      rewrite (Ascii.eqb_sym "{" a), (Ascii.eqb_sym "{" d).
      rewrite andb_assoc, Hcd. reflexivity. }
  destruct Hr as [Hr Hs]. rewrite Hs. now rewrite (IH Hr).
Qed.

Lemma no_brace_quiet (s : string) :
  Str.contains_char "{" s = false -> quiet s = true.
Proof.
  unfold Str.contains_char. induction s as [|a r IH]; [reflexivity|].
  cbn [list_ascii_of_string existsb]. intros H.
  apply orb_false_elim in H as [Ha Hr]. rewrite Ascii.eqb_sym in Ha.
  cbn [quiet]. destruct r as [|d r']; [now rewrite Ha|].
  rewrite Ha. cbn [andb negb]. now apply IH.
Qed.

Lemma key_mismatch (k k' rest : string) :
  Str.contains_char " " k = false -> Str.contains_char " " k' = false ->
  k <> k' ->
  Str.startswith (k' ++ " }}" ++ rest) (k ++ " }}") = false.
Proof.
  unfold Str.contains_char. revert k'.
  induction k as [|c r IH]; intros k' Hk Hk' Hne.
  - destruct k' as [|c' r']; [congruence|].
    cbn [list_ascii_of_string existsb] in Hk'.
    apply orb_false_elim in Hk' as [Hc' _].
    rewrite (StrFacts.app_cons c' r').
    change (EmptyString ++ " }}")%string with (String " " "}}").
    cbn [Str.startswith]. now rewrite Hc'.
  - cbn [list_ascii_of_string existsb] in Hk.
    apply orb_false_elim in Hk as [Hc Hr].
    rewrite (StrFacts.app_cons c r).
    destruct k' as [|c' r'].
    + change (EmptyString ++ " }}" ++ rest)%string with (String " " ("}}" ++ rest)).
      cbn [Str.startswith]. rewrite Ascii.eqb_sym in Hc. now rewrite Hc.
    + cbn [list_ascii_of_string existsb] in Hk'.
      apply orb_false_elim in Hk' as [_ Hr'].
      rewrite (StrFacts.app_cons c' r'). cbn [Str.startswith].
      destruct (Ascii.eqb_spec c c') as [->|Hcc]; [|reflexivity].
      cbn [andb]. apply IH; [exact Hr|exact Hr'|congruence].
Qed.

Lemma is_name_free (k : string) :
  is_name k = true ->
  Str.contains_char " " k = false /\ Str.contains_char "{" k = false.
Proof.
  unfold is_name. intros H. apply andb_prop in H as [H1 H2].
  now apply negb_true_iff in H1, H2.
Qed.

Lemma replace_miss_token (k k' v rest : string) :
  is_name k = true -> is_name k' = true -> k <> k' ->
  Str.replace_from 0 (token k) v (token k' ++ rest)
  = (token k' ++ Str.replace_from 0 (token k) v rest)%string.
Proof.
  intros Hk Hk' Hne.
  apply is_name_free in Hk as [Hks _]. apply is_name_free in Hk' as [Hks' Hkb'].
  assert (Hq : quiet (k' ++ " }}") = true).
  { apply no_brace_quiet. rewrite EncodingFacts.contains_char_app, Hkb'. reflexivity. }
  pose proof (replace_miss_quiet k v (k' ++ " }}") rest Hq) as Hrest.
  pose proof (key_mismatch k k' rest Hks Hks' Hne) as Hmiss.
  rewrite <- append_assoc in Hrest.
  rewrite (token_eq k) in *. rewrite (token_eq k').
  rewrite !StrFacts.app_cons, <- append_assoc.
  cbn [Str.replace_from Str.startswith]. rewrite !Ascii.eqb_refl. cbn [andb].
  rewrite Hmiss.
  replace (Ascii.eqb "{" " ") with false by reflexivity. cbn [andb].
  rewrite Hrest. now rewrite <- !append_assoc.
Qed.

Lemma replace_token (k v : string) (pieces : list Piece) :
  is_name k = true ->
  List.Forall (fun p => well_formed p = true) pieces ->
  Str.replace (template_of pieces) (token k) v
  = template_of (map (replace_var k v) pieces).
Proof.
  intros Hk H. unfold Str.replace.
  induction H as [|p pieces Hp _ IH]; [reflexivity|].
  cbn [template_of map]. destruct p as [s|k']; cbn [source replace_var well_formed] in *.
  - rewrite (replace_miss_quiet k v s _ Hp). now rewrite IH.
  - destruct (String.eqb_spec k' k) as [->|Hne]; cbn [source].
    + rewrite (token_eq k) at 2. rewrite token_eq at 1.
      rewrite replace_hit. rewrite <- !token_eq. now rewrite IH.
    + rewrite (replace_miss_token k k' v _ Hk Hp) by congruence. now rewrite IH.
Qed.

Lemma replace_var_well_formed (k v : string) (pieces : list Piece) :
  quiet v = true ->
  List.Forall (fun p => well_formed p = true) pieces ->
  List.Forall (fun p => well_formed p = true) (map (replace_var k v) pieces).
Proof.
  intros Hv. induction 1 as [|p pieces Hp _ IH]; [constructor|].
  cbn [map]. constructor; [|exact IH].
  destruct p as [s|k']; [exact Hp|]. cbn [replace_var].
  now destruct (String.eqb k' k).
Qed.

Lemma substitute_replace_var (k v : string) (items : list (string * string))
    (pieces : list Piece) :
  substitute items (map (replace_var k v) pieces) = substitute ((k, v) :: items) pieces.
Proof.
  induction pieces as [|p pieces IH]; [reflexivity|].
  cbn [map substitute]. rewrite IH. f_equal.
  destruct p as [s|k']; [reflexivity|]. cbn [replace_var fill value].
  rewrite (String.eqb_sym k k'). now destruct (String.eqb k' k).
Qed.

(** [render_template] renders: on a template whose texts are quiet and
    whose variables have names, with values that are quiet, the string it
    returns is the message the specification describes, whatever the order
    in which the dict lists its entries. *)
Lemma render_template_substitutes (pieces : list Piece)
    (items : list (string * string)) :
  List.Forall (fun p => well_formed p = true) pieces ->
  List.Forall (fun kv => is_name (fst kv) = true /\ quiet (snd kv) = true) items ->
  render_template (template_of pieces) items = substitute items pieces.
Proof.
  intros Hp Hi. revert pieces Hp.
  induction Hi as [|[k v] items [Hk Hv] _ IH]; intros pieces Hp.
  - cbn [render_template fold_left]. induction pieces as [|p pieces IHp]; [reflexivity|].
    apply List.Forall_cons_iff in Hp as [_ Hp].
    cbn [template_of substitute]. rewrite <- (IHp Hp). now destruct p.
  - unfold render_template. cbn [fold_left fst snd].
    fold (token k). rewrite (replace_token k v pieces Hk Hp).
    fold (render_template (template_of (map (replace_var k v) pieces)) items).
    rewrite IH by now apply replace_var_well_formed.
    apply substitute_replace_var.
Qed.

Lemma value_permutation (items items' : list (string * string)) (name : string) :
  Permutation items' items -> List.NoDup (map fst items) ->
  value items' name = value items name.
Proof.
  intros Hperm Hnd.
  assert (Hin : forall l, List.NoDup (map fst l) ->
              forall v, value l name = Some v <-> In (name, v) l).
  { clear. induction l as [|[k v0] l IH]; intros Hnd v; cbn [value].
    - split; [discriminate|intros []].
    - cbn [map fst] in Hnd. apply List.NoDup_cons_iff in Hnd as [Hk Hnd].
      destruct (String.eqb_spec k name) as [->|Hne].
      + split; [intros [= ->]; now left|].
        intros [[= ->]|Hin]; [reflexivity|].
        exfalso. apply Hk. apply List.in_map_iff. now exists (name, v).
      + rewrite (IH Hnd). split; [now right|]. intros [[= Hk' _]|H]; [congruence|exact H]. }
  assert (Hnd' : List.NoDup (map fst items')).
  { eapply Permutation_NoDup; [|exact Hnd]. apply Permutation_map.
    now apply Permutation_sym. }
  destruct (value items name) as [v|] eqn:Hv.
  - apply (Hin items' Hnd'). apply (Permutation_in _ (Permutation_sym Hperm)).
    now apply (Hin items Hnd).
  - destruct (value items' name) as [v'|] eqn:Hv'; [|reflexivity].
    apply (Hin items' Hnd') in Hv'. apply (Permutation_in _ Hperm) in Hv'.
    apply (Hin items Hnd) in Hv'. congruence.
Qed.

Lemma substitute_permutation (items items' : list (string * string))
    (pieces : list Piece) :
  Permutation items' items -> List.NoDup (map fst items) ->
  substitute items' pieces = substitute items pieces.
Proof.
  intros Hperm Hnd. induction pieces as [|p pieces IH]; [reflexivity|].
  cbn [substitute]. rewrite IH. f_equal. destruct p as [s|k]; [reflexivity|].
  cbn [fill]. now rewrite (value_permutation items items' k Hperm Hnd).
Qed.

End TemplateFacts.

(** ** The time-lock policy ([TimeLockPolicy.grant], [TimeLockPolicy.cancel]) *)

Module PolicyFacts.
Import Policy TemplateFacts.

Section Library.

Variable Request : Type.
Variable request_information : Request -> string.
Variable rfc1123 : Q -> string.
Variable minutes : Q -> string.
Variable uuid4 : nat -> string.
Variable iteritems : list (string * string) -> list (string * string).

Abbreviation act := (Policy.act uuid4).
Abbreviation others := (Policy.others uuid4).
Abbreviation sleep := (Policy.sleep uuid4).
Abbreviation context := (Policy.context Request request_information rfc1123 minutes iteritems).
Abbreviation grant :=
  (Policy.grant Request request_information rfc1123 minutes uuid4 iteritems).

Definition is_cancel (request_uuid : string) (a : Action) : bool :=
  match a with
  | Cancel id => String.eqb id request_uuid
  | Save | Send _ => false
  end.

Lemma is_cancel_In (request_uuid : string) (actions : list Action) :
  existsb (is_cancel request_uuid) actions = true <-> In (Cancel request_uuid) actions.
Proof.
  rewrite existsb_exists. split.
  - intros ([id| |n] & Hin & Ha); simpl in Ha; try discriminate.
    apply String.eqb_eq in Ha. now subst.
  - intros H. exists (Cancel request_uuid). split; [exact H|]. simpl.
    apply String.eqb_refl.
Qed.

(** The entries of the dict [grant] renders with, as the display lists
    them. *)
Definition variables (self : TimeLockPolicy) (now : Q) (request : Request)
    (request_uuid : string) : list (string * string) :=
  [ ("request_information", request_information request);
    ("request_execution_time", rfc1123 (now + lock_duration self)%Q);
    ("time_lock_duration", minutes (lock_duration self));
    ("request_uuid", request_uuid) ].

(** Every time-lock of the store is stored under a UUID that was drawn. *)
Definition drawn (w : World) : Prop :=
  forall id, is_Some (store w !! id) -> exists n, (n < issued w)%nat /\ id = uuid4 n.

Lemma initial_drawn : drawn initial.
Proof. intros id [t Ht]. cbn [initial store] in Ht. now rewrite lookup_empty in Ht. Qed.

Lemma act_drawn (w : World) (a : Action) : drawn w -> drawn (act w a).
Proof.
  intros Hw. destruct a as [id| |n]; cbn [Policy.act].
  - unfold cancel. destruct (store w !! id) eqn:Hid; [|exact Hw].
    intros id' Hid'. cbn [store issued] in *.
    destruct (decide (id' = id)) as [->|Hne].
    + apply Hw. rewrite Hid. eauto.
    + rewrite lookup_insert_ne in Hid' by congruence. now apply Hw.
  - intros id' Hid'. cbn [store issued] in *.
    destruct (decide (id' = uuid4 (issued w))) as [->|Hne].
    + exists (issued w). split; [lia|reflexivity].
    + rewrite lookup_insert_ne in Hid' by congruence.
      destruct (Hw id' Hid') as (k & Hk & ->). exists k. split; [lia|reflexivity].
  - exact Hw.
Qed.

Lemma acts_drawn (actions : list Action) (w : World) :
  drawn w -> drawn (fold_left act actions w).
Proof.
  revert w. induction actions as [|a actions IH]; intros w Hw; [exact Hw|].
  cbn [fold_left]. apply IH. now apply act_drawn.
Qed.

Lemma acts_trace (actions : list Action) (w : World) :
  trace (fold_left act actions w) = trace w.
Proof.
  revert w. induction actions as [|a actions IH]; intros w; [reflexivity|].
  cbn [fold_left]. rewrite IH. destruct a as [id| |n]; try reflexivity.
  cbn [Policy.act]. unfold cancel. now destruct (store w !! id).
Qed.

Lemma acts_issued (actions : list Action) (w : World) :
  (issued w <= issued (fold_left act actions w))%nat.
Proof.
  revert w. induction actions as [|a actions IH]; intros w; [reflexivity|].
  cbn [fold_left]. etransitivity; [|apply IH].
  destruct a as [id| |n]; cbn [Policy.act issued]; try lia.
  unfold cancel. destruct (store w !! id); cbn [issued]; lia.
Qed.

Lemma acts_outbox (actions : list Action) (w : World) (n : Notification) :
  In n (outbox w) -> In n (outbox (fold_left act actions w)).
Proof.
  revert w. induction actions as [|a actions IH]; intros w Hn; [exact Hn|].
  cbn [fold_left]. apply IH. destruct a as [id| |n']; cbn [Policy.act outbox].
  - unfold cancel. now destruct (store w !! id).
  - exact Hn.
  - apply List.in_or_app. now left.
Qed.

Hypothesis uuid4_unique : forall m n, uuid4 m = uuid4 n -> m = n.

(** A UUID that was drawn stays out of the store as long as its time-lock
    is not saved: the other threads save under other UUIDs, and a [cancel]
    that does not find a time-lock stores nothing. *)
Lemma acts_unsaved (k : nat) (actions : list Action) (w : World) :
  (k < issued w)%nat -> store w !! uuid4 k = None ->
  store (fold_left act actions w) !! uuid4 k = None.
Proof.
  revert w. induction actions as [|a actions IH]; intros w Hk Hw; [exact Hw|].
  cbn [fold_left]. apply IH.
  - pose proof (acts_issued [a] w) as H. cbn [fold_left] in H. lia.
  - destruct a as [id| |n]; cbn [Policy.act store]; [| |exact Hw].
    + unfold cancel. destruct (store w !! id) eqn:Hid; [|exact Hw].
      cbn [store]. rewrite lookup_insert_ne; [exact Hw|]. intros ->. congruence.
    + rewrite lookup_insert_ne; [exact Hw|].
      intros H. apply uuid4_unique in H. lia.
Qed.

(** A time-lock that was saved stays in the store; it ends cancelled
    exactly when it was cancelled already or one of the actions cancels
    it. *)
Lemma acts_cancelled (k : nat) (actions : list Action) (w : World) (b : bool) :
  (k < issued w)%nat -> store w !! uuid4 k = Some {| cancelled := b |} ->
  store (fold_left act actions w) !! uuid4 k
  = Some {| cancelled := b || existsb (is_cancel (uuid4 k)) actions |}.
Proof.
  revert w b. induction actions as [|a actions IH]; intros w b Hk Hw.
  - cbn [fold_left existsb]. now rewrite orb_false_r.
  - cbn [fold_left existsb].
    assert (Hk' : (k < issued (act w a))%nat).
    { pose proof (acts_issued [a] w) as H. cbn [fold_left] in H. lia. }
    destruct a as [id| |n]; cbn [is_cancel].
    + cbn [Policy.act] in *. unfold cancel in *.
      destruct (String.eqb_spec id (uuid4 k)) as [->|Hne].
      * rewrite Hw in *. rewrite (IH _ true Hk'); [|cbn [store]; apply lookup_insert_eq].
        now rewrite orb_true_r.
      * destruct (store w !! id).
        -- rewrite (IH _ b Hk'); [reflexivity|].
           cbn [store]. now rewrite lookup_insert_ne.
        -- now rewrite (IH _ b Hk').
    + rewrite (IH _ b Hk'); [reflexivity|].
      cbn [Policy.act store]. rewrite lookup_insert_ne; [exact Hw|].
      intros H. apply uuid4_unique in H. lia.
    + now rewrite (IH _ b Hk').
Qed.


(** The UUID a grant draws is under no time-lock when the time-lock is
    saved, whatever the other threads did before. *)
Lemma drawn_fresh (w : World) (actions : list Action) :
  drawn w ->
  store (fold_left act actions (snd (Policy.uuid4_get_hex uuid4 w))) !! uuid4 (issued w)
  = None.
Proof.
  intros Hw. apply acts_unsaved; cbn [Policy.uuid4_get_hex snd issued store]; [lia|].
  destruct (store w !! uuid4 (issued w)) as [t|] eqn:Ht; [|reflexivity].
  destruct (Hw (uuid4 (issued w))) as (k & Hk & Heq); [rewrite Ht; eauto|].
  apply uuid4_unique in Heq. lia.
Qed.

(** The world in which a grant sends its notification. *)
Definition saved (schedule : Schedule) (w : World) : World :=
  fold_left act (before_send schedule)
    (snd (save (uuid4 (issued w)) {| cancelled := false |}
            (fold_left act (before_save schedule) (snd (Policy.uuid4_get_hex uuid4 w))))).

Lemma saved_issued (schedule : Schedule) (w : World) :
  (issued w < issued (saved schedule w))%nat.
Proof.
  unfold saved. eapply Nat.lt_le_trans; [|apply acts_issued].
  cbn [save snd log issued]. eapply Nat.lt_le_trans; [|apply acts_issued].
  cbn [Policy.uuid4_get_hex snd issued]. lia.
Qed.

Lemma saved_trace (schedule : Schedule) (w : World) :
  trace (saved schedule w)
  = trace w ++ [StSave (uuid4 (issued w)) {| cancelled := false |}].
Proof.
  unfold saved. rewrite acts_trace. cbn [save snd log trace].
  now rewrite acts_trace.
Qed.

Lemma saved_store (schedule : Schedule) (w : World) :
  store (saved schedule w) !! uuid4 (issued w)
  = Some {| cancelled := existsb (is_cancel (uuid4 (issued w))) (before_send schedule) |}.
Proof.
  unfold saved. rewrite (acts_cancelled (issued w) _ _ false).
  - reflexivity.
  - cbn [save snd log issued]. eapply Nat.lt_le_trans; [|apply acts_issued].
    cbn [Policy.uuid4_get_hex snd issued]. lia.
  - cbn [save snd log store]. apply lookup_insert_eq.
Qed.

(** What a grant does, step by step. *)
Lemma grant_steps (self : TimeLockPolicy) (schedule : Schedule) (now : Q)
    (entity : string) (request : Request) (w : World) :
  let request_uuid := uuid4 (issued w) in
  let n := {| recipients := notification_recipients self;
              message := render_template (notification_template self)
                           (context self now request request_uuid) |} in
  grant self schedule now entity request w
  = match notification_broker self n with
    | Raise e => (Raise e, saved schedule w)
    | Ok _ =>
        let sent :=
          log (StSend n)
            {| store := store (saved schedule w);
               outbox := outbox (saved schedule w) ++ [n];
               issued := issued (saved schedule w);
               trace := trace (saved schedule w) |} in
        if Qltb (lock_duration self) 0
        then (Raise (IOError "[Errno 22] Invalid argument"), sent)
        else
          let woken :=
            fold_left act (before_read schedule)
              (fold_left act (asleep schedule) (log (StSleep (lock_duration self)) sent)) in
          (match store woken !! request_uuid with
           | Some t => Ok (negb (cancelled t))
           | None => Raise (AttributeError "'NoneType' object has no attribute 'cancelled'")
           end,
           log (StRead request_uuid) woken)
    end.
Proof.
  intros request_uuid n.
  unfold Policy.grant, and_then, Policy.others, saved, save.
  cbn [Policy.uuid4_get_hex fst snd]. unfold send at 1. fold request_uuid. fold n.
  destruct (notification_broker self n) as [[]|e]; [|reflexivity].
  unfold Policy.sleep. destruct (Qltb (lock_duration self) 0); [reflexivity|].
  cbv zeta. unfold get, ret, raise.
  match goal with |- context [store ?w !! request_uuid] =>
    destruct (store w !! request_uuid) end; reflexivity.
Qed.


Lemma drawn_ext (w w' : World) :
  store w' = store w -> issued w' = issued w -> drawn w -> drawn w'.
Proof. intros Hs Hi Hw id. rewrite Hs, Hi. apply Hw. Qed.

Lemma saved_drawn (schedule : Schedule) (w : World) : drawn w -> drawn (saved schedule w).
Proof.
  intros Hw. unfold saved. apply acts_drawn.
  pose proof (acts_issued (before_save schedule) (snd (Policy.uuid4_get_hex uuid4 w))) as Hi.
  assert (Hd : drawn (fold_left act (before_save schedule)
                        (snd (Policy.uuid4_get_hex uuid4 w)))).
  { apply acts_drawn. intros id Hid. cbn [Policy.uuid4_get_hex snd store issued] in *.
    destruct (Hw id Hid) as (k & Hk & ->). exists k. split; [lia|reflexivity]. }
  intros id Hid. cbn [save snd log store issued Policy.uuid4_get_hex] in *.
  destruct (decide (id = uuid4 (issued w))) as [->|Hne].
  - exists (issued w). split; [lia|reflexivity].
  - rewrite lookup_insert_ne in Hid by congruence. now apply Hd.
Qed.

Lemma grant_drawn (self : TimeLockPolicy) (schedule : Schedule) (now : Q)
    (entity : string) (request : Request) (w : World) :
  drawn w -> drawn (snd (grant self schedule now entity request w)).
Proof.
  intros Hw. apply (saved_drawn schedule) in Hw. rewrite grant_steps. cbv zeta.
  destruct (notification_broker self _) as [[]|e]; [|exact Hw].
  destruct (Qltb (lock_duration self) 0).
  - cbn [snd]. revert Hw. now apply drawn_ext.
  - destruct (store _ !! uuid4 (issued w)); cbn [snd];
      (eapply drawn_ext; [reflexivity|reflexivity|]); do 2 apply acts_drawn;
      revert Hw; now apply drawn_ext.
Qed.

(** The worlds of a process: what the grants of this thread and the
    actions of the other threads make of the initial world. *)
Inductive reachable : World -> Prop :=
| reach_initial : reachable initial
| reach_act (w : World) (a : Action) : reachable w -> reachable (act w a)
| reach_grant (w : World) (self : TimeLockPolicy) (schedule : Schedule) (now : Q)
    (entity : string) (request : Request) :
    reachable w -> reachable (snd (grant self schedule now entity request w)).

Lemma reachable_drawn (w : World) : reachable w -> drawn w.
Proof.
  induction 1 as [|w a _ IH|w self schedule now entity request _ IH].
  - apply initial_drawn.
  - now apply act_drawn.
  - now apply grant_drawn.
Qed.

Lemma variables_names (self : TimeLockPolicy) (now : Q) (request : Request)
    (request_uuid : string) :
  List.NoDup (map fst (variables self now request request_uuid))
  /\ List.Forall (fun kv => is_name (fst kv) = true)
       (variables self now request request_uuid).
Proof.
  split.
  - cbn [variables map fst]. repeat constructor; cbn [In]; intros H;
      repeat (destruct H as [H|H]; [discriminate H|]); exact H.
  - repeat constructor.
Qed.


End Library.

Lemma sample_uuid4_unique (m n : nat) : Samples.uuid4 m = Samples.uuid4 n -> m = n.
Proof.
  revert n. induction m as [|m IH]; intros [|n]; cbn [Samples.uuid4]; intros H.
  - reflexivity.
  - destruct n; discriminate H.
  - destruct m; discriminate H.
  - f_equal. apply IH. congruence.
Qed.


(** The notification of the sample policy, as the broker receives it. *)
Example grant_sends_notification :
  outbox (snd (Policy.grant Webob.Request Samples.request_information Samples.rfc1123
                 Samples.minutes Samples.uuid4 Samples.iteritems Samples.policy
                 Samples.schedule 1293840000 "alice@example.com" Samples.request
                 (Policy.act Samples.uuid4 initial Save)))
  = [ {| recipients := ["ops@example.com"];
         message := "Request f0 runs at 2011-01-01T00:00:02." |} ].
Proof. vm_compute. reflexivity. Qed.

(** The order in which the dict lists its entries shows in the message
    when a value holds a token. *)
Example render_template_order :
  render_template "{{ a }}" [("a", "{{ b }}"); ("b", "x")] = "x"
  /\ render_template "{{ a }}" [("b", "x"); ("a", "{{ b }}")] = "{{ b }}".
Proof. split; vm_compute; reflexivity. Qed.

End PolicyFacts.

(** ** The match stage ([RuleEngine.test_match]) and the modify stages *)

Module StageFacts.
Import Engine.

Lemma test_match_true (compiled : list (TestRule * list string))
    (request : Webob.Request) :
  test_match compiled request = Ok true
  <-> List.Forall (fun rt => fst rt request = Ok true) compiled.
Proof.
  induction compiled as [|[rule text] rest IH]; simpl.
  - split; [constructor|reflexivity].
  - split.
    + intros H. destruct (rule request) as [[|]|e] eqn:Hr; simpl in H;
        try discriminate.
      constructor; [exact Hr|now apply IH].
    + intros H. apply List.Forall_cons_iff in H as [Hr Hrest]. simpl in Hr.
      rewrite Hr. simpl. now apply IH.
Qed.

Lemma test_match_prefix (before rest : list (TestRule * list string))
    (request : Webob.Request) :
  List.Forall (fun rt => fst rt request = Ok true) before ->
  test_match (before ++ rest) request = test_match rest request.
Proof.
  induction 1 as [|[rule text] before Hr _ IH]; simpl; [reflexivity|].
  simpl in Hr. rewrite Hr. simpl. exact IH.
Qed.

(** The match stage is the conjunction of its rules, evaluated in order up
    to the first that does not return true: it returns true exactly when
    every rule does (an empty stage matches every request); the first rule
    that returns false, or raises, ends the stage with false, or with the
    exception, and the rules after it are not called. *)
Theorem test_match_conjunction (compiled : list (TestRule * list string))
    (request : Webob.Request) :
  (test_match compiled request = Ok true
   <-> List.Forall (fun rt => fst rt request = Ok true) compiled)
  /\ (forall before rule text rest rest',
        compiled = before ++ (rule, text) :: rest ->
        List.Forall (fun rt => fst rt request = Ok true) before ->
        rule request <> Ok true ->
        test_match compiled request = rule request
        /\ test_match (before ++ (rule, text) :: rest') request = rule request).
Proof.
  split; [apply test_match_true|].
  intros before rule text rest rest' -> Hb Hr.
  rewrite !test_match_prefix by exact Hb. simpl.
  destruct (rule request) as [[|]|e]; [congruence| |]; split; reflexivity.
Qed.


End StageFacts.

(** ** More on the pipeline ([Application.__call__]) *)

Module PipelineFacts.
Import Webob Application ApplicationFacts.

Section Upstream.

Variable urlparse : string -> string * string.
Variable upstream :
  string -> string -> string -> string -> string -> gmap string string -> Result Response.

Abbreviation attempt := (Application.attempt urlparse upstream).
Abbreviation process := (Application.process urlparse upstream).
Abbreviation loop := (Application.loop urlparse upstream).
Abbreviation call := (Application.call urlparse upstream).
Abbreviation proxy_request := (Application.proxy_request urlparse upstream).

Lemma loop_total (rules : list Ruleset) (request : Request) (i : nat) :
  exists o, snd (loop i rules request) = Ok o.
Proof.
  revert i. induction rules as [|rs rest IH]; intros i; simpl; [eauto|].
  destruct (process_total urlparse upstream i rs request) as [o Ho].
  destruct (process i rs request) as [es r]. simpl in Ho. subst r.
  destruct o as [response|]; simpl; [eauto|].
  destruct (IH (S i)) as [o Ho]. destruct (loop (S i) rest request) as [es' r'].
  simpl in *. eauto.
Qed.


Lemma process_none (i : nat) (rs : Ruleset) (request : Request) :
  snd (process i rs request) = Ok None -> declines request rs.
Proof.
  unfold Application.process, Application.attempt, declines.
  destruct (rs_match rs) as [m|]; [|discriminate].
  run_stage.
  destruct (test_match m request) as [[|]|e] eqn:Hm; run_stage.
  - cbn [negb]. crank; cbn [catch snd]; discriminate.
  - intros _. eauto.
  - discriminate.
Qed.

(** The first ruleset whose match stage does not decline is the last one
    the pipeline looks at: the rulesets after it are never entered, and the
    response and the stages run are the same whatever they are. *)
Theorem first_ruleset_wins (before after after' : list Ruleset) (rs : Ruleset)
    (request : Request) :
  List.Forall (declines request) before ->
  ~ declines request rs ->
  call (before ++ rs :: after) request = call (before ++ rs :: after') request
  /\ List.Forall (fun ev => (index ev <= length before)%nat)
       (fst (call (before ++ rs :: after) request)).
Proof.
  intros Hb Hrs.
  destruct (process_total urlparse upstream (length before) rs request) as [o Ho].
  destruct o as [response|]; [|now apply process_none in Ho].
  rewrite !(call_selected urlparse upstream before _ rs request response Hb Ho).
  split; [reflexivity|]. cbn [fst].
  apply List.Forall_app. split.
  - apply List.Forall_forall. intros ev Hin.
    apply List.in_map_iff in Hin as (k & <- & Hk). apply List.in_seq in Hk.
    simpl. lia.
  - destruct (process_events urlparse upstream (length before) rs request) as [Hidx _].
    eapply List.Forall_impl; [|exact Hidx]. intros ev ->. lia.
Qed.

(** A filter stage in which no rule has the action [reject] or [permit],
    an empty stage in particular, lets nothing through: the ruleset
    answers 403 to every request it matches, and the request is neither
    modified nor sent upstream. *)
Theorem undecided_filter_denies (before after : list Ruleset) (rs : Ruleset)
    (request : Request) (m f : list (TestRule * list string)) :
  List.Forall (declines request) before ->
  rs_match rs = Some m -> test_match m request = Ok true ->
  rs_filter rs = Some f ->
  List.Forall (fun rt => exists b a tl, fst rt request = Ok b /\ snd rt = a :: tl
                                   /\ a <> "reject" /\ a <> "permit") f ->
  call (before ++ rs :: after) request
  = (map EvMatch (seq 0 (length before))
       ++ [EvMatch (length before); EvFilter (length before)],
     Ok Verboten).
Proof.
  intros Hb Hm Ht Hf Hrules.
  assert (Hd : denies request rs).
  { exists m, f, None. repeat split; try assumption.
    now apply EngineFacts.test_filter_undecided. }
  rewrite (call_selected urlparse upstream before after rs request Verboten Hb)
    by now rewrite (process_denies urlparse upstream _ rs request Hd).
  now rewrite (process_denies urlparse upstream _ rs request Hd).
Qed.

(** A ruleset that lacks one of the sections the pipeline reaches answers
    500: without a [match] section to every request that comes to it,
    without a [filter] section to every request it matches, and without a
    [modify_request] section to every request it permits. *)
Theorem missing_section_500 (before after : list Ruleset) (rs : Ruleset)
    (request : Request) :
  List.Forall (declines request) before ->
  (rs_match rs = None
   \/ (exists m, rs_match rs = Some m /\ test_match m request = Ok true
                 /\ (rs_filter rs = None
                     \/ exists f o, rs_filter rs = Some f
                                    /\ test_filter f request = Ok o /\ truthy o = true
                                    /\ rs_modify_request rs = None))) ->
  snd (call (before ++ rs :: after) request) = Ok InternalServerError.
Proof.
  intros Hb H.
  erewrite call_selected; [reflexivity|exact Hb|].
  unfold Application.process, Application.attempt.
  destruct H as [Hm|(m & Hm & Ht & [Hf|(f & o & Hf & Ho & Hp & Hr)])].
  - rewrite Hm. reflexivity.
  - rewrite Hm. run_stage. rewrite Ht. run_stage. cbn [negb]. rewrite Hf.
    reflexivity.
  - rewrite Hm. run_stage. rewrite Ht. run_stage. cbn [negb]. rewrite Hf.
    run_stage. rewrite Ho. run_stage. rewrite Hp. cbn [negb]. rewrite Hr.
    reflexivity.
Qed.

End Upstream.

Lemma sample_permits : ~ declines Samples.request Samples.permitting.
Proof. intros (m & [= <-] & H). discriminate H. Qed.

Lemma first_ruleset_wins_witness :
  Application.call Samples.urlparse Samples.upstream
    [Samples.declining; Samples.permitting] Samples.request
  = Application.call Samples.urlparse Samples.upstream
      [Samples.declining; Samples.permitting; Samples.denying] Samples.request.
Proof.
  refine (proj1 (first_ruleset_wins Samples.urlparse Samples.upstream
                   [Samples.declining] [] [Samples.denying] Samples.permitting
                   Samples.request _ sample_permits)).
  constructor; [exact sample_declines|constructor].
Defined.

Lemma undecided_filter_denies_witness :
  Application.call Samples.urlparse Samples.upstream [Scenarios.undecided]
    Samples.request
  = ([EvMatch 0; EvFilter 0], Ok Verboten).
Proof.
  exact (undecided_filter_denies Samples.urlparse Samples.upstream [] []
           Scenarios.undecided Samples.request [(Samples.all_rule, ["all"])] []
           (List.Forall_nil _) eq_refl eq_refl eq_refl (List.Forall_nil _)).
Defined.

Lemma missing_section_500_witness :
  snd (Application.call Samples.urlparse Samples.upstream [Scenarios.matchless]
         Samples.request)
  = Ok InternalServerError.
Proof.
  exact (missing_section_500 Samples.urlparse Samples.upstream [] []
           Scenarios.matchless Samples.request (List.Forall_nil _)
           (or_introl eq_refl)).
Defined.

End PipelineFacts.

(** ** The registry ([add_rule], [find_rule]) *)

Module RegistryFacts.
Import Rules.

Lemma category_ruletype (c : RuleClass) : category (ruletype c) = ruletype c.
Proof. destruct c; reflexivity. Qed.

Lemma add_verbs (rule : RuleClass) (vs : list string)
    (all : gmap string (gmap string RuleClass)) (d : gmap string RuleClass) :
  all !! ruletype rule = Some d ->
  exists d',
    fold_left
      (fun all verb =>
         match all !! ruletype rule with
         | Some d => <[ruletype rule := <[verb := rule]> d]> all
         | None => all
         end) vs all !! ruletype rule = Some d'
    /\ (forall v, In v vs -> d' !! v = Some rule)
    /\ (forall v, ~ In v vs -> d' !! v = d !! v)
    /\ (forall k, k <> ruletype rule ->
          fold_left
            (fun all verb =>
               match all !! ruletype rule with
               | Some d => <[ruletype rule := <[verb := rule]> d]> all
               | None => all
               end) vs all !! k = all !! k).
Proof.
  revert all d. induction vs as [|verb vs IH]; intros all d Hd; cbn [fold_left].
  - exists d. repeat split; [exact Hd|intros v []].
  - rewrite Hd.
    destruct (IH (<[ruletype rule := <[verb := rule]> d]> all) (<[verb := rule]> d))
      as (d' & Hd' & Hin & Hout & Hother); [apply lookup_insert_eq|].
    exists d'. split; [exact Hd'|]. split; [|split].
    + intros v [<-|Hv]; [|now apply Hin].
      destruct (in_dec string_dec verb vs) as [Hv|Hv]; [now apply Hin|].
      rewrite (Hout _ Hv). apply lookup_insert_eq.
    + intros v Hv. rewrite Hout by (intros H; apply Hv; now right).
      apply lookup_insert_ne. intros <-. apply Hv. now left.
    + intros k Hk. rewrite (Hother k Hk). now apply lookup_insert_ne.
Qed.

(** Registering a class makes every verb it lists resolve to it, in the
    stage category of its rule type, whatever was registered before (a
    class registered earlier for the same verb and type is replaced); what
    the other verbs and the other categories resolve to is as before. *)
Theorem add_rule_registers (rule : RuleClass)
    (all : gmap string (gmap string RuleClass)) :
  (forall verb, In verb (verbs rule) ->
     find_rule (add_rule rule all) (ruletype rule) verb = Ok rule)
  /\ (forall rt verb c,
        category rt <> ruletype rule \/ ~ In verb (verbs rule) ->
        (find_rule (add_rule rule all) rt verb = Ok c <-> find_rule all rt verb = Ok c)).
Proof.
  unfold add_rule.
  set (all0 := match all !! ruletype rule with
               | Some _ => all
               | None => <[ruletype rule := ∅]> all
               end).
  assert (H0 : exists d0, all0 !! ruletype rule = Some d0
                          /\ (forall v c, d0 !! v = Some c ->
                                exists d, all !! ruletype rule = Some d /\ d !! v = Some c)
                          /\ (forall d, all !! ruletype rule = Some d -> d0 = d)
                          /\ forall k, k <> ruletype rule -> all0 !! k = all !! k).
  { subst all0. destruct (all !! ruletype rule) as [d|] eqn:Hd.
    - exists d. repeat split; [exact Hd|eauto|congruence].
    - exists ∅. repeat split; [apply lookup_insert_eq| |discriminate|].
      + intros v c H. now rewrite lookup_empty in H.
      + intros k Hk. now apply lookup_insert_ne. }
  destruct H0 as (d0 & Hd0 & Hfrom & Hsame & Hk0).
  destruct (add_verbs rule (verbs rule) all0 d0 Hd0) as (d' & Hd' & Hin & Hout & Hother).
  split.
  - intros verb Hv. unfold find_rule. rewrite category_ruletype, Hd', (Hin _ Hv).
    reflexivity.
  - intros rt verb c Hcase. unfold find_rule.
    destruct (decide (category rt = ruletype rule)) as [Hc|Hc].
    + destruct Hcase as [Hcase|Hv]; [contradiction|].
      rewrite Hc, Hd', (Hout _ Hv).
      destruct (all !! ruletype rule) as [d|] eqn:Hd.
      * now rewrite (Hsame d eq_refl).
      * destruct (d0 !! verb) as [c0|] eqn:Hc0; [|split; discriminate].
        destruct (Hfrom _ _ Hc0) as (d & Hd2 & _). discriminate.
    + now rewrite (Hother _ Hc), (Hk0 _ Hc).
Qed.

(** The registry once the package is imported, as the list of its
    categories with the verbs of each. *)
Definition registry : list (string * list (string * RuleClass)) :=
  Eval vm_compute in map_to_list (map_to_list <$> all_rules).

Lemma registry_eq : map_to_list (map_to_list <$> all_rules) = registry.
Proof. vm_compute. reflexivity. Qed.

Lemma find_rule_category (rt verb : string) (c : RuleClass) :
  find_rule all_rules rt verb = Ok c -> category rt = ruletype c /\ In verb (verbs c).
Proof.
  unfold find_rule. destruct (all_rules !! category rt) as [d|] eqn:Hd;
    [|discriminate].
  destruct (d !! verb) as [c'|] eqn:Hv; [|discriminate]. intros [= ->].
  assert (Hk : (category rt, map_to_list d) ∈ registry).
  { rewrite <- registry_eq. apply elem_of_map_to_list.
    now rewrite lookup_fmap, Hd. }
  apply elem_of_map_to_list in Hv. unfold registry in Hk.
  repeat (apply elem_of_cons in Hk as [Hk|Hk]);
    try (now apply elem_of_nil in Hk);
    injection Hk as -> Hl; rewrite Hl in Hv; clear Hl;
    repeat (apply elem_of_cons in Hv as [Hv|Hv]);
    try (now apply elem_of_nil in Hv);
    injection Hv as -> ->; (split; [reflexivity|]); cbn [verbs In]; tauto.
Qed.

(** The registry the imports build resolves a verb in a stage to a class
    exactly when the class is of the stage's category and lists the verb:
    every verb of every class resolves to that class (no class hides a verb
    of another), and nothing else resolves. *)
Theorem registry_resolves (rt verb : string) (c : RuleClass) :
  find_rule all_rules rt verb = Ok c
  <-> category rt = ruletype c /\ In verb (verbs c).
Proof.
  split; [apply find_rule_category|].
  intros [Hc Hv]. unfold find_rule. rewrite Hc.
  destruct c; cbn [verbs In ruletype] in Hv |- *;
    repeat (destruct Hv as [<-|Hv]; [vm_compute; reflexivity|]);
    destruct Hv.
Qed.

End RegistryFacts.

(** ** The upstream request ([Application.proxy_request]) *)

Module ProxyFacts.
Import Webob Application ApplicationFacts.

(** The value [proxy_request] finds for [url] or [method]: the request's
    own, unless the ad hoc attributes hold an override. *)
Definition overlaid (attrs : gmap string (option string)) (name own : string)
  : option string :=
  match attrs !! ("goldengate_" ++ name)%string with
  | Some v => v
  | None => Some own
  end.

(** The headers [proxy_request] sends for a request whose [Content-Type]
    is [ct]. *)
Definition upstream_headers (request : Request) (ct : string) : gmap string string :=
  <[header_key "Connection" := "close"]>
    (<[header_key "Content-Length" :=
         NilZero.string_of_uint (Nat.to_uint (String.length (body request)))]>
       (if String.eqb ct "" then delete (header_key "Content-Type") (headers request)
        else headers request)).

Section Upstream.

Variable urlparse : string -> string * string.
Variable upstream :
  string -> string -> string -> string -> string -> gmap string string -> Result Response.

Abbreviation process := (Application.process urlparse upstream).
Abbreviation call := (Application.call urlparse upstream).
Abbreviation proxy_request := (Application.proxy_request urlparse upstream).

Lemma proxy_request_exchange (request : Request) (ct : string)
    (attrs : gmap string (option string)) (u m : string) :
  headers request !! header_key "Content-Type" = Some ct ->
  adhoc request = Some attrs ->
  overlaid attrs "url" (url request) = Some u ->
  overlaid attrs "method" (method request) = Some m ->
  fst (urlparse u) = "http" \/ fst (urlparse u) = "https" ->
  proxy_request request
  = upstream (fst (urlparse u)) (snd (urlparse u)) m u (body request)
      (upstream_headers request ct).
Proof.
  intros Hct Hattrs Hu Hm Hscheme.
  unfold Application.proxy_request, overlaid, upstream_headers in *.
  rewrite Hct, Hattrs. cbn [bind].
  change ("goldengate_" ++ "url")%string with "goldengate_url" in Hu.
  change ("goldengate_" ++ "method")%string with "goldengate_method" in Hm.
  rewrite Hu, Hm. cbn [bind].
  replace (negb (String.eqb (fst (urlparse u)) "http"
                 || String.eqb (fst (urlparse u)) "https")) with false
    by (destruct Hscheme as [-> | ->]; reflexivity).
  reflexivity.
Qed.

(** What goes upstream.  On a request that has a [Content-Type] header and
    ad hoc attributes, whose URL (overridden or its own) has the scheme
    http or https, [proxy_request] makes exactly one exchange with the
    upstream server: with the overridden method and URL, the request's
    body, and the request's headers except that [Connection] is [close],
    [Content-Length] is the length of the body whatever the client sent,
    and an empty [Content-Type] is left out. *)
Theorem proxy_request_sends (request : Request) (ct : string)
    (attrs : gmap string (option string)) (u m : string) :
  headers request !! header_key "Content-Type" = Some ct ->
  adhoc request = Some attrs ->
  overlaid attrs "url" (url request) = Some u ->
  overlaid attrs "method" (method request) = Some m ->
  fst (urlparse u) = "http" \/ fst (urlparse u) = "https" ->
  exists h,
    proxy_request request
    = upstream (fst (urlparse u)) (snd (urlparse u)) m u (body request) h
    /\ h !! header_key "Connection" = Some "close"
    /\ h !! header_key "Content-Length"
       = Some (NilZero.string_of_uint (Nat.to_uint (String.length (body request))))
    /\ h !! header_key "Content-Type" = (if String.eqb ct "" then None else Some ct)
    /\ (forall k, k <> header_key "Connection" -> k <> header_key "Content-Length" ->
                  k <> header_key "Content-Type" -> h !! k = headers request !! k).
Proof.
  intros Hct Hattrs Hu Hm Hscheme.
  exists (upstream_headers request ct).
  split; [now apply (proxy_request_exchange request ct attrs)|].
  unfold upstream_headers.
  split; [apply lookup_insert_eq|].
  split; [rewrite lookup_insert_ne by discriminate; apply lookup_insert_eq|].
  split.
  - rewrite !lookup_insert_ne by discriminate.
    destruct (String.eqb ct ""); [apply lookup_delete_eq|exact Hct].
  - intros k H1 H2 H3. rewrite !lookup_insert_ne by congruence.
    destruct (String.eqb ct ""); [now apply lookup_delete_ne|reflexivity].
Qed.

(** A request on which no ad hoc attribute was ever set has no
    [webob.adhoc_attrs] entry in its environment, and [proxy_request]
    raises before it contacts the upstream server.  So a ruleset whose
    [modify_request] stage leaves the request without such an attribute,
    an empty stage in particular, answers 500 to every request it
    permits. *)
Theorem unmarked_request_500 (before after : list Ruleset) (rs : Ruleset)
    (request request' : Request) (m f : list (TestRule * list string))
    (o : option bool) (mr : list (RequestRule * list string)) :
  List.Forall (declines request) before ->
  rs_match rs = Some m -> test_match m request = Ok true ->
  rs_filter rs = Some f -> test_filter f request = Ok o -> truthy o = true ->
  rs_modify_request rs = Some mr -> modify mr request = Ok request' ->
  adhoc request' = None ->
  raises (proxy_request request')
  /\ snd (call (before ++ rs :: after) request) = Ok InternalServerError.
Proof.
  intros Hb Hm Ht Hf Hp Ho Hmr Hq Hadhoc.
  assert (Hraise : raises (proxy_request request')).
  { unfold Application.proxy_request, raises.
    destruct (headers request' !! header_key "Content-Type"); cbn [bind]; [|eauto].
    rewrite Hadhoc. cbn [bind]. eauto. }
  split; [exact Hraise|]. destruct Hraise as [e He].
  erewrite (call_selected urlparse upstream); [reflexivity|exact Hb|].
  unfold Application.process, Application.attempt.
  rewrite Hm. run_stage. rewrite Ht. run_stage. cbn [negb].
  rewrite Hf. run_stage. rewrite Hp. run_stage. rewrite Ho. cbn [negb].
  rewrite Hmr. run_stage. rewrite Hq. run_stage. rewrite He. reflexivity.
Qed.

(** [url set] and [method set] reach the upstream server and nothing else:
    after the two rules the request's own URL and method are what they
    were, and the exchange with the upstream server is made with the
    values the rules gave, at the host of the URL the rule gave. *)
Theorem overlay_reaches_upstream (request : Request) (ct u m : string)
    (text text' : list string) :
  headers request !! header_key "Content-Type" = Some ct ->
  fst (urlparse u) = "http" \/ fst (urlparse u) = "https" ->
  exists request' h,
    modify [(RulesModify.url_modify {| RulesModify.verb := "url";
                                       RulesModify.value := Some u |}, text);
            (RulesModify.url_modify {| RulesModify.verb := "method";
                                       RulesModify.value := Some m |}, text')]
           request = Ok request'
    /\ url request' = url request /\ method request' = method request
    /\ proxy_request request'
       = upstream (fst (urlparse u)) (snd (urlparse u)) m u (body request) h.
Proof.
  intros Hct Hscheme.
  set (attrs0 := match adhoc request with Some a => a | None => ∅ end).
  set (attrs := <["goldengate_method" := Some m]> (<["goldengate_url" := Some u]> attrs0)).
  set (request' := set_adhoc (Some attrs) request).
  exists request', (upstream_headers request' ct).
  split; [reflexivity|]. split; [reflexivity|]. split; [reflexivity|].
  apply (proxy_request_exchange request' ct attrs);
    [exact Hct|reflexivity| | |exact Hscheme].
  - unfold overlaid, attrs.
    change ("goldengate_" ++ "url")%string with "goldengate_url".
    rewrite lookup_insert_ne by discriminate. now rewrite lookup_insert_eq.
  - unfold overlaid, attrs.
    change ("goldengate_" ++ "method")%string with "goldengate_method".
    now rewrite lookup_insert_eq.
Qed.

End Upstream.

Lemma proxy_request_sends_witness :
  exists h,
    Application.proxy_request Samples.urlparse Samples.upstream Scenarios.marked
    = Samples.upstream "http" "//upstream.example.com/foo/bar" "GET"
        "http://upstream.example.com/foo/bar" "" h
    /\ h !! header_key "Connection" = Some "close"
    /\ h !! header_key "Content-Length" = Some "0"
    /\ h !! header_key "Content-Type" = None.
Proof.
  destruct (proxy_request_sends Samples.urlparse Samples.upstream Scenarios.marked ""
              (<["goldengate_url" := Some "http://upstream.example.com/foo/bar"]> ∅)
              "http://upstream.example.com/foo/bar" "GET")
    as (h & H1 & H2 & H3 & H4 & _).
  - vm_compute. reflexivity.
  - reflexivity.
  - vm_compute. reflexivity.
  - vm_compute. reflexivity.
  - left. vm_compute. reflexivity.
  - exists h. split; [exact H1|]. split; [exact H2|]. split; [exact H3|exact H4].
Defined.

Lemma unmarked_request_500_witness :
  snd (Application.call Samples.urlparse Samples.upstream [Scenarios.unmodified]
         Samples.request)
  = Ok InternalServerError.
Proof.
  exact (proj2 (unmarked_request_500 Samples.urlparse Samples.upstream [] []
                  Scenarios.unmodified Samples.request Samples.request
                  [(Samples.all_rule, ["all"])] [(Samples.all_rule, ["permit"; "all"])]
                  (Some true) [] (List.Forall_nil _)
                  eq_refl eq_refl eq_refl eq_refl eq_refl eq_refl eq_refl eq_refl)).
Defined.

Lemma overlay_reaches_upstream_witness :
  exists request' h,
    modify [(RulesModify.url_modify
               {| RulesModify.verb := "url";
                  RulesModify.value := Some "http://upstream.example.com/foo/bar" |},
             ["url"; "set"; "http://upstream.example.com/foo/bar"]);
            (RulesModify.url_modify
               {| RulesModify.verb := "method"; RulesModify.value := Some "POST" |},
             ["method"; "set"; "POST"])]
           Samples.request = Ok request'
    /\ url request' = "http://goldengate.example.com/foo/bar"
    /\ method request' = "GET"
    /\ Application.proxy_request Samples.urlparse Samples.upstream request'
       = Samples.upstream "http" "//upstream.example.com/foo/bar" "POST"
           "http://upstream.example.com/foo/bar" "" h.
Proof.
  apply (overlay_reaches_upstream Samples.urlparse Samples.upstream Samples.request ""
           "http://upstream.example.com/foo/bar" "POST").
  - vm_compute. reflexivity.
  - left. vm_compute. reflexivity.
Defined.

End ProxyFacts.

(** ** The signature filter ([AWSSignatureFilterRule]) *)

Module FilterFacts.
Import Webob RulesAws.

Lemma signature_method_name (sm sv : string) (signer : SignatureMethod) :
  get_signature_method sm sv = Ok signer <-> sm = name signer /\ sv = "2".
Proof.
  unfold get_signature_method, signature_methods, version. cbn [find name].
  split.
  - destruct (String.eqb "HmacSHA1" sm && String.eqb "2" sv) eqn:E1; cbv beta iota.
    + intros [= <-]. apply andb_true_iff in E1 as [H1 H2].
      apply String.eqb_eq in H1, H2. now subst.
    + destruct (String.eqb "HmacSHA256" sm && String.eqb "2" sv) eqn:E2; cbv beta iota;
        [|discriminate].
      intros [= <-]. apply andb_true_iff in E2 as [H1 H2].
      apply String.eqb_eq in H1, H2. now subst.
  - intros [-> ->]. destruct signer; reflexivity.
Qed.

Section Library.

Variable hmac_digest : SignatureMethod -> string -> string -> string.
Variable strptime : string -> option Z.

Abbreviation build_signature := (RulesAws.build_signature hmac_digest).
Abbreviation validate_timestamp := (RulesAws.validate_timestamp strptime).
Abbreviation validate_signature := (RulesAws.validate_signature hmac_digest).
Abbreviation signature_filter := (RulesAws.signature_filter hmac_digest strptime).

(** The signature does not depend on the order in which the request lists
    its parameters: two requests with the same method, headers and path
    whose parameter lists are permutations of each other have the same
    canonical query string, base string and signature. *)
Theorem signature_order_independent (m : SignatureMethod) (r r' : SignRequest)
    (aws_secret : string) :
  sr_method r = sr_method r' -> sr_headers r = sr_headers r' ->
  sr_path r = sr_path r' -> Permutation (sr_params r) (sr_params r') ->
  build_signature_base_string r = build_signature_base_string r'
  /\ build_signature m r aws_secret = build_signature m r' aws_secret.
Proof.
  intros Hm Hh Hp Hperm.
  assert (H : build_signature_base_string r = build_signature_base_string r').
  { unfold build_signature_base_string, canonical_params.
    rewrite Hm, Hh, Hp, (AuthFacts.sorted_unique _ _ Hperm). reflexivity. }
  split; [exact H|]. unfold RulesAws.build_signature. now rewrite H.
Qed.

(** What the filter rule lets through.  It returns true exactly when the
    timestamp test passes, the credentials file has a credential for the
    request's [AWSAccessKeyId], the request names one of the two signature
    methods with version 2, and its [Signature] is the base64 form of the
    HMAC, under the secret of the first such credential, of the base string
    of the request. *)
Theorem signature_filter_passes (self : AWSSignatureFilterRule) (now : Q)
    (request : Request) :
  signature_filter self now request = Ok true
  <-> validate_timestamp self now request = Ok true
      /\ exists aws_key aws_secret signer canonical base,
           params_get (params request) "AWSAccessKeyId" = Ok aws_key
           /\ find (fun cred => String.eqb (fst cred) aws_key) (creds self)
              = Some (aws_key, aws_secret)
           /\ params_get (params request) "SignatureMethod" = Ok (name signer)
           /\ params_get (params request) "SignatureVersion" = Ok "2"
           /\ build_signature_base_string (encode_request request) = Ok (canonical, base)
           /\ params_get (params request) "Signature"
              = Ok (Base64.b64encode (hmac_digest signer aws_secret base)).
Proof.
  unfold RulesAws.signature_filter, RulesAws.get_credentials,
    RulesAws.validate_signature, RulesAws.build_signature.
  split.
  - intros H.
    destruct (validate_timestamp self now request) as [b|e] eqn:Hts; [|discriminate].
    assert (b = true) as ->.
    { unfold RulesAws.validate_timestamp in Hts.
      repeat match type of Hts with
             | bind ?x _ = _ => destruct x; cbn [bind] in Hts; [|discriminate]
             | (if ?c then _ else _) = _ => destruct c; try discriminate
             end.
      congruence. }
    split; [reflexivity|]. cbn [bind] in H.
    destruct (params_get (params request) "AWSAccessKeyId") as [aws_key|]; [|discriminate].
    cbn [bind] in H.
    destruct (find _ (creds self)) as [[k aws_secret]|] eqn:Hfind; [|discriminate].
    cbn [bind snd] in H.
    destruct (params_get (params request) "SignatureMethod") as [sm|]; [|discriminate].
    cbn [bind] in H.
    destruct (params_get (params request) "SignatureVersion") as [sv|]; [|discriminate].
    cbn [bind] in H.
    destruct (get_signature_method sm sv) as [signer|] eqn:Hsigner; [|discriminate].
    apply signature_method_name in Hsigner as [-> ->].
    cbn [bind] in H.
    destruct (build_signature_base_string (encode_request request))
      as [[canonical base]|]; [|discriminate].
    cbn [bind fst snd] in H.
    destruct (params_get (params request) "Signature") as [sig|]; [|discriminate].
    cbn [bind] in H. injection H as H. apply String.eqb_eq in H. subst sig.
    pose proof (find_some _ _ Hfind) as [_ Hk]. cbn [fst] in Hk.
    apply String.eqb_eq in Hk. subst k.
    exists aws_key, aws_secret, signer, canonical, base. repeat split; reflexivity || assumption.
  - intros (Hts & aws_key & aws_secret & signer & canonical & base
            & Hk & Hfind & Hsm & Hsv & Hbase & Hsig).
    rewrite Hts. cbn [bind]. rewrite Hk. cbn [bind]. rewrite Hfind. cbn [bind snd].
    rewrite Hsm, Hsv. cbn [bind].
    rewrite (proj2 (signature_method_name (name signer) "2" signer)) by (split; reflexivity).
    cbn [bind]. rewrite Hbase. cbn [bind fst snd]. rewrite Hsig. cbn [bind].
    now rewrite String.eqb_refl.
Qed.

End Library.

Lemma signature_order_independent_witness :
  build_signature_base_string Samples.iam_dict
  = build_signature_base_string Scenarios.iam_dict_reordered.
Proof.
  refine (proj1 (signature_order_independent Scenarios.rules_hmac
                   SignatureMethod_HMAC_SHA256 Samples.iam_dict
                   Scenarios.iam_dict_reordered "wJalrXUtnFEMI"
                   eq_refl eq_refl eq_refl _)).
  apply (Permutation_rev [("Action", "ListUsers"); ("Version", "2010-05-08");
                          ("AWSAccessKeyId", "AKID")]).
Defined.

End FilterFacts.

(** ** The authenticator and the signer ([auth/aws.py]) *)

Module AuthenticatorFacts.
Import AuthAws.

Lemma method_name_version (nm ver : string) (m : SignatureMethod) :
  get_signature_method nm ver = Ok m <-> nm = name m /\ ver = "2".
Proof.
  unfold get_signature_method, signature_methods, version. cbn [find name].
  split.
  - destruct (String.eqb "HmacSHA1" nm && String.eqb "2" ver) eqn:E1; cbv beta iota.
    + intros [= <-]. apply andb_true_iff in E1 as [H1 H2].
      apply String.eqb_eq in H1, H2. now subst.
    + destruct (String.eqb "HmacSHA256" nm && String.eqb "2" ver) eqn:E2; cbv beta iota;
        [|discriminate].
      intros [= <-]. apply andb_true_iff in E2 as [H1 H2].
      apply String.eqb_eq in H1, H2. now subst.
  - intros [-> ->]. destruct m; reflexivity.
Qed.

Section Library.

Variable hmac_digest : SignatureMethod -> string -> string -> string.
Variable strftime : Z -> string.
Variable strptime : string -> option Z.

Abbreviation build_signature := (AuthAws.build_signature hmac_digest).
Abbreviation signed_request := (AuthAws.signed_request hmac_digest strftime).
Abbreviation authenticate := (AuthAws.authenticate hmac_digest strptime).

(** Whom the authenticator lets in.  When [authenticate] returns an
    entity, the request carries the five signature parameters; its
    timestamp parses, is not after the first reading of the clock and not
    more than 300 seconds before the second; the entity is that of the
    credential stored under the request's [AWSAccessKeyId]; the request
    names one of the two signature methods with version 2; and its
    [Signature] is the signature of the request under that credential's
    secret. *)
Theorem authenticate_sound (credentials : gmap string Credential) (now1 now2 : Q)
    (pick : Z) (r : Request) (who : string) :
  authenticate credentials now1 now2 pick r = Ok who ->
  exists aws_key cred m t ts,
    parameters (url r) !! "AWSAccessKeyId" = Some aws_key
    /\ for_key credentials aws_key = Some cred /\ who = entity cred
    /\ parameters (url r) !! "SignatureMethod" = Some (name m)
    /\ parameters (url r) !! "SignatureVersion" = Some "2"
    /\ parameters (url r) !! "Timestamp" = Some t /\ strptime t = Some ts
    /\ (inject_Z ts <= now1)%Q /\ (now2 - 300 <= inject_Z ts)%Q
    /\ parameters (url r) !! "Signature" = Some (build_signature m r (secret cred)).
Proof.
  unfold AuthAws.authenticate. intros H.
  destruct (parameters (url r) !! "AWSAccessKeyId") as [aws_key|]; [|discriminate].
  destruct (parameters (url r) !! "Signature") as [sig|]; [|discriminate].
  destruct (parameters (url r) !! "SignatureMethod") as [sm|]; [|discriminate].
  destruct (parameters (url r) !! "SignatureVersion") as [sv|]; [|discriminate].
  destruct (parameters (url r) !! "Timestamp") as [t|]; [|discriminate].
  destruct (strptime t) as [ts|] eqn:Hts; [|discriminate].
  destruct (bad_timestamp now1 now2 ts) eqn:Hbad; [discriminate|].
  destruct (for_key credentials aws_key) as [cred|] eqn:Hcred; [|discriminate].
  destruct (get_signature_method sm sv) as [m|] eqn:Hm; [|discriminate].
  apply method_name_version in Hm as [-> ->]. cbn [bind] in H.
  destruct (_are_equal pick sig _) as [[|]|] eqn:Heq; cbn [bind] in H;
    try discriminate.
  injection H as <-.
  apply AuthCompareFacts.are_equal_returns in Heq. symmetry in Heq.
  apply String.eqb_eq in Heq.
  apply not_true_iff_false in Hbad. rewrite TimestampFacts.bad_timestamp_iff in Hbad.
  change (inject_Z TIMESTAMP_THRESHOLD) with 300%Q in Hbad.
  exists aws_key, cred, m, t, ts.
  repeat split; try reflexivity; try assumption.
  - apply Qnot_lt_le. intros Hlt. apply Hbad. now left.
  - apply Qnot_lt_le. intros Hlt. apply Hbad. now right.
  - now rewrite Heq.
Qed.

(** How the authenticator fails.  With a keyed digest that is never empty
    (an HMAC has the length of its hash), every failure of [authenticate]
    is an [UnauthenticatedException]: no other exception leaves it,
    whatever the request, the credential store, the clock and the random
    generator. *)
Theorem authenticate_fails_unauthenticated (credentials : gmap string Credential)
    (now1 now2 : Q) (pick : Z) (r : Request) (e : exn) :
  (forall m k msg, hmac_digest m k msg <> EmptyString) ->
  authenticate credentials now1 now2 pick r = Raise e ->
  exists msg, e = UnauthenticatedException msg.
Proof.
  intros Hdigest. unfold AuthAws.authenticate.
  repeat match goal with
         | |- context [match ?x with _ => _ end] =>
             match type of x with
             | option _ => destruct x
             | bool => destruct x
             end
         end; try (intros [= <-]; eauto).
  unfold get_signature_method.
  destruct (find _ signature_methods) as [signer|]; cbn [bind];
    [|intros [= <-]; eauto].
  rewrite AuthCompareFacts.are_equal_nonempty
    by (apply AuthFacts.b64encode_nonempty, Hdigest).
  cbn [bind]. destruct (String.eqb _ _); [discriminate|intros [= <-]; eauto].
Qed.

(** The five parameters [signed_request] writes. *)
Definition signing_parameters : list string :=
  ["AWSAccessKeyId"; "SignatureVersion"; "SignatureMethod"; "Timestamp"; "Signature"].

(** Re-signing forgets what the client sent to sign: two requests that
    differ at most in the five signature parameters are signed into the
    same request.  In particular a request signed twice at the same time
    with the same key is the request signed once. *)
Theorem resigning_forgets (now : Q) (r : Request) (p' : gmap string string)
    (m : SignatureMethod) (aws_key aws_secret : string) :
  (forall k, ~ In k signing_parameters -> p' !! k = parameters (url r) !! k) ->
  signed_request now (_clone r (clone_url (url r) p')) m aws_key aws_secret
  = signed_request now r m aws_key aws_secret
  /\ signed_request now (signed_request now r m aws_key aws_secret) m aws_key aws_secret
     = signed_request now r m aws_key aws_secret.
Proof.
  clear strptime.
  assert (Hmain : forall p',
    (forall k, ~ In k signing_parameters -> p' !! k = parameters (url r) !! k) ->
    signed_request now (_clone r (clone_url (url r) p')) m aws_key aws_secret
    = signed_request now r m aws_key aws_secret).
  { clear p'. intros p' Hsame.
    rewrite !AuthFacts.signed_request_eq.
    unfold AuthFacts.prepared, AuthFacts.prepared_parameters.
    cbn [url _clone clone_url parameters method scheme host path].
    set (q' := <["Timestamp" := _]> (<["SignatureMethod" := _]>
                 (<["SignatureVersion" := _]> (<["AWSAccessKeyId" := _]> p')))).
    set (q := <["Timestamp" := _]> (<["SignatureMethod" := _]>
                 (<["SignatureVersion" := _]> (<["AWSAccessKeyId" := _]>
                    (parameters (url r)))))).
    assert (Hq : delete "Signature" q' = delete "Signature" q).
    { apply map_eq. intros k.
      destruct (decide (k = "Signature")) as [->|Hs];
        [now rewrite !lookup_delete_eq|].
      rewrite !lookup_delete_ne by congruence. subst q q'.
      destruct (decide (k = "Timestamp")) as [->|H1];
        [now rewrite !lookup_insert_eq|rewrite !(lookup_insert_ne _ "Timestamp") by congruence].
      destruct (decide (k = "SignatureMethod")) as [->|H2];
        [now rewrite !lookup_insert_eq|rewrite !(lookup_insert_ne _ "SignatureMethod") by congruence].
      destruct (decide (k = "SignatureVersion")) as [->|H3];
        [now rewrite !lookup_insert_eq|rewrite !(lookup_insert_ne _ "SignatureVersion") by congruence].
      destruct (decide (k = "AWSAccessKeyId")) as [->|H4];
        [now rewrite !lookup_insert_eq|rewrite !(lookup_insert_ne _ "AWSAccessKeyId") by congruence].
      apply Hsame. cbn [signing_parameters In]. intuition congruence. }
    assert (Hbase : forall x y : gmap string string,
              delete "Signature" x = delete "Signature" y ->
              build_signature_base_string
                {| method := method r;
                   url := {| scheme := scheme (url r); host := host (url r);
                             path := path (url r); parameters := x |} |}
              = build_signature_base_string
                  {| method := method r;
                     url := {| scheme := scheme (url r); host := host (url r);
                               path := path (url r); parameters := y |} |}).
    { intros x y Hxy. unfold build_signature_base_string.
      rewrite !AuthFacts.normalized_parameters_delete.
      cbn [url parameters]. now rewrite Hxy. }
    unfold AuthAws.build_signature, _clone, clone_url.
    cbn [method url scheme host path parameters].
    rewrite (Hbase q' q Hq).
    match goal with
    | |- context [<["Signature" := ?s]> q'] =>
        assert (Hins : <["Signature" := s]> q' = <["Signature" := s]> q)
          by (rewrite <- (insert_delete_eq q'), Hq; apply insert_delete_eq);
        rewrite Hins
    end.
    reflexivity. }
  intros Hsame. split; [now apply Hmain|].
  specialize (Hmain (parameters (url (signed_request now r m aws_key aws_secret)))).
  cbv beta in Hmain. apply Hmain.
  intros k Hk. cbn [AuthAws.signed_request url _clone clone_url parameters].
  cbn [signing_parameters In] in Hk.
  rewrite !lookup_insert_ne by intuition congruence. reflexivity.
Qed.

End Library.

Lemma authenticate_sound_witness :
  exists aws_key cred,
    parameters (url Samples.signed) !! "AWSAccessKeyId" = Some aws_key
    /\ for_key Samples.credentials aws_key = Some cred
    /\ "alice@example.com" = entity cred.
Proof.
  destruct (authenticate_sound Samples.auth_hmac Clock.strptime Samples.credentials
              (inject_Z 1293840000) (inject_Z 1293840000) 7%Z Samples.signed
              "alice@example.com")
    as (aws_key & cred & m & t & ts & H1 & H2 & H3 & _).
  - vm_compute. reflexivity.
  - exists aws_key, cred. split; [exact H1|]. split; [exact H2|exact H3].
Defined.

Lemma sample_digest_nonempty (m : SignatureMethod) (k msg : string) :
  Samples.auth_hmac m k msg <> EmptyString.
Proof. destruct m; discriminate. Qed.

Lemma authenticate_fails_unauthenticated_witness :
  exists msg, UnauthenticatedException "signature mismatch" = UnauthenticatedException msg.
Proof.
  apply (authenticate_fails_unauthenticated Samples.auth_hmac Clock.strptime
           Samples.credentials (inject_Z 1293840000) (inject_Z 1293840000) 7%Z
           Samples.iam_request (UnauthenticatedException "signature mismatch")
           sample_digest_nonempty).
  vm_compute. reflexivity.
Defined.

Lemma resigning_forgets_witness :
  AuthAws.signed_request Samples.auth_hmac Clock.strftime (inject_Z 1293840000)
    (_clone Samples.iam_request
       (clone_url (url Samples.iam_request)
          (<["Signature" := "Zm9yZ2Vk"]> (parameters (url Samples.iam_request)))))
    SignatureMethod_HMAC_SHA256 "AKID" "wJalrXUtnFEMI"
  = Samples.signed.
Proof.
  refine (proj1 (resigning_forgets Samples.auth_hmac Clock.strftime
                   (inject_Z 1293840000) Samples.iam_request
                   (<["Signature" := "Zm9yZ2Vk"]> (parameters (url Samples.iam_request)))
                   SignatureMethod_HMAC_SHA256 "AKID" "wJalrXUtnFEMI" _)).
  intros k Hk. apply lookup_insert_ne. intros <-. apply Hk.
  cbn [signing_parameters In]. tauto.
Defined.

End AuthenticatorFacts.

(** ** Random tokens ([goldengate/util.py]) *)

Module UtilFacts.
Import Util.

(** A draw of [random()]. *)
Definition unit_draw (u : Q) : Prop := (0 <= u)%Q /\ (u < 1)%Q.

Lemma get_in (n : nat) (s : string) (c : ascii) :
  String.get n s = Some c -> In c (list_ascii_of_string s).
Proof.
  revert n. induction s as [|a s IH]; intros n; [destruct n; discriminate|].
  destruct n as [|n]; simpl.
  - intros [= ->]. now left.
  - intros H. right. now apply (IH n).
Qed.

Lemma get_some (n : nat) (s : string) :
  (n < String.length s)%nat -> exists c, String.get n s = Some c.
Proof.
  revert n. induction s as [|a s IH]; intros n Hn; simpl in Hn; [lia|].
  destruct n as [|n]; simpl; [eauto|]. apply IH. lia.
Qed.

Lemma choice_in (alphabet : string) (u : Q) :
  alphabet <> EmptyString -> unit_draw u ->
  exists c, choice alphabet u = Ok c /\ In c (list_ascii_of_string alphabet).
Proof.
  intros Hne [H0 H1]. unfold choice.
  set (n := Z.of_nat (String.length alphabet)).
  assert (Hn : (0 < n)%Z) by (subst n; destruct alphabet; [congruence|simpl; lia]).
  assert (Hlo : (0 <= Qfloor (u * inject_Z n))%Z).
  { change 0%Z with (Qfloor 0). apply Qfloor_resp_le.
    apply Qmult_le_0_compat; [exact H0|].
    change 0%Q with (inject_Z 0). rewrite <- Zle_Qle. lia. }
  assert (Hhi : (Qfloor (u * inject_Z n) < n)%Z).
  { rewrite Zlt_Qlt. eapply Qle_lt_trans; [apply Qfloor_le|].
    assert (Hpos : (0 < inject_Z n)%Q)
      by (change 0%Q with (inject_Z 0); rewrite <- Zlt_Qlt; exact Hn).
    apply Qlt_le_trans with (1 * inject_Z n)%Q;
      [now apply Qmult_lt_compat_r|rewrite Qmult_1_l; apply Qle_refl]. }
  destruct (get_some (Z.to_nat (Qfloor (u * inject_Z n))) alphabet) as [c Hc];
    [subst n; lia|].
  rewrite Hc. exists c. split; [reflexivity|]. now apply get_in in Hc.
Qed.

Lemma random_chars_ok (n : nat) (alphabet : string) (draw : nat -> Q) :
  alphabet <> EmptyString -> (forall i, unit_draw (draw i)) ->
  exists token,
    random_chars n alphabet draw = Ok token
    /\ String.length token = n
    /\ forall c, In c (list_ascii_of_string token) -> In c (list_ascii_of_string alphabet).
Proof.
  intros Hne. revert draw. induction n as [|n IH]; intros draw Hdraw; simpl.
  - exists EmptyString. repeat split. intros c [].
  - destruct (choice_in alphabet (draw O) Hne (Hdraw O)) as (c & -> & Hc).
    destruct (IH (fun i => draw (S i))) as (rest & -> & Hlen & Hin);
      [intros i; apply Hdraw|].
    exists (String c rest). cbn [bind]. split; [reflexivity|].
    split; [simpl; now rewrite Hlen|].
    intros c' [<-|H]; [exact Hc|now apply Hin].
Qed.

(** A token has the length asked for (none for a negative length) and is
    made of characters of the alphabet only, whatever the generator draws,
    as long as the alphabet is not empty; on an empty alphabet a token of
    one character or more raises [IndexError]. *)
Theorem random_token_in_alphabet (length : Z) (alphabet : string) (draw : nat -> Q) :
  (forall i, unit_draw (draw i)) ->
  (alphabet <> EmptyString ->
   exists token,
     random_token length alphabet draw = Ok token
     /\ String.length token = Z.to_nat length
     /\ forall c, In c (list_ascii_of_string token) ->
                  In c (list_ascii_of_string alphabet))
  /\ (alphabet = EmptyString -> (0 < length)%Z ->
      random_token length alphabet draw = Raise (IndexError "string index out of range")).
Proof.
  intros Hdraw. split.
  - intros Hne. now apply random_chars_ok.
  - intros -> Hlen. unfold random_token.
    destruct (Z.to_nat length) as [|n] eqn:Hn; [lia|]. reflexivity.
Qed.

(** The credentials printed are a key of 16 characters and a secret of 32,
    none of which is one of the look-alikes [i], [o], [I], [O], [0] and
    [1]; the function does not raise. *)
Theorem generate_credentials_tokens (draw : nat -> Q) :
  (forall i, unit_draw (draw i)) ->
  exists key secret,
    generate_credentials draw
    = (("key: " ++ key ++ String (Str.chr 10) ("secret: " ++ secret
          ++ String (Str.chr 10) EmptyString))%string, Ok tt)
    /\ String.length key = 16%nat /\ String.length secret = 32%nat
    /\ forall c, In c (list_ascii_of_string (key ++ secret)) ->
                 In c (list_ascii_of_string RANDOM_TOKEN_ALPHABET)
                 /\ ~ In c (list_ascii_of_string "ioIO01").
Proof.
  intros Hdraw. unfold generate_credentials.
  destruct (random_chars_ok 16 RANDOM_TOKEN_ALPHABET draw) as (key & Hk & Hkl & Hkin);
    [discriminate|exact Hdraw|].
  destruct (random_chars_ok 32 RANDOM_TOKEN_ALPHABET (fun i => draw (16 + i)%nat))
    as (secret & Hs & Hsl & Hsin); [discriminate|intros i; apply Hdraw|].
  unfold random_token.
  change (Z.to_nat RANDOM_TOKEN_STRING_LENGTH) with 16%nat.
  change (Z.to_nat 32) with 32%nat. rewrite Hk, Hs.
  exists key, secret. split.
  - reflexivity.
  - split; [exact Hkl|]. split; [exact Hsl|].
    intros c Hc.
    assert (Hin : In c (list_ascii_of_string RANDOM_TOKEN_ALPHABET)).
    { clear -Hc Hkin Hsin. revert Hc Hkin. generalize key as k.
      induction k as [|a k IH]; simpl; intros Hc Hkin; [now apply Hsin|].
      destruct Hc as [<-|Hc]; [apply Hkin; now left|].
      apply IH; [exact Hc|]. intros c' H'. apply Hkin. now right. }
    split; [exact Hin|].
    intros Hbad. vm_compute in Hin, Hbad.
    repeat (destruct Hbad as [<-|Hbad];
            [repeat (destruct Hin as [Hin|Hin]; [discriminate|]); exact Hin|]).
    exact Hbad.
Qed.

Lemma half_unit_draw (i : nat) : unit_draw (Scenarios.half i).
Proof. split; [discriminate|reflexivity]. Qed.

Lemma random_token_in_alphabet_witness :
  exists token,
    random_token 16 RANDOM_TOKEN_ALPHABET Scenarios.half = Ok token
    /\ String.length token = 16%nat.
Proof.
  destruct (proj1 (random_token_in_alphabet 16 RANDOM_TOKEN_ALPHABET Scenarios.half
                     half_unit_draw))
    as (token & H1 & H2 & _).
  - discriminate.
  - exists token. split; [exact H1|exact H2].
Defined.

Lemma generate_credentials_tokens_witness :
  exists key secret,
    snd (generate_credentials Scenarios.half) = Ok tt
    /\ String.length key = 16%nat /\ String.length secret = 32%nat
    /\ fst (generate_credentials Scenarios.half)
       = (("key: " ++ key ++ String (Str.chr 10) ("secret: " ++ secret
             ++ String (Str.chr 10) EmptyString))%string).
Proof.
  destruct (generate_credentials_tokens Scenarios.half half_unit_draw)
    as (key & secret & H & Hk & Hs & _).
  exists key, secret. rewrite H. repeat split; assumption.
Defined.

End UtilFacts.

(** ** Matchers and policies ([goldengate/policy.py]) *)

Module MatcherFacts.
Import Matchers.

(** The loop of [AllMatcher.matches] and of [AnyMatcher.matches] over the
    results of the matchers. *)
Fixpoint all_of (l : list (Result bool)) : Result bool :=
  match l with
  | [] => Ok true
  | r :: rest => do b <- r; if negb b then Ok false else all_of rest
  end.

Fixpoint any_of (l : list (Result bool)) : Result bool :=
  match l with
  | [] => Ok false
  | r :: rest => do b <- r; if b then Ok true else any_of rest
  end.

Lemma matches_all (ms : list Matcher) (entity : string) (request : AnyRequest) :
  matches (AllMatcher ms) entity request
  = all_of (map (fun m => matches m entity request) ms).
Proof.
  induction ms as [|m ms IH]; [reflexivity|].
  cbn [map all_of]. rewrite <- IH. reflexivity.
Qed.

Lemma matches_any (ms : list Matcher) (entity : string) (request : AnyRequest) :
  matches (AnyMatcher ms) entity request
  = any_of (map (fun m => matches m entity request) ms).
Proof.
  induction ms as [|m ms IH]; [reflexivity|].
  cbn [map any_of]. rewrite <- IH. reflexivity.
Qed.

Lemma matches_not (m : Matcher) (entity : string) (request : AnyRequest) :
  matches (NotMatcher m) entity request
  = (do b <- matches m entity request; Ok (negb b)).
Proof. reflexivity. Qed.

(** The matchers obey De Morgan's laws, exceptions included: the negation
    of an [AnyMatcher] is the [AllMatcher] of the negations, the negation
    of an [AllMatcher] is the [AnyMatcher] of the negations, each pair
    giving the same result or raising the same exception on every entity
    and request; and a double negation is the matcher itself. *)
Theorem matcher_de_morgan (ms : list Matcher) (m : Matcher) (entity : string)
    (request : AnyRequest) :
  matches (NotMatcher (AnyMatcher ms)) entity request
  = matches (AllMatcher (map NotMatcher ms)) entity request
  /\ matches (NotMatcher (AllMatcher ms)) entity request
     = matches (AnyMatcher (map NotMatcher ms)) entity request
  /\ matches (NotMatcher (NotMatcher m)) entity request = matches m entity request.
Proof.
  rewrite !matches_not, !matches_all, !matches_any, !map_map.
  split; [|split].
  - induction ms as [|m0 ms IH]; [reflexivity|].
    cbn [map any_of all_of]. rewrite matches_not.
    destruct (matches m0 entity request) as [[|]|e]; cbn [bind negb];
      [reflexivity|exact IH|reflexivity].
  - induction ms as [|m0 ms IH]; [reflexivity|].
    cbn [map any_of all_of]. rewrite matches_not.
    destruct (matches m0 entity request) as [[|]|e]; cbn [bind negb];
      [exact IH|reflexivity|reflexivity].
  - destruct (matches m entity request) as [[|]|e]; reflexivity.
Qed.

Lemma first_applicable_skips (entity : string) (request : AnyRequest)
    (before rest : list PolicyObj) :
  List.Forall (fun q => applies_to q entity request = Ok false) before ->
  first_applicable entity request (before ++ rest)
  = first_applicable entity request rest.
Proof.
  induction 1 as [|q before Hq _ IH]; [reflexivity|].
  cbn [app first_applicable]. now rewrite Hq.
Qed.

(** The first policy that applies is the one [for_request] returns: the
    policies before it that do not apply are passed over, the policies
    after it are not asked, and a matcher that raises ends the search with
    its exception.  With no policy that applies the search raises
    [MissingPolicyException], which a list that ends with [allow()] or
    [deny()] rules out.  Without a list, [settings.policies] is searched. *)
Theorem for_request_first_match (settings_policies before after : list PolicyObj)
    (p : PolicyObj) (entity : string) (request : AnyRequest) :
  List.Forall (fun q => applies_to q entity request = Ok false) before ->
  (applies_to p entity request = Ok true ->
   for_request settings_policies entity request (Some (before ++ p :: after))
   = Selected p)
  /\ (forall e, applies_to p entity request = Raise e ->
      for_request settings_policies entity request (Some (before ++ p :: after))
      = MatcherRaised e)
  /\ for_request settings_policies entity request (Some before) = MissingPolicyException
  /\ for_request settings_policies entity request (Some (before ++ [allow]))
     = Selected allow
  /\ for_request settings_policies entity request (Some (before ++ [deny]))
     = Selected deny
  /\ for_request (before ++ p :: after) entity request None
     = for_request settings_policies entity request (Some (before ++ p :: after)).
Proof.
  intros Hb. unfold for_request.
  rewrite !(first_applicable_skips entity request before _ Hb).
  pose proof (first_applicable_skips entity request before [] Hb) as Hnone.
  rewrite app_nil_r in Hnone. rewrite Hnone.
  repeat split.
  - intros H. cbn [first_applicable]. now rewrite H.
  - intros e H. cbn [first_applicable]. now rewrite H.
Qed.

(** The policy [action] builds for a list of entities applies to the
    requests of those entities whose [Action] parameter is the action
    named.  The entity is tested first: for an entity that is not listed
    the policy does not apply, whatever the request.  For a listed entity,
    a request that is not an AWS request does not match, and an AWS request
    without an [Action] parameter makes the matcher raise [KeyError] rather
    than answer false.  Keyword arguments are refused with [TypeError] when
    [allow] is a boolean. *)
Theorem action_policy (a : string) (allowed : bool) (entities : list string)
    (entity : string) (r : AuthAws.Request) (k v : string)
    (kwargs : list (string * string)) :
  let arg := if allowed then AllowTrue else AllowFalse in
  let p := BooleanPolicy allowed
             (AllMatcher [EntityMatcher entities; AWSActionMatcher a]) in
  action a arg (Some entities) [] = Ok p
  /\ (exists msg, action a arg (Some entities) ((k, v) :: kwargs) = Raise (TypeError msg))
  /\ (~ In entity entities ->
      applies_to p entity (AwsRequest r) = Ok false
      /\ applies_to p entity (HttpRequest r) = Ok false)
  /\ (In entity entities ->
      applies_to p entity (HttpRequest r) = Ok false
      /\ applies_to p entity (AwsRequest r)
         = match AuthAws.parameters (AuthAws.url r) !! "Action" with
           | Some a' => Ok (String.eqb a' a)
           | None => Raise (KeyError "Action")
           end).
Proof.
  intros arg p. subst arg p.
  assert (Hin : existsb (String.eqb entity) entities = true <-> In entity entities).
  { rewrite existsb_exists. split.
    - intros (x & Hx & He). apply String.eqb_eq in He. now subst.
    - intros H. exists entity. split; [exact H|apply String.eqb_refl]. }
  split; [now destruct allowed|]. split; [destruct allowed; simpl; eauto|].
  unfold applies_to. cbn [matcher matches bind].
  split.
  - intros Hout. rewrite <- Hin in Hout. apply not_true_iff_false in Hout.
    rewrite Hout. split; reflexivity.
  - intros Hentity. apply Hin in Hentity. rewrite Hentity. cbn [negb].
    split; [reflexivity|]. unfold aws_action.
    destruct (AuthAws.parameters (AuthAws.url r) !! "Action") as [a'|]; cbn [bind];
      [|reflexivity].
    now destruct (String.eqb a' a).
Qed.

Lemma for_request_first_match_witness :
  for_request [] "alice@example.com" (AwsRequest Samples.iam_request)
    (Some [DenyPolicy (EntityMatcher ["mallory@example.com"]);
           AllowPolicy (AWSActionMatcher "ListUsers"); deny])
  = Selected (AllowPolicy (AWSActionMatcher "ListUsers")).
Proof.
  refine (proj1 (for_request_first_match []
                   [DenyPolicy (EntityMatcher ["mallory@example.com"])] [deny]
                   (AllowPolicy (AWSActionMatcher "ListUsers")) "alice@example.com"
                   (AwsRequest Samples.iam_request) _) _).
  - constructor; [reflexivity|constructor].
  - vm_compute. reflexivity.
Defined.

End MatcherFacts.

(** ** The tokens of a rule line *)

Module TokenFacts.
Import Engine.

Lemma replace_absent (c : ascii) (old' new s : string) :
  Str.contains_char c s = false -> Str.replace s (String c old') new = s.
Proof.
  unfold Str.replace, Str.contains_char.
  induction s as [|a r IH]; [reflexivity|].
  cbn [list_ascii_of_string existsb]. intros H.
  apply orb_false_elim in H as [Ha Hr].
  cbn [Str.replace_from Str.startswith]. rewrite Ha. cbn [andb].
  now rewrite (IH Hr).
Qed.

(** A token that needs no escape: it has no space, no backslash and no
    zero byte. *)
Definition plain (t : string) : Prop :=
  Str.contains_char " " t = false /\ Str.contains_char "\" t = false
  /\ Str.contains_char (Str.chr 0) t = false.

Lemma join_free (c : ascii) (ts : list string) :
  Ascii.eqb c " " = false ->
  List.Forall (fun t => Str.contains_char c t = false) ts ->
  Str.contains_char c (Str.join " " ts) = false.
Proof.
  intros Hc. induction 1 as [|t ts Ht _ IH]; [reflexivity|].
  destruct ts as [|t' ts]; [exact Ht|].
  change (Str.join " " (t :: t' :: ts))
    with (t ++ " " ++ Str.join " " (t' :: ts))%string.
  rewrite !EncodingFacts.contains_char_app, Ht, IH.
  unfold Str.contains_char. cbn [list_ascii_of_string existsb]. now rewrite Hc.
Qed.

(** A line of plain tokens separated by single spaces is read back as
    those tokens. *)
Lemma tokens_plain (ts : list string) :
  ts <> [] -> List.Forall plain ts -> tokens (Str.join " " ts) = ts.
Proof.
  intros Hne Hplain. unfold tokens.
  rewrite replace_absent.
  2:{ apply join_free; [reflexivity|].
      eapply List.Forall_impl; [|exact Hplain]. now intros t (_ & H & _). }
  rewrite EncodingFacts.split_join; [|exact Hne|].
  2:{ eapply List.Forall_impl; [|exact Hplain]. now intros t (H & _ & _). }
  clear Hne. induction Hplain as [|t ts (_ & _ & Ht) _ IH]; [reflexivity|].
  cbn [map]. rewrite IH. f_equal. unfold NUL. now apply replace_absent.
Qed.

End TokenFacts.

(** ** The match rules ([goldengate/rules/match.py]) *)

Module RulesMatchFacts.
Import Webob RulesMatch.

Section Library.

Variable re_match : string -> option string -> Result bool.
Variable ip : Type.
Variable IP : option string -> Result ip.
Variable ip_in : ip -> ip -> bool.
Variable attribute : Request -> string -> option string.

Abbreviation matchfunc := (RulesMatch.matchfunc re_match ip IP ip_in).
Abbreviation request_match := (RulesMatch.request_match re_match ip IP ip_in attribute).
Abbreviation header_match := (RulesMatch.header_match re_match ip IP ip_in).

Lemma regex_loop_first (p : string) (ps remaining : list string) (value : option string) :
  remaining <> [] ->
  regex_loop re_match (p :: ps) remaining value = re_match p value.
Proof.
  induction remaining as [|x rest IH]; [congruence|]. intros _.
  cbn [regex_loop bind].
  destruct (re_match p value) as [[|]|e] eqn:Hp; cbn [bind]; try reflexivity.
  destruct rest as [|y rest]; [reflexivity|].
  apply IH. discriminate.
Qed.

(** [regex] and [is] look at their first parameter only: the parameters
    after it never change what the rule answers, on any request.  (A
    [regex] rule matches its first pattern once for each parameter.) *)
Theorem first_parameter_only (v t p : string) (ps : list string) (request : Request) :
  t = "regex" \/ t = "is" ->
  request_match {| verb := v; matchtype := t; params := p :: ps |} request
  = request_match {| verb := v; matchtype := t; params := [p] |} request
  /\ (t = "regex" ->
      request_match {| verb := v; matchtype := t; params := p :: ps |} request
      = re_match p (request_attribute attribute request v)).
Proof.
  unfold RulesMatch.request_match, RulesMatch.matchfunc. cbn [matchtype params verb].
  intros [-> | ->]; cbn [String.eqb Ascii.eqb Bool.eqb].
  - unfold match_regex. rewrite !regex_loop_first by discriminate.
    split; reflexivity.
  - split; [reflexivity|discriminate].
Qed.

(** A header rule never matches a request that lacks the header, or has it
    empty, whatever the match type and the parameters.  On a request that
    has the header, an [is] rule constructed without a value raises
    [IndexError], while a [regex] or an [in] rule without parameters
    answers false. *)
Theorem header_rule_without (self : HeaderMatchRule) (request : Request) (v : string) :
  (headers request !! header_key (h_key self) = None
   \/ headers request !! header_key (h_key self) = Some "" ->
   header_match self request = Ok false)
  /\ (headers request !! header_key (h_key self) = Some v -> v <> "" ->
      h_params self = [] ->
      (h_matchtype self = "is" ->
       header_match self request = Raise (IndexError "tuple index out of range"))
      /\ (h_matchtype self = "regex" \/ h_matchtype self = "in" ->
          header_match self request = Ok false)).
Proof.
  unfold RulesMatch.header_match. split.
  - intros [-> | ->]; reflexivity.
  - intros -> Hv ->. apply String.eqb_neq in Hv. rewrite Hv.
    unfold RulesMatch.matchfunc. split.
    + intros ->. reflexivity.
    + intros [-> | ->]; reflexivity.
Qed.

End Library.

Lemma first_parameter_only_witness :
  RulesMatch.request_match Scenarios.literal_match string
    (fun x => Ok (default "" x)) String.eqb (fun _ _ => None)
    {| verb := "path"; matchtype := "regex"; params := ["/foo"; "/admin"] |}
    Samples.request
  = Scenarios.literal_match "/foo" (Some "/foo/bar").
Proof.
  refine (proj2 (first_parameter_only Scenarios.literal_match string
                   (fun x => Ok (default "" x)) String.eqb (fun _ _ => None)
                   "path" "regex" "/foo" ["/admin"] Samples.request (or_introl eq_refl))
            eq_refl).
Defined.

(** The constructor of a request rule accepts exactly the argument lists
    of three or more that start with a verb of the class and one of the
    four match types, and keeps the rest as parameters; every other list
    makes it raise [RuleException]. *)
Theorem request_match_init_accepts (verbs args : list string) :
  match request_match_init verbs args with
  | Ok rule =>
      args = verb rule :: matchtype rule :: params rule
      /\ params rule <> [] /\ In (verb rule) verbs /\ In (matchtype rule) match_types
  | Raise e =>
      (exists msg, e = RuleException msg)
      /\ ((length args < 3)%nat
          \/ (exists v rest, args = v :: rest /\ ~ In v verbs)
          \/ (exists v t rest, args = v :: t :: rest /\ ~ In t match_types))
  end.
Proof.
  assert (Hin : forall x l, existsb (String.eqb x) l = true <-> In x l).
  { intros x l. rewrite existsb_exists. split.
    - intros (y & Hy & He). apply String.eqb_eq in He. now subst.
    - intros H. exists x. split; [exact H|apply String.eqb_refl]. }
  unfold request_match_init.
  destruct args as [|v [|t [|p ps]]];
    try (split; [eauto|left; simpl; lia]).
  destruct (existsb (String.eqb v) verbs) eqn:Hv; cbn [negb].
  - destruct (existsb (String.eqb t) match_types) eqn:Ht; cbn [negb].
    + cbn [verb matchtype params]. apply Hin in Hv, Ht.
      repeat split; [discriminate|exact Hv|exact Ht].
    + split; [eauto|]. right. right. exists v, t, (p :: ps). split; [reflexivity|].
      rewrite <- Hin. congruence.
  - split; [eauto|]. right. left. exists v, (t :: p :: ps). split; [reflexivity|].
    rewrite <- Hin. congruence.
Qed.

End RulesMatchFacts.

(** ** The header rules ([HeaderModifyRule], [HeaderMatchRule]) *)

Module HeaderFacts.
Import Webob ModifyRules.

Lemma finditer_none (pos : nat) (s : string) :
  Str.contains_char "$" s = false -> finditer pos s = [].
Proof.
  unfold Str.contains_char. revert pos.
  induction s as [|c r IH]; intros pos; [reflexivity|].
  cbn [list_ascii_of_string existsb finditer]. intros H.
  apply orb_false_elim in H as [Hc Hr].
  rewrite Ascii.eqb_sym, Hc. cbn [andb]. now apply IH.
Qed.

Lemma finditer_keys (pos : nat) (s : string) :
  List.Forall (fun m => Str.startswith (snd m) "$" = true) (finditer pos s).
Proof.
  revert pos. induction s as [|c r IH]; intros pos; [constructor|].
  cbn [finditer].
  destruct (Ascii.eqb c "$") eqn:Hc; cbn [andb]; [|apply IH].
  destruct (negb (String.eqb (name_prefix r) "")); [|apply IH].
  constructor; [|apply IH]. cbn [snd Str.startswith]. now rewrite Ascii.eqb_sym, Hc.
Qed.

Section Environ.

Variable environ_get : Request -> string -> option string.

Abbreviation template_value := (ModifyRules.template_value environ_get).
Abbreviation header_modify := (ModifyRules.header_modify environ_get).

Lemma template_loop_same (env env' : Request -> string -> option string)
    (matches : list (nat * nat * string)) (request : Request) (v : string) :
  (forall k, Str.startswith k "$" = true -> env request k = env' request k) ->
  List.Forall (fun m => Str.startswith (snd m) "$" = true) matches ->
  template_loop env matches request v = template_loop env' matches request v.
Proof.
  intros Hsame H. revert v. induction H as [|[[s e] k] matches Hk _ IH]; intros v;
    [reflexivity|].
  cbn [template_loop]. unfold template_lookup. cbn [snd] in Hk.
  rewrite (Hsame k Hk).
  destruct (getattr request k) as [[x|]|]; try apply IH;
    destruct (env' request k); try reflexivity; apply IH.
Qed.

(** A template variable is looked up under its name with the dollar sign.
    A value without a dollar sign is used as it is.  What a value with
    variables becomes depends on the request's environment only through
    the entries whose key starts with a dollar sign, never through the
    entry the variable names; and on a request that has neither such an
    entry nor such an attribute, every value in which a dollar sign is
    followed by a lower-case letter or an underscore makes the rule raise
    [RuleException]. *)
Theorem template_variables_keep_dollar (self : HeaderModifyRule) (request : Request) :
  (Str.contains_char "$" (value self) = false ->
   template_value self request = Ok (value self))
  /\ (forall env',
        (forall k, Str.startswith k "$" = true ->
                   environ_get request k = env' request k) ->
        template_value self request = ModifyRules.template_value env' self request)
  /\ ((forall k, Str.startswith k "$" = true ->
                 template_lookup environ_get request k = None) ->
      forall before c after,
        value self = (before ++ String "$" (String c after))%string ->
        is_name_char c = true ->
        exists msg, template_value self request = Raise (RuleException msg)).
Proof.
  unfold ModifyRules.template_value. split; [|split].
  - intros H. now rewrite (finditer_none 0 _ H).
  - intros env' Hsame. apply template_loop_same; [exact Hsame|apply finditer_keys].
  - intros Hnone before c after Hv Hc. rewrite Hv.
    assert (Hm : forall pos, exists m rest,
               finditer pos (before ++ String "$" (String c after))%string = m :: rest).
    { clear Hv. induction before as [|b before IH]; intros pos.
      - change (EmptyString ++ String "$" (String c after))%string
          with (String "$" (String c after)).
        cbn [finditer name_prefix]. rewrite Hc, Ascii.eqb_refl.
        cbn [String.eqb negb andb]. do 2 eexists. reflexivity.
      - rewrite StrFacts.app_cons. cbn [finditer].
        destruct (Ascii.eqb b "$" && _); [do 2 eexists; reflexivity|apply IH]. }
    destruct (Hm 0%nat) as ([[s e] k] & rest & Hfind).
    pose proof (finditer_keys 0 (before ++ String "$" (String c after))%string) as Hkeys.
    rewrite Hfind in Hkeys |- *. apply List.Forall_cons_iff in Hkeys as [Hk _].
    cbn [snd] in Hk. cbn [template_loop]. rewrite (Hnone k Hk). eauto.
Qed.

Variable re_match : string -> option string -> Result bool.
Variable ip : Type.
Variable IP : option string -> Result ip.
Variable ip_in : ip -> ip -> bool.

Abbreviation header_match := (RulesMatch.header_match re_match ip IP ip_in).

(** [header set] writes the header the match rules read.  After the rule
    [header set K V], for a value without a dollar sign, the request has
    the header [K] with the value [V] under every spelling of the name
    (case, [-] or [_]), its other headers as before, and the match rule
    [header K is V] accepts it when [V] is not empty. *)
Theorem header_set_then_match (k k' v : string) (params : list string)
    (request : Request) :
  Str.contains_char "$" v = false ->
  header_key k' = header_key k ->
  exists request',
    header_modify {| action := "set"; key := k; value := v |} request = Ok request'
    /\ headers request' !! header_key k' = Some v
    /\ (forall name, header_key name <> header_key k ->
          headers request' !! header_key name = headers request !! header_key name)
    /\ (v <> "" ->
        header_match {| RulesMatch.h_verb := "header"; RulesMatch.h_key := k';
                        RulesMatch.h_matchtype := "is";
                        RulesMatch.h_params := v :: params |} request'
        = Ok true).
Proof.
  intros Hv Hk. eexists. split.
  - unfold ModifyRules.header_modify, ModifyRules.template_value.
    cbn [value action key]. rewrite (finditer_none 0 v Hv). reflexivity.
  - cbn [headers set_headers key]. split; [|split].
    + rewrite Hk. apply lookup_insert_eq.
    + intros name Hname. now apply lookup_insert_ne.
    + intros Hne. unfold RulesMatch.header_match.
      cbn [RulesMatch.h_key RulesMatch.h_matchtype RulesMatch.h_params headers set_headers].
      rewrite Hk, lookup_insert_eq. apply String.eqb_neq in Hne. rewrite Hne.
      unfold RulesMatch.matchfunc, RulesMatch.match_is. cbn.
      now rewrite String.eqb_refl.
Qed.

(** [header remove] on a header the request does not have raises
    [KeyError]; on one it has, it leaves a request that no header rule for
    that header matches. *)
Theorem header_remove_then_match (k : string) (rule : RulesMatch.HeaderMatchRule)
    (request : Request) :
  header_key (RulesMatch.h_key rule) = header_key k ->
  match headers request !! header_key k with
  | None => exists name,
      header_modify {| action := "remove"; key := k; value := "" |} request
      = Raise (KeyError name)
  | Some _ => exists request',
      header_modify {| action := "remove"; key := k; value := "" |} request
      = Ok request'
      /\ headers request' !! header_key k = None
      /\ header_match rule request' = Ok false
  end.
Proof.
  intros Hk.
  unfold ModifyRules.header_modify, ModifyRules.template_value, header_remove.
  cbn [value action key finditer template_loop bind String.eqb Ascii.eqb Bool.eqb].
  destruct (headers request !! header_key k) as [v|]; [|eauto].
  eexists. split; [reflexivity|].
  cbn [headers set_headers]. split; [apply lookup_delete_eq|].
  unfold RulesMatch.header_match. cbn [headers set_headers].
  now rewrite Hk, lookup_delete_eq.
Qed.

End Environ.

Lemma header_set_then_match_witness :
  exists request',
    ModifyRules.header_modify (fun _ _ => None)
      {| action := "set"; key := "X-Forwarded-For"; value := "10.0.0.1" |}
      Samples.request = Ok request'
    /\ headers request' !! header_key "x_forwarded_for" = Some "10.0.0.1".
Proof.
  destruct (header_set_then_match (fun _ _ => None) Scenarios.literal_match string
              (fun x => Ok (default "" x)) String.eqb
              "X-Forwarded-For" "x_forwarded_for" "10.0.0.1" [] Samples.request)
    as (request' & H1 & H2 & _).
  - reflexivity.
  - reflexivity.
  - exists request'. split; [exact H1|exact H2].
Defined.

Lemma header_remove_then_match_witness :
  exists request',
    ModifyRules.header_modify (fun _ _ => None)
      {| action := "remove"; key := "User-Agent"; value := "" |} Samples.request
    = Ok request'
    /\ headers request' !! header_key "User-Agent" = None.
Proof.
  pose proof (header_remove_then_match (fun _ _ => None) Scenarios.literal_match string
                (fun x => Ok (default "" x)) String.eqb "User-Agent"
                {| RulesMatch.h_verb := "header"; RulesMatch.h_key := "user_agent";
                   RulesMatch.h_matchtype := "regex"; RulesMatch.h_params := ["curl"] |}
                Samples.request eq_refl) as H.
  change (headers Samples.request !! header_key "User-Agent")
    with (Some "curl/7.19.7") in H.
  destruct H as (request' & H1 & H2 & _).
  exists request'. split; [exact H1|exact H2].
Defined.

End HeaderFacts.

(** ** Compiling a configuration ([RuleEngine.compile] with the rule
    classes) *)

Module CompileFacts.
Import Webob Engine Construct.

Section Library.

Variable load_all : string -> string + list (string * string).

Abbreviation construct := (Construct.construct load_all).
Abbreviation engine := (Construct.engine load_all).

Lemma construct_kind (cls : Rules.RuleClass) (args : list string)
    (kwargs : gmap string string) (obj : RuleObj) :
  construct cls args kwargs = Ok obj ->
  match obj with
  | Test _ => Rules.ruletype cls = "match" \/ Rules.ruletype cls = "filter"
  | Modifier _ => Rules.ruletype cls = "modify"
  end.
Proof.
  destruct cls; cbn [Construct.construct Rules.ruletype];
    try (intros [= <-]; auto; fail);
    match goal with
    | |- bind ?x _ = _ -> _ => destruct x; cbn [bind]; [|discriminate]
    end; intros [= <-]; auto.
Qed.

Lemma bind_ok {A B : Type} (r : Result A) (k : A -> Result B) (b : B) :
  bind r k = Ok b -> exists a, r = Ok a /\ k a = Ok b.
Proof. destruct r as [a|e]; [eauto|discriminate]. Qed.

(** A line that compiles resolved its verb to a class and constructed the
    class. *)
Lemma compile_rule_ok (ruletype line : string) (obj : RuleObj) (text : list string) :
  compile_rule RuleObj construct ruletype line = Ok (obj, text) ->
  exists verb cls args kwargs,
    Rules.find_rule Rules.all_rules ruletype verb = Ok cls
    /\ construct cls args kwargs = Ok obj.
Proof.
  unfold compile_rule. intros H.
  apply bind_ok in H as (va & _ & H).
  apply bind_ok in H as (cls & Hfind & H).
  apply bind_ok in H as (o & Hc & H).
  injection H as -> _. eauto 6.
Qed.

(** The objects of a stage are of the stage's kind: compiling a [match] or
    a [filter] section gives match and filter objects only, compiling a
    [modify_request] or [modify_response] section gives modify objects
    only, whatever the lines. *)
Theorem stage_objects (ruletype : string) (ruleset : option (list string))
    (compiled : list (RuleObj * list string)) :
  engine ruletype ruleset = Ok compiled ->
  (Rules.category ruletype = "match" \/ Rules.category ruletype = "filter" ->
   List.Forall (fun c => exists t, fst c = Test t) compiled)
  /\ (Rules.category ruletype = "modify" ->
      List.Forall (fun c => exists m, fst c = Modifier m) compiled).
Proof.
  unfold Construct.engine.
  generalize (match ruleset with Some lines => lines | None => [] end) as lines.
  intros lines. revert compiled.
  induction lines as [|line rest IH]; intros compiled; cbn [compile].
  - intros [= <-]. split; constructor.
  - intros H. apply bind_ok in H as ([obj text] & Hline & H).
    apply bind_ok in H as (cs & Hrest & H). injection H as <-.
    destruct (IH cs Hrest) as [IHt IHm].
    apply compile_rule_ok in Hline as (verb & cls & args & kwargs & Hfind & Hc).
    apply RegistryFacts.find_rule_category in Hfind as [Hcat _].
    apply construct_kind in Hc.
    split; intros Hk; (constructor; [cbn [fst]|auto]).
    + destruct obj as [t|m]; [now exists t|]. exfalso.
      rewrite Hcat, Hc in Hk. destruct Hk as [Hk|Hk]; discriminate Hk.
    + destruct obj as [t|m]; [|now exists m]. exfalso.
      rewrite Hcat in Hk. rewrite Hk in Hc. destruct Hc as [Hc|Hc]; discriminate Hc.
Qed.

Lemma find_url : Rules.find_rule Rules.all_rules "modify_request" "url" = Ok Rules.URLModifyRule.
Proof. vm_compute. reflexivity. Qed.

(** [url set] cannot carry a URL that has an equals sign.  For a URL that
    needs no escape, the line [url set <URL>] compiles to the rule that
    sets the override to the URL when the URL has no equals sign; when it
    has one (a query string with a parameter), the URL is taken for a
    keyword argument and dropped, and the rule sets the override to
    [None]. *)
Theorem url_set_line (u : string) :
  TokenFacts.plain u ->
  compile_rule RuleObj construct "modify_request" ("url set " ++ u)
  = Ok (Modifier (URLModify {| RulesModify.verb := "url";
                               RulesModify.value :=
                                 if Str.contains_char "=" u then None else Some u |}),
        ["url"; "set"; u]).
Proof.
  intros Hu. unfold compile_rule.
  change ("url set " ++ u)%string with (Str.join " " ["url"; "set"; u]).
  rewrite TokenFacts.tokens_plain; [|discriminate|].
  2:{ repeat constructor; try reflexivity; apply Hu. }
  cbn [String.eqb Ascii.eqb Bool.eqb nth_error bind fst snd].
  rewrite find_url. cbn [bind].
  unfold has_eq. cbn [List.filter].
  replace (Str.contains_char "=" "url") with false by reflexivity.
  replace (Str.contains_char "=" "set") with false by reflexivity.
  cbn [negb].
  destruct (Str.contains_char "=" u); reflexivity.
Qed.

End Library.

Lemma stage_objects_witness :
  List.Forall (fun c => exists t, fst c = Test t)
    [(Test All, ["all"]);
     (Test (HeaderMatch {| RulesMatch.h_verb := "header";
                           RulesMatch.h_key := "X-Forwarded-For";
                           RulesMatch.h_matchtype := "is";
                           RulesMatch.h_params := ["10.0.0.1"] |}),
      ["header"; "X-Forwarded-For"; "is"; "10.0.0.1"])].
Proof.
  refine (proj1 (stage_objects Scenarios.no_files "match"
                   (Some ["all"; "header X-Forwarded-For is 10.0.0.1"]) _ _)
            (or_introl eq_refl)).
  vm_compute. reflexivity.
Defined.

Lemma url_set_line_witness :
  compile_rule RuleObj (Construct.construct Scenarios.no_files) "modify_request"
    "url set http://upstream.example.com/?Action=ListUsers"
  = Ok (Modifier (URLModify {| RulesModify.verb := "url"; RulesModify.value := None |}),
        ["url"; "set"; "http://upstream.example.com/?Action=ListUsers"]).
Proof.
  refine (url_set_line Scenarios.no_files
            "http://upstream.example.com/?Action=ListUsers" _).
  split; [reflexivity|]. split; reflexivity.
Defined.

End CompileFacts.

(** ** The constructor of the signing rule ([AWSSignModifyRule.__init__]) *)

Module AwsInitFacts.
Import RulesAws AwsInit.

Section Files.

Variable load_all : string -> string + list (string * string).


End Files.

End AwsInitFacts.
